(** * The fusion relay of [api/generate.js]

    A shallow embedding of the backend function [handler] and of its retry
    helper [withRetry], together with the parts of the JavaScript runtime the
    two rely on: values as [JSON.parse] produces them, property reads, optional
    chaining, [ToString], [ToBoolean], [JSON.parse] itself, promises that
    resolve or reject, and the observable effects ([fetch], [setTimeout],
    [console], the inbound response). *)

From Stdlib Require Import ZArith List String Ascii Bool Lia DecimalString.
From Stdlib Require Import Sorted Permutation.
Import ListNotations.
Local Open Scope string_scope.
Local Open Scope Z_scope.
Set Warnings "-register-all".

(** ** What the engine decides

    A JavaScript Number is an IEEE double; how a numeric literal is rounded to
    one, how a double is printed and which doubles are finite is the engine's
    business, and so is the wording of the [TypeError]s it raises.  The
    embedding takes them as an interface and every general theorem holds for
    every implementation. *)

Class Engine : Type := {
  number : Type;
  (** the Number a numeric literal denotes *)
  number_of_literal : string -> number;
  (** [Number::toString] *)
  number_to_string : number -> string;
  (** [+0], [-0] and [NaN]: the Numbers [ToBoolean] sends to [false] *)
  number_is_falsy : number -> bool;
  (** neither [NaN] nor an infinity: the Numbers [JSON.stringify] writes as
      numbers *)
  number_is_finite : number -> bool;
  (** message of the [TypeError] raised by [base.prop] when [base] is
      [null] ([true]) or [undefined] ([false]) *)
  cannot_read : bool -> string -> string;
  (** message of the [TypeError] raised by [const { prop } = base] *)
  cannot_destructure : bool -> string -> string;
  (** message of the [TypeError] raised when an object that has no primitive
      value is converted to a string *)
  cannot_convert : string;
  (** message of the [SyntaxError] raised by [JSON.parse] on a text *)
  not_json : string -> string
}.

(** ** Values *)

Inductive value {E : Engine} : Type :=
| VUndefined
| VNull
| VBool (b : bool)
| VNum (n : number)
| VStr (s : string)
| VArr (elems : list value)
| VObj (members : list (string * value)).

(** A thrown [Error] object: its [name] and its [message]. *)
Record js_error : Type := mkError { err_name : string; err_message : string }.

(** How an evaluation completes: with a value, or abruptly with a throw (for
    a promise: resolved, or rejected). *)
Inductive completion (A : Type) : Type :=
| Normal (a : A)
| Throw (e : js_error).
Arguments Normal {A} a.
Arguments Throw {A} e.

Section Values.
Context {E : Engine}.

Definition TypeError (msg : string) : js_error := mkError "TypeError" msg.
Definition SyntaxError (msg : string) : js_error := mkError "SyntaxError" msg.
(** [new Error(msg)] *)
Definition Error (msg : string) : js_error := mkError "Error" msg.

Definition is_nullish (v : value) : bool :=
  match v with VUndefined | VNull => true | _ => false end.

(** [ToBoolean] *)
Definition truthy (v : value) : bool :=
  match v with
  | VUndefined | VNull => false
  | VBool b => b
  | VNum n => negb (number_is_falsy n)
  | VStr s => negb (String.eqb s "")
  | VArr _ | VObj _ => true
  end.

(** [a || b] *)
Definition or_else (a b : value) : value := if truthy a then a else b.

(** [!v] *)
Definition js_not (v : value) : bool := negb (truthy v).

(** The own property [k] of an object built by [JSON.parse] or by an object
    literal: when a key occurs twice the later member wins. *)
Fixpoint find_member (k : string) (members : list (string * value))
  : option value :=
  match members with
  | [] => None
  | (k', v) :: rest =>
      match find_member k rest with
      | Some later => Some later
      | None => if String.eqb k k' then Some v else None
      end
  end.

Definition own_property (k : string) (members : list (string * value)) : value :=
  match find_member k members with
  | Some v => v
  | None => VUndefined
  end.

(** [base.prop] for the property names the relay reads ([ok] apart, which is
    read off a Response): [candidates], [content], [parts], [text],
    [italianName], [englishTranslation], [imagePrompt], [predictions],
    [bytesBase64Encoded], [error], [message].  None of them is defined on a
    built-in prototype, so the read finds an own property of an object or
    nothing; on [null] and [undefined] it throws. *)
Definition get (base : value) (prop : string) : completion value :=
  match base with
  | VUndefined => Throw (TypeError (cannot_read false prop))
  | VNull => Throw (TypeError (cannot_read true prop))
  | VObj members => Normal (own_property prop members)
  | _ => Normal VUndefined
  end.

(** [base[0]] on a value that is not [null] or [undefined]: the first element
    of an array, the first character of a string (here its first byte, which
    is the character in ASCII text), the own property ["0"] of an object. *)
Definition at0 (base : value) : value :=
  match base with
  | VArr (x :: _) => x
  | VStr (String c _) => VStr (String c "")
  | VObj members => own_property "0" members
  | _ => VUndefined
  end.

(** One link [?.] of an optional chain: on [null] and [undefined] the rest of
    the chain is skipped and the chain is [undefined]. *)
Definition opt (v : value) (rest : value -> value) : value :=
  if is_nullish v then VUndefined else rest v.

(** [base.prop] where [base] is known not to be [null] or [undefined] (inside
    an optional chain). *)
Definition member (prop : string) (base : value) : value :=
  match base with
  | VObj members => own_property prop members
  | _ => VUndefined
  end.

Definition join_with (sep : string) (parts : list string) : string :=
  match parts with
  | [] => ""
  | p :: ps => fold_left (fun acc q => acc ++ sep ++ q) ps p
  end.

(** [ToString], as a template literal, [new Error] and [JSON.parse] apply it
    to their argument, on a value built by [JSON.parse] or by an object
    literal of the program.  No member of such a value is a function.  So an
    object with an own property [toString] has no primitive value: that
    property is not callable, and [valueOf], its own if it has one and the
    inherited one if not, gives no primitive either; the conversion throws a
    [TypeError].  Any other object is printed by [Object.prototype.toString].
    An array prints its elements joined by commas, [null] and [undefined]
    elements as the empty string, and throws where an element does. *)
Fixpoint ToString (v : value) : completion string :=
  match v with
  | VUndefined => Normal "undefined"
  | VNull => Normal "null"
  | VBool true => Normal "true"
  | VBool false => Normal "false"
  | VNum n => Normal (number_to_string n)
  | VStr s => Normal s
  | VArr elems =>
      match
        (fix texts (l : list value) : completion (list string) :=
           match l with
           | [] => Normal []
           | x :: l' =>
               match (if is_nullish x then Normal "" else ToString x) with
               | Throw e => Throw e
               | Normal s =>
                   match texts l' with
                   | Throw e => Throw e
                   | Normal ss => Normal (s :: ss)
                   end
               end
           end) elems
      with
      | Throw e => Throw e
      | Normal ss => Normal (join_with "," ss)
      end
  | VObj members =>
      match find_member "toString" members with
      | Some _ => Throw (TypeError cannot_convert)
      | None => Normal "[object Object]"
      end
  end.

End Values.

(** ** [JSON.parse]

    The text is cut into tokens by an automaton that reads one character at a
    time, and the tokens are assembled by a pushdown automaton; both recurse
    on their input only, so the parser is total.  A string is kept as the
    sequence of its bytes in UTF-8, a surrogate that stands alone as its
    three bytes.  An escape [\uXXXX] contributes the one to three bytes of
    its code unit, and a high surrogate followed by a low one, as two escapes
    in a row give them, is the one character of four bytes. *)

Inductive token : Type :=
| TLBrace | TRBrace | TLBracket | TRBracket | TColon | TComma
| TString (s : string)
| TNumber (lexeme : string)
| TTrue | TFalse | TNull.

(** Where the automaton stands inside a number: an optional minus sign; then
    a zero alone, or a digit from 1 to 9 and any digits; then, optionally, a
    point and at least one digit; then, optionally, [e] or [E], an optional
    sign and at least one digit. *)
Inductive num_state : Type :=
| NMinus | NZero | NInt | NDot | NFrac | NE | NESign | NExp.

Inductive lex_state : Type :=
| LIdle
| LStr (acc : list ascii)
| LEsc (acc : list ascii)
| LHex (acc : list ascii) (code : N) (missing : nat)
| LNum (st : num_state) (acc : list ascii)
| LWord (rest : list ascii) (tok : token).

Definition code (c : ascii) : N := N_of_ascii c.

Definition is_digit (c : ascii) : bool := ((48 <=? code c) && (code c <=? 57))%N.
Definition is_digit19 (c : ascii) : bool := ((49 <=? code c) && (code c <=? 57))%N.
Definition is_exp (c : ascii) : bool := Ascii.eqb c "e" || Ascii.eqb c "E".
Definition is_sign (c : ascii) : bool := Ascii.eqb c "+" || Ascii.eqb c "-".
(** space, tab, line feed, carriage return *)
Definition is_ws (c : ascii) : bool :=
  ((code c =? 32) || (code c =? 9) || (code c =? 10) || (code c =? 13))%N.

Definition hex_value (c : ascii) : option N :=
  let n := code c in
  (if (48 <=? n) && (n <=? 57) then Some (n - 48)
   else if (65 <=? n) && (n <=? 70) then Some (n - 55)
   else if (97 <=? n) && (n <=? 102) then Some (n - 87)
   else None)%N.

Definition num_accepting (st : num_state) : bool :=
  match st with
  | NZero | NInt | NFrac | NExp => true
  | NMinus | NDot | NE | NESign => false
  end.

Definition num_step (st : num_state) (c : ascii) : option num_state :=
  match st with
  | NMinus =>
      if Ascii.eqb c "0" then Some NZero
      else if is_digit19 c then Some NInt else None
  | NZero =>
      if Ascii.eqb c "." then Some NDot
      else if is_exp c then Some NE else None
  | NInt =>
      if is_digit c then Some NInt
      else if Ascii.eqb c "." then Some NDot
      else if is_exp c then Some NE else None
  | NDot => if is_digit c then Some NFrac else None
  | NFrac =>
      if is_digit c then Some NFrac
      else if is_exp c then Some NE else None
  | NE =>
      if is_sign c then Some NESign
      else if is_digit c then Some NExp else None
  | NESign => if is_digit c then Some NExp else None
  | NExp => if is_digit c then Some NExp else None
  end.

Definition string_of_rev (acc : list ascii) : string :=
  string_of_list_ascii (rev acc).

Definition byte (n : N) : ascii := ascii_of_N n.

(** The bytes of one code unit, most significant first. *)
Definition code_unit_bytes (u : N) : list ascii :=
  (if u <? 128 then [byte u]
   else if u <? 2048 then [byte (192 + u / 64); byte (128 + u mod 64)]
   else [byte (224 + u / 4096); byte (128 + (u / 64) mod 64);
         byte (128 + u mod 64)])%N.

(** The three bytes of a high surrogate ([D800] to [DBFF]) and of a low one
    ([DC00] to [DFFF]). *)
Definition is_high_surrogate (b1 b2 b3 : ascii) : bool :=
  ((code b1 =? 237) && (160 <=? code b2) && (code b2 <=? 175)
   && (128 <=? code b3) && (code b3 <=? 191))%N.

Definition is_low_surrogate (b1 b2 b3 : ascii) : bool :=
  ((code b1 =? 237) && (176 <=? code b2) && (code b2 <=? 191)
   && (128 <=? code b3) && (code b3 <=? 191))%N.

(** The four bytes of the character that a high and a low surrogate make,
    from the last two bytes of each. *)
Definition pair_bytes (h2 h3 l2 l3 : ascii) : list ascii :=
  (let high := (code h2 - 160) * 64 + (code h3 - 128) in
   let low := (code l2 - 176) * 64 + (code l3 - 128) in
   let point := 65536 + high * 1024 + low in
   [byte (240 + point / 262144); byte (128 + (point / 4096) mod 64);
    byte (128 + (point / 64) mod 64); byte (128 + point mod 64)])%N.

Fixpoint join_surrogates (bs : list ascii) : list ascii :=
  match bs with
  | [] => []
  | b1 :: tail =>
      match tail with
      | b2 :: b3 :: b4 :: b5 :: b6 :: rest =>
          if is_high_surrogate b1 b2 b3 && is_low_surrogate b4 b5 b6
          then (pair_bytes b2 b3 b5 b6 ++ join_surrogates rest)%list
          else b1 :: join_surrogates tail
      | _ => b1 :: join_surrogates tail
      end
  end.

(** The string a string literal denotes, from its bytes, latest first. *)
Definition string_of_bytes (acc : list ascii) : string :=
  string_of_list_ascii (join_surrogates (rev acc)).

(** The automaton between two tokens. *)
Definition idle_step (c : ascii) : option (list token * lex_state) :=
  if is_ws c then Some ([], LIdle)
  else if Ascii.eqb c "{" then Some ([TLBrace], LIdle)
  else if Ascii.eqb c "}" then Some ([TRBrace], LIdle)
  else if Ascii.eqb c "[" then Some ([TLBracket], LIdle)
  else if Ascii.eqb c "]" then Some ([TRBracket], LIdle)
  else if Ascii.eqb c ":" then Some ([TColon], LIdle)
  else if Ascii.eqb c "," then Some ([TComma], LIdle)
  else if Ascii.eqb c "034" then Some ([], LStr [])
  else if Ascii.eqb c "-" then Some ([], LNum NMinus [c])
  else if Ascii.eqb c "0" then Some ([], LNum NZero [c])
  else if is_digit19 c then Some ([], LNum NInt [c])
  else if Ascii.eqb c "t" then Some ([], LWord (list_ascii_of_string "rue") TTrue)
  else if Ascii.eqb c "f" then Some ([], LWord (list_ascii_of_string "alse") TFalse)
  else if Ascii.eqb c "n" then Some ([], LWord (list_ascii_of_string "ull") TNull)
  else None.

Definition lex_step (st : lex_state) (c : ascii)
  : option (list token * lex_state) :=
  match st with
  | LIdle => idle_step c
  | LStr acc =>
      if Ascii.eqb c "034" then Some ([TString (string_of_bytes acc)], LIdle)
      else if Ascii.eqb c "\" then Some ([], LEsc acc)
      else if (code c <? 32)%N then None
      else Some ([], LStr (c :: acc))
  | LEsc acc =>
      if Ascii.eqb c "034" || Ascii.eqb c "\" || Ascii.eqb c "/"
      then Some ([], LStr (c :: acc))
      else if Ascii.eqb c "b" then Some ([], LStr (byte 8 :: acc))
      else if Ascii.eqb c "f" then Some ([], LStr (byte 12 :: acc))
      else if Ascii.eqb c "n" then Some ([], LStr (byte 10 :: acc))
      else if Ascii.eqb c "r" then Some ([], LStr (byte 13 :: acc))
      else if Ascii.eqb c "t" then Some ([], LStr (byte 9 :: acc))
      else if Ascii.eqb c "u" then Some ([], LHex acc 0%N 3%nat)
      else None
  | LHex acc u missing =>
      match hex_value c with
      | None => None
      | Some d =>
          let u' := (16 * u + d)%N in
          match missing with
          | O => Some ([], LStr (rev (code_unit_bytes u') ++ acc)%list)
          | S m => Some ([], LHex acc u' m)
          end
      end
  | LNum ns acc =>
      match num_step ns c with
      | Some ns' => Some ([], LNum ns' (c :: acc))
      | None =>
          if num_accepting ns then
            match idle_step c with
            | Some (toks, st') => Some (TNumber (string_of_rev acc) :: toks, st')
            | None => None
            end
          else None
      end
  | LWord rest tok =>
      match rest with
      | [] => None
      | x :: rest' =>
          if Ascii.eqb c x then
            match rest' with
            | [] => Some ([tok], LIdle)
            | _ => Some ([], LWord rest' tok)
            end
          else None
      end
  end.

(** What the end of the text means in each state. *)
Definition lex_end (st : lex_state) : option (list token) :=
  match st with
  | LIdle => Some []
  | LNum ns acc =>
      if num_accepting ns then Some [TNumber (string_of_rev acc)] else None
  | _ => None
  end.

Fixpoint lex (st : lex_state) (cs : list ascii) : option (list token) :=
  match cs with
  | [] => lex_end st
  | c :: cs' =>
      match lex_step st c with
      | None => None
      | Some (toks, st') =>
          match lex st' cs' with
          | None => None
          | Some more => Some (toks ++ more)%list
          end
      end
  end.

Section Parser.
Context {E : Engine}.

(** An enclosing array or object that waits for the value being read. *)
Inductive frame : Type :=
| InArr (done : list value)
| InObj (done : list (string * value)) (key : string).

(** What the parser expects next; [done] lists are kept latest first. *)
Inductive mode : Type :=
| MValue
| MArr0
| MArrSep (done : list value)
| MObj0
| MObjKey (done : list (string * value))
| MColon (done : list (string * value)) (key : string)
| MObjSep (done : list (string * value))
| MDone (v : value).

(** A value is complete: hand it to the innermost enclosing frame. *)
Definition deliver (v : value) (stack : list frame) : list frame * mode :=
  match stack with
  | [] => ([], MDone v)
  | InArr done :: stack' => (stack', MArrSep (v :: done))
  | InObj done key :: stack' => (stack', MObjSep ((key, v) :: done))
  end.

(** A token in a place where a value starts. *)
Definition start_value (tok : token) (stack : list frame)
  : option (list frame * mode) :=
  match tok with
  | TLBracket => Some (stack, MArr0)
  | TLBrace => Some (stack, MObj0)
  | TString s => Some (deliver (VStr s) stack)
  | TNumber lexeme => Some (deliver (VNum (number_of_literal lexeme)) stack)
  | TTrue => Some (deliver (VBool true) stack)
  | TFalse => Some (deliver (VBool false) stack)
  | TNull => Some (deliver VNull stack)
  | TRBrace | TRBracket | TColon | TComma => None
  end.

Definition parse_step (m : mode) (stack : list frame) (tok : token)
  : option (list frame * mode) :=
  match m, tok with
  | MValue, _ => start_value tok stack
  | MArr0, TRBracket => Some (deliver (VArr []) stack)
  | MArr0, _ => start_value tok (InArr [] :: stack)
  | MArrSep done, TComma => Some (InArr done :: stack, MValue)
  | MArrSep done, TRBracket => Some (deliver (VArr (rev done)) stack)
  | MObj0, TRBrace => Some (deliver (VObj []) stack)
  | MObj0, TString key => Some (stack, MColon [] key)
  | MObjKey done, TString key => Some (stack, MColon done key)
  | MColon done key, TColon => Some (InObj done key :: stack, MValue)
  | MObjSep done, TComma => Some (stack, MObjKey done)
  | MObjSep done, TRBrace => Some (deliver (VObj (rev done)) stack)
  | _, _ => None
  end.

Fixpoint parse_tokens (m : mode) (stack : list frame) (toks : list token)
  : option value :=
  match toks with
  | [] => match m with MDone v => Some v | _ => None end
  | tok :: toks' =>
      match parse_step m stack tok with
      | None => None
      | Some (stack', m') => parse_tokens m' stack' toks'
      end
  end.

(** The value a JSON text denotes, [None] when it is not a JSON text. *)
Definition parse_json_text (text : string) : option value :=
  match lex LIdle (list_ascii_of_string text) with
  | None => None
  | Some toks => parse_tokens MValue [] toks
  end.

(** [JSON.parse(v)]: the argument is converted to a string first; a text that
    is not JSON throws a [SyntaxError]. *)
Definition JSON_parse (v : value) : completion value :=
  match ToString v with
  | Throw e => Throw e
  | Normal text =>
      match parse_json_text text with
      | Some parsed => Normal parsed
      | None => Throw (SyntaxError (not_json text))
      end
  end.

End Parser.

(** ** Engines to run examples on *)

(** Numbers kept as the literal that wrote them: exact for the integer
    literals without sign, fraction or exponent below 2^53 that the examples
    use, which [Number::toString] prints back unchanged, which are finite and
    of which only [0] is falsy.  The messages of the [TypeError]s are those
    of V8. *)
Definition literal_engine : Engine := {|
  number := string;
  number_of_literal := fun lexeme => lexeme;
  number_to_string := fun n => n;
  number_is_falsy := fun n => String.eqb n "0";
  number_is_finite := fun _ => true;
  cannot_read := fun of_null prop =>
    "Cannot read properties of " ++ (if of_null then "null" else "undefined")
    ++ " (reading '" ++ prop ++ "')";
  cannot_destructure := fun of_null prop =>
    "Cannot destructure property '" ++ prop ++ "' of 'req.body' as it is "
    ++ (if of_null then "null" else "undefined") ++ ".";
  cannot_convert := "Cannot convert object to primitive value";
  not_json := fun text => "Unexpected token in JSON: " ++ text
|}.

(** Writes a JSON text readably: every backquote stands for a double quote. *)
Definition json_text (s : string) : string :=
  string_of_list_ascii
    (map (fun c => if Ascii.eqb c "`" then "034"%char else c)
       (list_ascii_of_string s)).


(** ** Effects

    What one invocation of the relay does to the world, in the order it does
    it: the operations it invokes (its outbound calls), the pauses it takes,
    what it logs, and what it sends back to the inbound caller. *)

Section Effects.
Context {E : Engine}.

(** The arguments of one [fetch(url, { method, headers, body })]; [fetch_body]
    is the value handed to [JSON.stringify]. *)
Record fetch_request : Type := mkFetch {
  fetch_url : string;
  fetch_method : string;
  fetch_headers : list (string * string);
  fetch_body : value
}.

(** A Response: its status and what [response.json()] resolves to or
    rejects with. *)
Record response : Type := mkResponse {
  status : Z;
  json : completion value
}.

(** [response.ok]: the status is in the range 200 to 299. *)
Definition ok (r : response) : bool := (200 <=? status r) && (status r <=? 299).

(** What [withRetry] can wrap: an outbound call, or any other operation, known
    by a name. *)
Inductive call : Type :=
| Fetch (req : fetch_request)
| Operation (name : string).

Inductive event : Type :=
| EInvoke (c : call)                (* the wrapped operation is invoked *)
| ESleep (ms : Z)                   (* [setTimeout(resolve, ms)] is awaited *)
| EWarn (msg : string)              (* [console.warn] *)
| EError (e : js_error)             (* [console.error("Backend error:", e)] *)
| ESend (code : Z) (body : value).  (* [res.status(code).json(body)] *)

Definition trace : Type := list event.

(** The number of invocations so far. *)
Fixpoint invocations (t : trace) : nat :=
  match t with
  | [] => O
  | EInvoke _ :: t' => S (invocations t')
  | _ :: t' => invocations t'
  end.

(** The outbound HTTP calls so far. *)
Fixpoint fetches (t : trace) : list fetch_request :=
  match t with
  | [] => []
  | EInvoke (Fetch req) :: t' => req :: fetches t'
  | _ :: t' => fetches t'
  end.

(** The pauses so far, in milliseconds. *)
Fixpoint sleeps (t : trace) : list Z :=
  match t with
  | [] => []
  | ESleep ms :: t' => ms :: sleeps t'
  | _ :: t' => sleeps t'
  end.

(** The responses sent to the inbound caller so far. *)
Fixpoint sent (t : trace) : list (Z * value) :=
  match t with
  | [] => []
  | ESend code body :: t' => (code, body) :: sent t'
  | _ :: t' => sent t'
  end.

(** An asynchronous computation: from the trace so far to how it completes and
    the trace then. *)
Definition M (A : Type) : Type := trace -> completion A * trace.

Definition ret {A : Type} (a : A) : M A := fun t => (Normal a, t).

Definition throw {A : Type} (e : js_error) : M A := fun t => (Throw e, t).

Definition bind {A B : Type} (m : M A) (k : A -> M B) : M B :=
  fun t =>
    match m t with
    | (Normal a, t') => k a t'
    | (Throw e, t') => (Throw e, t')
    end.

(** [try { m } catch (e) { handler e }] *)
Definition try_catch {A : Type} (m : M A) (handler : js_error -> M A) : M A :=
  fun t =>
    match m t with
    | (Normal a, t') => (Normal a, t')
    | (Throw e, t') => handler e t'
    end.

(** An evaluation without effects, inside a computation. *)
Definition lift {A : Type} (c : completion A) : M A := fun t => (c, t).

Definition emit (ev : event) : M unit := fun t => (Normal tt, (t ++ [ev])%list).

End Effects.

Declare Scope relay_scope.
Delimit Scope relay_scope with relay.
Notation "x <- m ;; k" := (bind m (fun x => k))
  (at level 61, m at next level, right associativity) : relay_scope.
Notation "m ;;; k" := (bind m (fun _ => k))
  (at level 61, right associativity) : relay_scope.
Local Open Scope relay_scope.

Section Relay.
Context {E : Engine}.

(** An operation observed from outside: invoking it is logged, and its
    [n]-th invocation overall (counted from 0) completes as [behaviour n]. *)
Definition invoke {A : Type} (c : call) (behaviour : nat -> completion A) : M A :=
  fun t => (behaviour (invocations t), (t ++ [EInvoke c])%list).

(** [await new Promise(resolve => setTimeout(resolve, ms))] *)
Definition setTimeout (ms : Z) : M unit := emit (ESleep ms).

(** ** [withRetry]
<<
const withRetry = async (fn, maxRetries = 3, delay = 1000) => {
  for (let i = 0; i < maxRetries; i++) {
    try {
      return await fn();
    } catch (error) {
      if (i === maxRetries - 1) throw error;
      await new Promise(resolve => setTimeout(resolve, delay * Math.pow(2, i)));
    }
  }
};
>>
    The loop is entered at most [maxRetries] times, which is the fuel of
    [for_loop]; the result is [Some] of what [fn] returned, or [None] for the
    [undefined] of a loop that ends without returning. *)

Section WithRetry.
Context {A : Type}.
Variable fn : M A.
Variables maxRetries delay : Z.

Fixpoint for_loop (fuel : nat) (i : Z) : M (option A) :=
  if i <? maxRetries then
    match fuel with
    | O => ret None
    | S fuel' =>
        try_catch (a <- fn ;; ret (Some a))
          (fun error =>
             if i =? maxRetries - 1 then throw error
             else setTimeout (delay * 2 ^ i) ;;; for_loop fuel' (i + 1))
    end
  else ret None.

Definition withRetry : M (option A) := for_loop (Z.to_nat maxRetries) 0.

End WithRetry.

(** [withRetry(fn)]: [maxRetries = 3], [delay = 1000]. *)
Definition withRetry_default {A : Type} (fn : M A) : M (option A) :=
  withRetry fn 3 1000.

(** ** [handler] *)

(** The inbound request: [req.method] and [req.body]. *)
Record request : Type := mkRequest {
  method : string;
  body : value
}.

(** The upstream services: how the [n]-th invocation overall, being a fetch
    of [req], completes (rejected, or resolved with a Response). *)
Definition upstream_model : Type := nat -> fetch_request -> completion response.

Definition fetch (upstream : upstream_model) (req : fetch_request) : M response :=
  invoke (Fetch req) (fun n => upstream n req).

Definition GEMINI_API_URL (API_KEY : string) : string :=
  "https://generativelanguage.googleapis.com/v1beta/models/gemini-2.5-flash-preview-09-2025:generateContent?key="
  ++ API_KEY.

Definition IMAGEN_API_URL (API_KEY : string) : string :=
  "https://generativelanguage.googleapis.com/v1beta/models/imagen-4.0-generate-001:predict?key="
  ++ API_KEY.

(** [{ method: 'POST', headers: { 'Content-Type': 'application/json' },
       body: JSON.stringify(payload) }] *)
Definition post_json (url : string) (payload : value) : fetch_request :=
  mkFetch url "POST" [("Content-Type", "application/json")] payload.

(** [const { geminiPayload } = req.body;] *)
Definition destructure_geminiPayload (req_body : value) : completion value :=
  match req_body with
  | VUndefined => Throw (TypeError (cannot_destructure false "geminiPayload"))
  | VNull => Throw (TypeError (cannot_destructure true "geminiPayload"))
  | _ => Normal (member "geminiPayload" req_body)
  end.

(** [if (!response.ok) { const err = await response.json();
      throw new Error(`<prefix>${err.error.message}`); }
    const result = await response.json();]
    on what [withRetry] returned. *)
Definition checked_json (prefix : string) (returned : option response) : M value :=
  match returned with
  | None => throw (TypeError (cannot_read false "ok"))
  | Some resp =>
      if negb (ok resp) then
        err <- lift (json resp) ;;
        err_error <- lift (get err "error") ;;
        msg <- lift (get err_error "message") ;;
        text <- lift (ToString msg) ;;
        throw (Error (prefix ++ text))
      else lift (json resp)
  end.

(** The three variables assigned in stage 1. *)
Record idea : Type := mkIdea {
  generatedName : value;
  generatedTranslation : value;
  finalImagePrompt : value
}.

(** Their initial values: the fallbacks. *)
Definition fallback_idea : idea :=
  mkIdea (VStr "Il Creato Senza Nome")
         (VStr "The Unnamed Creation")
         (VStr "A surreal hybrid creature, vibrant colors, baroque illustration, octane render.").

(** [geminiResult.candidates?.[0]?.content?.parts?.[0]?.text] *)
Definition candidate_text (geminiResult : value) : completion value :=
  match get geminiResult "candidates" with
  | Throw e => Throw e
  | Normal candidates =>
      Normal
        (opt candidates (fun candidates =>
         opt (at0 candidates) (fun candidate =>
         opt (member "content" candidate) (fun content =>
         opt (member "parts" content) (fun parts =>
         opt (at0 parts) (fun part =>
         member "text" part))))))
  end.

(** The body of the inner [try]: the variables as it leaves them, and how it
    completes.  Each assignment takes effect when it is reached. *)
Definition parse_idea (geminiResult : value) (vars : idea) : completion unit * idea :=
  match candidate_text geminiResult with
  | Throw e => (Throw e, vars)
  | Normal jsonText =>
  match JSON_parse jsonText with
  | Throw e => (Throw e, vars)
  | Normal parsedJson =>
  match get parsedJson "italianName" with
  | Throw e => (Throw e, vars)
  | Normal italianName =>
  let vars1 :=
    mkIdea (or_else italianName (generatedName vars))
           (generatedTranslation vars) (finalImagePrompt vars) in
  match get parsedJson "englishTranslation" with
  | Throw e => (Throw e, vars1)
  | Normal englishTranslation =>
  let vars2 :=
    mkIdea (generatedName vars1)
           (or_else englishTranslation (generatedTranslation vars1))
           (finalImagePrompt vars1) in
  match get parsedJson "imagePrompt" with
  | Throw e => (Throw e, vars2)
  | Normal imagePrompt =>
  (Normal tt,
   mkIdea (generatedName vars2) (generatedTranslation vars2)
          (or_else imagePrompt (finalImagePrompt vars2)))
  end end end end end.

(** Lines 48 to 60: the variables start from the fallbacks; a throw inside
    the [try] is logged and otherwise ignored. *)
Definition stage1_idea (geminiResult : value) : M idea :=
  match parse_idea geminiResult fallback_idea with
  | (Normal _, vars) => ret vars
  | (Throw _, vars) =>
      emit (EWarn "Failed to parse Gemini JSON, using fallback.") ;;; ret vars
  end.

(** The template literal of line 65 around the text of [finalImagePrompt]. *)
Definition imagen_prompt (text : string) : string :=
  "Highly cinematic, detailed, and artistic illustration of: "
  ++ text
  ++ ". Baroque style, golden ratio, dramatic lighting.".

(** Lines 63 to 68 once the template literal has its text. *)
Definition imagen_payload (text : string) : value :=
  VObj [("instances", VObj [("prompt", VStr (imagen_prompt text))]);
        ("parameters", VObj [("sampleCount", VNum (number_of_literal "1"))])].

(** Lines 63 to 68: the template literal converts [finalImagePrompt] to a
    string, which can throw. *)
Definition imagenPayload (finalImagePrompt : value) : completion value :=
  match ToString finalImagePrompt with
  | Throw e => Throw e
  | Normal text => Normal (imagen_payload text)
  end.

(** [imagenResult.predictions?.[0]?.bytesBase64Encoded] *)
Definition prediction_bytes (imagenResult : value) : completion value :=
  match get imagenResult "predictions" with
  | Throw e => Throw e
  | Normal predictions =>
      Normal
        (opt predictions (fun predictions =>
         opt (at0 predictions) (fun prediction =>
         member "bytesBase64Encoded" prediction)))
  end.

(** [`data:image/png;base64,${base64Data}`] *)
Definition image_url (base64Data : value) : completion string :=
  match ToString base64Data with
  | Throw e => Throw e
  | Normal data => Normal ("data:image/png;base64," ++ data)
  end.

Definition send (code : Z) (body : value) : M unit := emit (ESend code body).

Definition error_body (msg : string) : value := VObj [("error", VStr msg)].

(** Step 1 of the outer [try] block, lines 32 to 60: the three variables as
    stage 1 leaves them. *)
Definition generate_idea (upstream : upstream_model) (API_KEY : string)
  (geminiPayload : value) : M idea :=
  geminiResponse <-
    withRetry_default
      (fetch upstream (post_json (GEMINI_API_URL API_KEY) geminiPayload)) ;;
  geminiResult <- checked_json "Gemini API Error: " geminiResponse ;;
  stage1_idea geminiResult.

(** Lines 78 to 95, on what [withRetry] returned for stage 2.  The body of
    the response is built before it is sent, and building it converts
    [base64Data] to a string. *)
Definition respond (vars : idea) (imagenResponse : option response) : M unit :=
  imagenResult <- checked_json "Imagen API Error: " imagenResponse ;;
  base64Data <- lift (prediction_bytes imagenResult) ;;
  if js_not base64Data then
    throw (Error "Image generation failed to return data.")
  else
    imageUrl <- lift (image_url base64Data) ;;
    send 200
      (VObj [("name", generatedName vars);
             ("translation", generatedTranslation vars);
             ("imageUrl", VStr imageUrl)]).

(** Steps 2 and 3, lines 62 to 95. *)
Definition generate_image (upstream : upstream_model) (API_KEY : string)
  (vars : idea) : M unit :=
  payload <- lift (imagenPayload (finalImagePrompt vars)) ;;
  imagenResponse <-
    withRetry_default
      (fetch upstream (post_json (IMAGEN_API_URL API_KEY) payload)) ;;
  respond vars imagenResponse.

(** The outer [try] block, lines 32 to 95. *)
Definition relay (upstream : upstream_model) (API_KEY : string)
  (geminiPayload : value) : M unit :=
  vars <- generate_idea upstream API_KEY geminiPayload ;;
  generate_image upstream API_KEY vars.

(** [e.message || 'An internal server error occurred.'] *)
Definition message_or_default (e : js_error) : string :=
  if String.eqb (err_message e) "" then "An internal server error occurred."
  else err_message e.

(** [export default async function handler(req, res)], with
    [process.env.GOOGLE_API_KEY] as it is when the function is called
    ([None]: not set). *)
Definition handler (upstream : upstream_model) (GOOGLE_API_KEY : option string)
  (req : request) : M unit :=
  if negb (String.eqb (method req) "POST") then
    send 405 (error_body "Method Not Allowed")
  else
    match GOOGLE_API_KEY with
    | None | Some "" => send 500 (error_body "API key not configured.")
    | Some API_KEY =>
        geminiPayload <- lift (destructure_geminiPayload (body req)) ;;
        try_catch (relay upstream API_KEY geminiPayload)
          (fun e =>
             emit (EError e) ;;;
             send 500 (error_body (message_or_default e)))
    end.

End Relay.

(** * The page

    The functions of the single-page application that calls the relay, for
    the parts that are computations on strings and values.  A string here is
    the sequence of its code units, each below 256. *)

(** ** [parseInt] and the printing of small integers *)

(** The white space that [parseInt] skips, among the code units below 256:
    tab, line feed, vertical tab, form feed, carriage return, space,
    no-break space. *)
Definition is_js_whitespace (c : ascii) : bool :=
  let n := code c in
  ((n =? 9) || (n =? 10) || (n =? 11) || (n =? 12) || (n =? 13) || (n =? 32)
   || (n =? 160))%N.

(** The characters a dot of a regular expression does not match, among the
    code units below 256: line feed and carriage return. *)
Definition is_line_terminator (c : ascii) : bool :=
  ((code c =? 10) || (code c =? 13))%N.

(** The value of a digit in a radix up to 36: [0] to [9], then the letters
    in either case. *)
Definition digit_value (c : ascii) : option Z :=
  let n := Z.of_N (code c) in
  if (48 <=? n) && (n <=? 57) then Some (n - 48)
  else if (97 <=? n) && (n <=? 122) then Some (n - 87)
  else if (65 <=? n) && (n <=? 90) then Some (n - 55)
  else None.

Fixpoint skip_whitespace (s : string) : string :=
  match s with
  | String c rest => if is_js_whitespace c then skip_whitespace rest else s
  | EmptyString => s
  end.

(** The value of the longest prefix of [s] made of digits of radix [R],
    [None] when that prefix is empty; [acc] is the value read so far. *)
Fixpoint digits_value (R : Z) (acc : option Z) (s : string) : option Z :=
  match s with
  | String c rest =>
      match digit_value c with
      | Some d =>
          if d <? R then
            digits_value R
              (Some (R * match acc with Some a => a | None => 0 end + d)) rest
          else acc
      | None => acc
      end
  | EmptyString => acc
  end.

(** [parseInt(s, radix)], [parseInt(s)] when [radix] is [None]; the result is
    [None] for [NaN].  Exact as long as the integer read is below 2^53. *)
Definition parseInt (s : string) (radix : option Z) : option Z :=
  let S := skip_whitespace s in
  let sign := match S with String "-" _ => -1 | _ => 1 end in
  let S :=
    match S with
    | String c rest => if Ascii.eqb c "+" || Ascii.eqb c "-" then rest else S
    | EmptyString => S
    end in
  let R0 := match radix with Some r => r | None => 0 end in
  if negb (R0 =? 0) && ((R0 <? 2) || (36 <? R0)) then None
  else
    let stripPrefix := (R0 =? 0) || (R0 =? 16) in
    let R := if R0 =? 0 then 10 else R0 in
    let prefixed :=
      match S with
      | String "0" (String x _) => Ascii.eqb x "x" || Ascii.eqb x "X"
      | _ => false
      end in
    let R := if stripPrefix && prefixed then 16 else R in
    let S :=
      if stripPrefix && prefixed then
        match S with String _ (String _ rest) => rest | _ => S end
      else S in
    match digits_value R None S with
    | None => None
    | Some v => Some (sign * v)
    end.

Definition hex_digit (d : Z) : ascii :=
  if d <? 10 then ascii_of_N (Z.to_N (48 + d)) else ascii_of_N (Z.to_N (87 + d)).

(** [v.toString(16)] for the integers 0 to 255. *)
Definition toString16 (v : Z) : string :=
  if v <? 16 then String (hex_digit v) ""
  else String (hex_digit (v / 16)) (String (hex_digit (v mod 16)) "").

(** [s.substr(-2)]: the last two characters, or all of a shorter string. *)
Definition substr_last2 (s : string) : string :=
  substring (String.length s - 2) 2 s.

(** The decimal writing of an integer, [NaN] for [None]. *)
Definition show_integer (n : option Z) : string :=
  match n with
  | None => "NaN"
  | Some z => NilZero.string_of_int (Z.to_int z)
  end.

(** ** [adjustColor]
<<
const adjustColor = (color, amount) => {
    if (!color) return color;
    return '#' + color.replace(/^#/, '').replace(/../g, color =>
      ('0' + Math.min(255, Math.max(0, parseInt(color, 16) + amount))
               .toString(16)).substr(-2));
}
>>
    for a string [color] and an integer [amount]. *)

(** [s.replace(/^#/, '')] *)
Definition strip_hash (s : string) : string :=
  match s with
  | String "#" rest => rest
  | _ => s
  end.

(** [s.replace(/../g, f)]: from left to right, two characters that a dot
    matches are replaced by what [f] makes of them; a character that starts
    no such pair stays. *)
Fixpoint replace_pairs (f : ascii -> ascii -> string) (s : string) : string :=
  match s with
  | String a (String b rest as tail) =>
      if is_line_terminator a || is_line_terminator b
      then String a (replace_pairs f tail)
      else f a b ++ replace_pairs f rest
  | _ => s
  end.

(** [Math.min(255, Math.max(0, x))] on an integer. *)
Definition clamp (x : Z) : Z := Z.min 255 (Z.max 0 x).

(** The replacement of one pair. *)
Definition adjust_pair (amount : Z) (a b : ascii) : string :=
  substr_last2
    ("0" ++ match parseInt (String a (String b "")) (Some 16) with
            | None => "NaN"
            | Some n => toString16 (clamp (n + amount))
            end).

Definition adjustColor (color : string) (amount : Z) : string :=
  if String.eqb color "" then color
  else "#" ++ replace_pairs (adjust_pair amount) (strip_hash color).

(** ** [hexToRgba]
<<
const hexToRgba = (hex, alpha) => {
    if (!hex) return `rgba(0,0,0,${alpha})`;
    let r = 0, g = 0, b = 0;
    if (hex.length === 4) {
        r = parseInt("0x" + hex[1] + hex[1]);
        g = parseInt("0x" + hex[2] + hex[2]);
        b = parseInt("0x" + hex[3] + hex[3]);
    } else if (hex.length === 7) {
        r = parseInt("0x" + hex[1] + hex[2]);
        g = parseInt("0x" + hex[3] + hex[4]);
        b = parseInt("0x" + hex[5] + hex[6]);
    }
    return `rgba(${r},${g},${b},${alpha})`;
}
>>
    for a string [hex] and a Number [alpha]. *)

(** [s[i]] inside a concatenation: the character, or the text of
    [undefined]. *)
Definition char_at (s : string) (i : nat) : string :=
  match String.get i s with
  | Some c => String c ""
  | None => "undefined"
  end.

Section Colours.
Context {E : Engine}.

Definition rgba (r g b : option Z) (alpha : number) : string :=
  "rgba(" ++ show_integer r ++ "," ++ show_integer g ++ "," ++ show_integer b
  ++ "," ++ number_to_string alpha ++ ")".

Definition hexToRgba (hex : string) (alpha : number) : string :=
  if String.eqb hex "" then "rgba(0,0,0," ++ number_to_string alpha ++ ")"
  else if (String.length hex =? 4)%nat then
    rgba (parseInt ("0x" ++ char_at hex 1 ++ char_at hex 1) None)
         (parseInt ("0x" ++ char_at hex 2 ++ char_at hex 2) None)
         (parseInt ("0x" ++ char_at hex 3 ++ char_at hex 3) None) alpha
  else if (String.length hex =? 7)%nat then
    rgba (parseInt ("0x" ++ char_at hex 1 ++ char_at hex 2) None)
         (parseInt ("0x" ++ char_at hex 3 ++ char_at hex 4) None)
         (parseInt ("0x" ++ char_at hex 5 ++ char_at hex 6) None) alpha
  else rgba (Some 0) (Some 0) (Some 0) alpha.

End Colours.

(** The two hexadecimal digits of a channel, and the colour of three
    channels, as the page writes them. *)
Definition hex2 (v : Z) : string := substr_last2 ("0" ++ toString16 v).

Definition color_of (r g b : Z) : string := "#" ++ hex2 r ++ hex2 g ++ hex2 b.

(** The channel that two hexadecimal digits denote. *)
Definition hex_pair_value (a b : ascii) : option Z :=
  match digit_value a, digit_value b with
  | Some x, Some y => if (x <? 16) && (y <? 16) then Some (16 * x + y) else None
  | _, _ => None
  end.

(** ** [fileToBase64]

    What its [onload] resolves with: [reader.result.split(',')[1]]. *)

(** [s.split(',')] *)
Fixpoint split_comma (s : string) : list string :=
  match s with
  | EmptyString => [""]
  | String c rest =>
      if Ascii.eqb c "," then "" :: split_comma rest
      else
        match split_comma rest with
        | field :: fields => String c field :: fields
        | [] => [String c ""]
        end
  end.

(** [reader.result.split(',')[1]], [None] for [undefined]. *)
Definition base64_of_data_url (result : string) : option string :=
  nth_error (split_comma result) 1.

(** No character of [s] is a comma. *)
Definition comma_free (s : string) : Prop :=
  forall c, In c (list_ascii_of_string s) -> c <> ","%char.

(** ** [generateFusion] and the buttons that call it *)

Section Page.
Context {E : Engine}.

(** The state of [App] that the handlers of the inputs, [generateFusion] and
    the buttons read and write: the two words, the two images ([null], or
    what [fileToBase64] resolved with), the result, [isLoading] and
    [error]. *)
Record page_state : Type := mkPage {
  input1 : string;
  input2 : string;
  image1Base64 : value;
  image2Base64 : value;
  resultName : value;
  resultTranslation : value;
  resultImage : value;
  isLoading : bool;
  error : value
}.

(** The setters of [useState]. *)
Definition setInput1 (v : string) (st : page_state) : page_state :=
  mkPage v (input2 st) (image1Base64 st) (image2Base64 st) (resultName st)
    (resultTranslation st) (resultImage st) (isLoading st) (error st).

Definition setInput2 (v : string) (st : page_state) : page_state :=
  mkPage (input1 st) v (image1Base64 st) (image2Base64 st) (resultName st)
    (resultTranslation st) (resultImage st) (isLoading st) (error st).

Definition setImage1Base64 (v : value) (st : page_state) : page_state :=
  mkPage (input1 st) (input2 st) v (image2Base64 st) (resultName st)
    (resultTranslation st) (resultImage st) (isLoading st) (error st).

Definition setImage2Base64 (v : value) (st : page_state) : page_state :=
  mkPage (input1 st) (input2 st) (image1Base64 st) v (resultName st)
    (resultTranslation st) (resultImage st) (isLoading st) (error st).

Definition setResultName (v : value) (st : page_state) : page_state :=
  mkPage (input1 st) (input2 st) (image1Base64 st) (image2Base64 st) v
    (resultTranslation st) (resultImage st) (isLoading st) (error st).

Definition setResultTranslation (v : value) (st : page_state) : page_state :=
  mkPage (input1 st) (input2 st) (image1Base64 st) (image2Base64 st)
    (resultName st) v (resultImage st) (isLoading st) (error st).

Definition setResultImage (v : value) (st : page_state) : page_state :=
  mkPage (input1 st) (input2 st) (image1Base64 st) (image2Base64 st)
    (resultName st) (resultTranslation st) v (isLoading st) (error st).

Definition setIsLoading (v : bool) (st : page_state) : page_state :=
  mkPage (input1 st) (input2 st) (image1Base64 st) (image2Base64 st)
    (resultName st) (resultTranslation st) (resultImage st) v (error st).

Definition setError (v : value) (st : page_state) : page_state :=
  mkPage (input1 st) (input2 st) (image1Base64 st) (image2Base64 st)
    (resultName st) (resultTranslation st) (resultImage st) (isLoading st) v.

(** ** The handlers of the inputs, lines 247 to 280 *)

(** [handleTextChange(e, setInput, setImageBase64)], [text] being
    [e.target.value]. *)
Definition handleTextChange (text : string)
  (setInput : string -> page_state -> page_state)
  (setImageBase64 : value -> page_state -> page_state)
  (st : page_state) : page_state :=
  let st := setInput text st in
  if truthy (VStr text) then setImageBase64 VNull st else st.

(** [handleImageChange(e, setBase64, setTextInput)], [file] being the size of
    [e.target.files[0]], [None] when no file was chosen.  The result is the
    new state and whether a read of the file has been started. *)
Definition handleImageChange (file : option Z)
  (setBase64 : value -> page_state -> page_state)
  (setTextInput : string -> page_state -> page_state)
  (st : page_state) : page_state * bool :=
  match file with
  | Some size =>
      if 2 * 1024 * 1024 <? size then
        (setError (VStr "Image file is too large. Max 2MB.") st, false)
      else
        (setTextInput "" (setBase64 VNull (setError VNull st)), true)
  | None => (setBase64 VNull st, false)
  end.

(** The read that [handleImageChange] started comes to its end:
    [.then(setBase64)] with what [fileToBase64] resolved with, or the
    [.catch]. *)
Definition read_done (resolved : option string)
  (setBase64 : value -> page_state -> page_state) (st : page_state)
  : page_state :=
  setBase64 (match resolved with Some data => VStr data | None => VUndefined end) st.

Definition read_failed (st : page_state) : page_state :=
  setError (VStr "Failed to process image.") st.

Definition handleClearInputs (st : page_state) : page_state :=
  setError VNull
    (setResultImage VNull
       (setResultTranslation (VStr "The Great Hidden One")
          (setResultName (VStr "Il Grande Nascosto")
             (setImage2Base64 VNull
                (setImage1Base64 VNull
                   (setInput2 "" (setInput1 "" st))))))).

(** The [disabled] attribute of the two inputs of an [InputCard], given its
    word and its image. *)
Definition text_input_disabled (st : page_state) (imageBase64 : value) : bool :=
  isLoading st || truthy imageBase64.

Definition file_input_disabled (st : page_state) (input : string) : bool :=
  isLoading st || truthy (VStr input).

(** The two cards, lines 364 to 382: each is given its own word and image,
    and the two handlers closed over its own setters. *)
Inductive card : Type :=
| Concept1
| Concept2.

Definition card_input (c : card) (st : page_state) : string :=
  match c with Concept1 => input1 st | Concept2 => input2 st end.

Definition card_image (c : card) (st : page_state) : value :=
  match c with Concept1 => image1Base64 st | Concept2 => image2Base64 st end.

Definition card_setInput (c : card) : string -> page_state -> page_state :=
  match c with Concept1 => setInput1 | Concept2 => setInput2 end.

Definition card_setImage (c : card) : value -> page_state -> page_state :=
  match c with Concept1 => setImage1Base64 | Concept2 => setImage2Base64 end.

(** The [setInput] and [handleImageChange] a card is given, and the end of
    the read that the latter started. *)
Definition card_text_change (c : card) (text : string) (st : page_state)
  : page_state :=
  handleTextChange text (card_setInput c) (card_setImage c) st.

Definition card_image_change (c : card) (file : option Z) (st : page_state)
  : page_state * bool :=
  handleImageChange file (card_setImage c) (card_setInput c) st.

Definition card_read_done (c : card) (resolved : option string)
  (st : page_state) : page_state :=
  read_done resolved (card_setImage c) st.

(** [a && b] *)
Definition and_then (a b : value) : value := if truthy a then b else a.

(** [a || b] of two strings, as a template literal prints it. *)
Definition or_string (a b : string) : string := if truthy (VStr a) then a else b.

(** [input1 || image1Base64] and [input2 || image2Base64] *)
Definition concept1 (st : page_state) : value :=
  or_else (VStr (input1 st)) (image1Base64 st).

Definition concept2 (st : page_state) : value :=
  or_else (VStr (input2 st)) (image2Base64 st).

Definition isReadyToGenerate (st : page_state) : value :=
  and_then (concept1 st) (concept2 st).

Definition isReadyForRandom (st : page_state) : value :=
  or_else (concept1 st) (concept2 st).

(** The [disabled] attribute of the three buttons, as React reads it. *)
Definition fuse_disabled (st : page_state) : bool :=
  isLoading st || negb (truthy (isReadyToGenerate st)).

Definition random_disabled (st : page_state) : bool :=
  isLoading st || negb (truthy (isReadyForRandom st))
  || truthy (isReadyToGenerate st).

Definition reroll_disabled (st : page_state) : bool :=
  isLoading st || negb (truthy (resultImage st)).

(** The [useRandom] that Re-Roll passes: [!input2 && !image2Base64]. *)
Definition reroll_useRandom (st : page_state) : bool :=
  negb (truthy (VStr (input2 st))) && negb (truthy (image2Base64 st)).

(** How [generateFusion] starts, lines 152 to 162: it returns at once, or
    shows an error and returns, or goes on to build the payload; with the
    state as those lines leave it. *)
Inductive entry : Type :=
| Ignored
| Refused
| Proceeds.

Definition generateFusion_start (st : page_state) (isReroll : bool)
  : entry * page_state :=
  if isLoading st then (Ignored, st)
  else
    let cleared := setResultImage VNull (setError VNull (setIsLoading true st)) in
    let inputReady := or_else (concept1 st) (concept2 st) in
    if negb (truthy inputReady) && negb isReroll then
      (Refused,
       setIsLoading false
         (setError
            (VStr "Please provide at least one word or image to start the fusion.")
            cleared))
    else (Proceeds, cleared).

Definition systemPrompt : string :=
  "You are a creative fusion bot. Your task is to generate a single, highly creative and dramatic Italian-sounding name for a hybrid creature/object, its direct English translation, and a detailed visual prompt for an AI image generator. The visual prompt should describe a surreal, beautiful, high-quality image of the hybrid creature, suitable for an illustration style. Respond with only a single JSON object.".

Definition text_part (text : string) : value := VObj [("text", VStr text)].

Definition inlineData (data : value) : value :=
  VObj [("mimeType", VStr "image/png"); ("data", data)].

(** [parts] as lines 166 to 185 fill it. *)
Definition request_parts (st : page_state) (useRandom : bool) : list value :=
  if useRandom then
    let primaryInput := or_string (input1 st) "a mystery object" in
    let base64 := or_else (image1Base64 st) (image2Base64 st) in
    if truthy base64 then
      [text_part "The primary subject to fuse is in the image provided below.";
       VObj [("inlineData", inlineData base64)];
       text_part "Identify the main subject in the image. Generate an Italian-sounding merged name, its English translation, and a visual description for an artistic hybrid of the identified subject and a **randomly chosen, dramatically different object**."]
    else
      [text_part ("Generate an Italian-sounding merged name, its English translation, and a visual description for an artistic hybrid of a **" ++ primaryInput ++ "** and a **randomly chosen, dramatically different object**.")]
  else
    ((if truthy (image1Base64 st)
      then [VObj [("text", VStr "Subject 1:");
                  ("inlineData", inlineData (image1Base64 st))]]
      else [])
     ++ (if truthy (image2Base64 st)
         then [VObj [("text", VStr "Subject 2:");
                     ("inlineData", inlineData (image2Base64 st))]]
         else [])
     ++ [text_part
           ("Generate an Italian-sounding merged name, its English translation, and a visual description for an artistic hybrid of **" ++ or_string (input1 st) "the first subject/image"
            ++ "** and **" ++ or_string (input2 st) "the second subject/image"
            ++ "**.")])%list.

Definition geminiPayload (st : page_state) (useRandom : bool) : value :=
  VObj
    [("contents", VArr [VObj [("parts", VArr (request_parts st useRandom))]]);
     ("systemInstruction", VObj [("parts", VArr [text_part systemPrompt])]);
     ("generationConfig",
      VObj
        [("responseMimeType", VStr "application/json");
         ("responseSchema",
          VObj
            [("type", VStr "OBJECT");
             ("properties",
              VObj [("italianName", VObj [("type", VStr "STRING")]);
                    ("englishTranslation", VObj [("type", VStr "STRING")]);
                    ("imagePrompt", VObj [("type", VStr "STRING")])]);
             ("propertyOrdering",
              VArr [VStr "italianName"; VStr "englishTranslation";
                    VStr "imagePrompt"])])])].

(** The request the page sends to [/api/generate], as the handler receives
    it: the body [{ geminiPayload }], serialised and parsed back. *)
Definition page_request (st : page_state) (useRandom : bool) : request :=
  mkRequest "POST" (VObj [("geminiPayload", geminiPayload st useRandom)]).

(** Lines 205 to 222: what is read off the answer of the backend, the three
    values given to [setResultName], [setResultTranslation] and
    [setResultImage], or what is thrown. *)
Definition read_response (answer : completion response)
  : completion (value * value * value) :=
  match answer with
  | Throw e => Throw e
  | Normal resp =>
      match json resp with
      | Throw e => Throw e
      | Normal parsed =>
          if negb (ok resp) then
            match get parsed "error" with
            | Throw e => Throw e
            | Normal err_error =>
                match
                  ToString
                    (or_else err_error
                       (VStr "The backend function failed with an unknown error."))
                with
                | Throw e => Throw e
                | Normal msg => Throw (Error msg)
                end
            end
          else
            match get parsed "name" with
            | Throw e => Throw e
            | Normal name =>
                Normal (name, member "translation" parsed, member "imageUrl" parsed)
            end
      end
  end.

(** Line 240: the text given to [setError] for a thrown [e]. *)
Definition error_text (e : js_error) : string :=
  "A server error occurred: " ++ err_message e
  ++ ". Please check your Vercel logs.".

End Page.

(** ** Checks that run over every character

    What the colour functions need of two hexadecimal digits, and of the two
    digits of a channel, decided by running through the 256 characters. *)

Definition option_Z_is (o : option Z) (v : Z) : bool :=
  match o with
  | Some w => w =? v
  | None => false
  end.

Definition pair_check (a b : ascii) : bool :=
  match hex_pair_value a b with
  | None => true
  | Some v =>
      negb (is_line_terminator a) && negb (is_line_terminator b)
      && (0 <=? v) && (v <=? 255)
      && option_Z_is (parseInt (String a (String b "")) (Some 16)) v
      && option_Z_is (parseInt ("0x" ++ String a "" ++ String b "") None) v
  end.

Definition hex2_check (n : nat) : bool :=
  match hex2 (Z.of_nat n) with
  | String a (String b EmptyString) => option_Z_is (hex_pair_value a b) (Z.of_nat n)
  | _ => false
  end.

Definition every_char (P : ascii -> bool) : bool :=
  forallb (fun n => P (ascii_of_nat n)) (seq 0 256).

(** ** The history, lines 136 to 142
<<
const newHistory = snapshot.docs.map(doc => ({ id: doc.id, ...doc.data() }))
  .sort((a, b) => (b.timestamp?.toMillis() || 0) - (a.timestamp?.toMillis() || 0));
>>
    The sort of arrays is stable, and the comparator orders the items by one
    key, so the result does not depend on how the engine sorts; insertion
    from the right is the sort taken here. *)

Section ArraySort.
Context {A : Type}.
Variable compare : A -> A -> Z.

Fixpoint insert_sorted (x : A) (l : list A) : list A :=
  match l with
  | [] => [x]
  | y :: ys => if compare x y <=? 0 then x :: l else y :: insert_sorted x ys
  end.

(** [l.sort(compare)] *)
Definition array_sort (l : list A) : list A := fold_right insert_sorted [] l.

End ArraySort.

Section History.
Context {A : Type}.
(** [item.timestamp?.toMillis()], [None] for [undefined]: the item has no
    timestamp, or a [null] one as long as the server has not set it. *)
Variable millis : A -> option Z.

(** [item.timestamp?.toMillis() || 0] *)
Definition sort_key (item : A) : Z :=
  match millis item with
  | Some m => if m =? 0 then 0 else m
  | None => 0
  end.

Definition newest_first (a b : A) : Z := sort_key b - sort_key a.

Definition newHistory (items : list A) : list A := array_sort newest_first items.

End History.

(** ** A body on its way to the page

    [res.json(body)] writes the body with [JSON.stringify] and the page reads
    it with [response.json()].  On a value built by [JSON.parse] or by an
    object literal of the relay, that keeps strings, booleans and [null];
    prints a finite Number and reads it back, and turns any other Number
    into [null]; leaves out the members of an object that are [undefined] and
    turns an [undefined] element of an array into [null]; and lists the
    members of an object once each, the array indices first, in ascending
    order, then the other keys in the order in which they first appeared,
    each with its latest value. *)

(** The array index a property key is, if it is one: a decimal numeral
    without a leading zero, below 2^32 - 1. *)
Definition array_index (k : string) : option N :=
  let digits := list_ascii_of_string k in
  match digits with
  | [] => None
  | d :: more =>
      if negb (forallb is_digit digits) then None
      else if Ascii.eqb d "0" && negb (match more with [] => true | _ => false end)
      then None
      else
        let v := fold_left (fun acc c => 10 * acc + (code c - 48))%N digits 0%N in
        if (v <? 4294967295)%N then Some v else None
  end.

Definition is_array_index (k : string) : bool :=
  match array_index k with Some _ => true | None => false end.

Definition index_order (a b : string) : Z :=
  match array_index a, array_index b with
  | Some m, Some n => Z.of_N m - Z.of_N n
  | _, _ => 0
  end.

(** The keys without the repetitions, each where it first appeared. *)
Fixpoint first_keys (seen keys : list string) : list string :=
  match keys with
  | [] => []
  | k :: rest =>
      if existsb (String.eqb k) seen then first_keys seen rest
      else k :: first_keys (k :: seen) rest
  end.

(** The own property keys of an object in the order of enumeration. *)
Definition own_keys (keys : list string) : list string :=
  let distinct := first_keys [] keys in
  (array_sort index_order (filter is_array_index distinct)
   ++ filter (fun k => negb (is_array_index k)) distinct)%list.

(** The latest member of key [k]. *)
Fixpoint latest {A : Type} (k : string) (members : list (string * A)) : option A :=
  match members with
  | [] => None
  | (k', a) :: rest =>
      match latest k rest with
      | Some later => Some later
      | None => if String.eqb k k' then Some a else None
      end
  end.

Section Wire.
Context {E : Engine}.

(** [JSON.parse(JSON.stringify(v))], for [v] a member of a body or an element
    of an array in it.  A member is first given what is read back for it,
    [None] for a member that is left out. *)
Fixpoint wire (v : value) : value :=
  match v with
  | VUndefined => VNull
  | VNull => VNull
  | VBool b => VBool b
  | VNum n =>
      if number_is_finite n then VNum (number_of_literal (number_to_string n))
      else VNull
  | VStr s => VStr s
  | VArr elems => VArr (map wire elems)
  | VObj members =>
      let read_back :=
        map (fun kv : string * value =>
               let (k, x) := kv in
               (k, match x with VUndefined => None | _ => Some (wire x) end))
          members in
      VObj
        (flat_map
           (fun k =>
              match latest k read_back with
              | Some (Some w) => [(k, w)]
              | _ => []
              end)
           (own_keys (map fst members)))
  end.

(** What the page's [fetch] resolves with once the handler has sent [code]
    and [body]: the status, and the body written by [res.json] and read back
    by [response.json()]. *)
Definition delivered (code : Z) (body : value) : response :=
  mkResponse code (Normal (wire body)).

End Wire.

(** ** Vocabulary of the properties *)

Section Vocabulary.
Context {E : Engine}.

(** What [withRetry] leaves in the trace when operation [c] fails [k] times
    and is then invoked once more, the attempts being numbered from [i]:
    each failed attempt is followed by its pause. *)
Fixpoint retry_trace (c : call) (delay : Z) (i : Z) (k : nat) : trace :=
  match k with
  | O => [EInvoke c]
  | S k' => EInvoke c :: ESleep (delay * 2 ^ i) :: retry_trace c delay (i + 1) k'
  end.

(** The fetch of [req], first issued as invocation number [first], is
    rejected [k] times, [k] below the default cap, and then resolved with
    [resp]. *)
Definition answers_after (upstream : upstream_model) (first : nat)
  (req : fetch_request) (k : nat) (resp : response) : Prop :=
  (k < 3)%nat /\
  (forall i, (i < k)%nat -> exists e, upstream (first + i)%nat req = Throw e) /\
  upstream (first + k)%nat req = Normal resp.

(** The two outbound requests of the relay. *)
Definition gemini_request (API_KEY : string) (req : request) : fetch_request :=
  post_json (GEMINI_API_URL API_KEY) (member "geminiPayload" (body req)).

(** The request of stage 2 for a prompt whose text is [text]. *)
Definition imagen_request (API_KEY : string) (text : string) : fetch_request :=
  post_json (IMAGEN_API_URL API_KEY) (imagen_payload text).

(** The fetch of [req], first issued as invocation number [first], is
    rejected at each of the three attempts of the default cap, the last time
    with [last]. *)
Definition rejected_thrice (upstream : upstream_model) (first : nat)
  (req : fetch_request) (last : js_error) : Prop :=
  (forall i, (i < 3)%nat -> exists e, upstream (first + i)%nat req = Throw e) /\
  upstream (first + 2)%nat req = Throw last.

(** A failure of a stage at the level of HTTP: no attempt is answered, or
    the answer has a status outside 200 to 299. *)
Definition stage_fails (upstream : upstream_model) (first : nat)
  (req : fetch_request) : Prop :=
  (exists last, rejected_thrice upstream first req last)
  \/ (exists k resp, answers_after upstream first req k resp /\ ok resp = false).

(** The inbound request reaches the outer [try]: it is a POST, the key is
    configured, and the body can be destructured. *)
Definition reaches_relay (API_KEY : string) (req : request) : Prop :=
  method req = "POST" /\ API_KEY <> "" /\ is_nullish (body req) = false.

(** The body of a successful response. *)
Definition fusion_result (name translation : value) (imageUrl : string) : value :=
  VObj [("name", name); ("translation", translation); ("imageUrl", VStr imageUrl)].

(** The three variables after lines 48 to 60, and what those lines log. *)
Definition idea_of (geminiResult : value) : idea :=
  snd (parse_idea geminiResult fallback_idea).

Definition stage1_log (geminiResult : value) : trace :=
  match fst (parse_idea geminiResult fallback_idea) with
  | Normal _ => []
  | Throw _ => [EWarn "Failed to parse Gemini JSON, using fallback."]
  end.

(** The first candidate's first text part is absent or is not valid JSON:
    there is no body to read a candidate from, or the chain of line 53 ends
    in [undefined] or [null], or [JSON.parse] throws on the text. *)
Definition text_unusable (geminiResult : value) : Prop :=
  match candidate_text geminiResult with
  | Throw _ => True
  | Normal jsonText =>
      is_nullish jsonText = true \/ exists e, JSON_parse jsonText = Throw e
  end.

(** Stage 1 is answered with a success status and a body [geminiResult]
    that is JSON, after [k1] rejected attempts. *)
Definition stage1_succeeds (upstream : upstream_model) (API_KEY : string)
  (req : request) (k1 : nat) (geminiResult : value) : Prop :=
  exists r1,
    answers_after upstream 0 (gemini_request API_KEY req) k1 r1
    /\ ok r1 = true /\ json r1 = Normal geminiResult.

(** Both stages succeed and make the result [name], [translation],
    [imageUrl]: stage 1 is answered with a success status and a JSON body;
    the prompt it leaves has a text; stage 2, asked with that text, is
    answered with a success status and a JSON body whose first prediction
    carries truthy data that has a text; the name and the translation are
    those stage 1 leaves and the URL is made of the text of the data. *)
Definition both_stages_succeed (upstream : upstream_model) (API_KEY : string)
  (req : request) (name translation : value) (imageUrl : string) : Prop :=
  exists k1 geminiResult text k2 r2 imagenResult base64Data data,
    stage1_succeeds upstream API_KEY req k1 geminiResult
    /\ ToString (finalImagePrompt (idea_of geminiResult)) = Normal text
    /\ answers_after upstream (S k1) (imagen_request API_KEY text) k2 r2
    /\ ok r2 = true /\ json r2 = Normal imagenResult
    /\ prediction_bytes imagenResult = Normal base64Data
    /\ truthy base64Data = true
    /\ ToString base64Data = Normal data
    /\ name = generatedName (idea_of geminiResult)
    /\ translation = generatedTranslation (idea_of geminiResult)
    /\ imageUrl = "data:image/png;base64," ++ data.

(** The text of the worked example of the specification. *)
Definition gattociclo_text : string :=
  json_text "{`italianName`:`Gattociclo`,`englishTranslation`:`Cat-cycle`,`imagePrompt`:`a bicycle with a cat's head`}".

(** The time spent in pauses, in milliseconds. *)
Definition total (pauses : list Z) : Z := fold_right Z.add 0 pauses.

(** What the [catch] of the outer [try] does with [e]. *)
Definition caught (e : js_error) : trace :=
  [EError e; ESend 500 (error_body (message_or_default e))].

End Vocabulary.

(** ** Concrete worlds for the examples *)

Module Examples.

#[local] Existing Instance literal_engine.

(** Upstream services that answer the successive invocations from a list and
    reject every invocation past its end. *)
Definition scripted (answers : list (completion response)) : upstream_model :=
  fun n _ => nth n answers (Throw (TypeError "fetch failed")).

(** Upstream services that answer every invocation alike. *)
Definition always (answer : completion response) : upstream_model :=
  fun _ _ => answer.

Definition post (payload : value) : request := mkRequest "POST" payload.

Definition a_payload : value :=
  VObj [("geminiPayload", VObj [("contents", VArr [])])].

(** A text-generation response whose first candidate's first part has the
    text [text]. *)
Definition gemini_says (text : value) : response :=
  mkResponse 200
    (Normal
       (VObj [("candidates",
               VArr [VObj [("content", VObj [("parts", VArr [VObj [("text", text)]])])]])])).

(** An image-generation response with one prediction. *)
Definition imagen_says (prediction : value) : response :=
  mkResponse 200 (Normal (VObj [("predictions", VArr [prediction])])).

Definition four_As : value := VObj [("bytesBase64Encoded", VStr "AAAA")].

(** An upstream error response. *)
Definition upstream_error (code : Z) (msg : string) : response :=
  mkResponse code (Normal (VObj [("error", VObj [("message", VStr msg)])])).

(** An operation that fails at each of its first [k] invocations and returns
    [r] from then on. *)
Definition flaky (k : nat) (r : nat) : nat -> completion nat :=
  fun n => if (n <? k)%nat then Throw (Error "transient") else Normal r.

(** An operation that fails at every invocation, with the number of the
    invocation in the message. *)
Definition nth_failure (n : nat) : js_error :=
  Error (String (ascii_of_nat (48 + n)) EmptyString).

Definition hopeless : nat -> completion nat :=
  fun n => Throw (nth_failure n).

(** Upstream services that are down: every fetch is rejected. *)
Definition down : upstream_model := fun n _ => Throw (nth_failure n).

(** A text-generation response without candidates. *)
Definition gemini_says_nothing : response := mkResponse 200 (Normal (VObj [])).

(** The page as [useState] initialises it. *)
Definition initial_page : page_state :=
  mkPage "" "" VNull VNull (VStr "Il Grande Nascosto")
    (VStr "The Great Hidden One") VNull false VNull.

(** A text-generation response whose body is not JSON. *)
Definition html_answer : response :=
  mkResponse 200 (Throw (SyntaxError "Unexpected token < in JSON at position 0")).

End Examples.

(** * Properties *)

Local Open Scope list_scope.

Section Properties.
Context {E : Engine}.

(** Splits a conjunction into its parts, without unfolding them. *)
Ltac conjuncts :=
  repeat match goal with |- _ /\ _ => split end;
  try assumption; try reflexivity.

(** ** Reading a trace *)

Lemma invocations_app (t u : trace) :
  invocations (t ++ u) = (invocations t + invocations u)%nat.
Proof.
  induction t as [|ev t IH]; [reflexivity|].
  destruct ev; simpl; rewrite IH; reflexivity.
Qed.

Lemma sleeps_app (t u : trace) : sleeps (t ++ u) = (sleeps t ++ sleeps u)%list.
Proof.
  induction t as [|ev t IH]; [reflexivity|].
  destruct ev; simpl; rewrite IH; reflexivity.
Qed.

Lemma sent_app (t u : trace) : sent (t ++ u) = (sent t ++ sent u)%list.
Proof.
  induction t as [|ev t IH]; [reflexivity|].
  destruct ev; simpl; rewrite IH; reflexivity.
Qed.

Lemma fetches_app (t u : trace) : fetches (t ++ u) = (fetches t ++ fetches u)%list.
Proof.
  induction t as [|ev t IH]; [reflexivity|].
  destruct ev as [[req|name]| | | |]; simpl; rewrite IH; reflexivity.
Qed.

Lemma invocations_retry_trace (c : call) (delay i : Z) (k : nat) :
  invocations (retry_trace c delay i k) = S k.
Proof.
  revert i; induction k as [|k IH]; intro i; simpl; [reflexivity|].
  rewrite IH; reflexivity.
Qed.

Lemma sleeps_retry_trace (c : call) (delay i : Z) (k : nat) :
  sleeps (retry_trace c delay i k)
  = map (fun j => delay * 2 ^ (i + Z.of_nat j)) (seq 0 k).
Proof.
  revert i; induction k as [|k IH]; intro i; [reflexivity|].
  cbn [retry_trace sleeps seq map]. f_equal.
  - rewrite Z.add_0_r; reflexivity.
  - rewrite IH, <- seq_shift, map_map.
    apply map_ext; intro j. do 2 f_equal. lia.
Qed.

Lemma sent_retry_trace (c : call) (delay i : Z) (k : nat) :
  sent (retry_trace c delay i k) = [].
Proof.
  revert i; induction k as [|k IH]; intro i; simpl; [reflexivity|apply IH].
Qed.

Lemma fetches_retry_trace (req : fetch_request) (delay i : Z) (k : nat) :
  fetches (retry_trace (Fetch req) delay i k) = repeat req (S k).
Proof.
  revert i; induction k as [|k IH]; intro i; simpl; [reflexivity|].
  rewrite IH; reflexivity.
Qed.

(** ** Sequencing *)

Lemma bind_normal {A B : Type} (m : M A) (k : A -> M B) (t t' : trace) (a : A) :
  m t = (Normal a, t') -> bind m k t = k a t'.
Proof. intro H; unfold bind; rewrite H; reflexivity. Qed.

Lemma bind_throw {A B : Type} (m : M A) (k : A -> M B) (t t' : trace)
  (e : js_error) :
  m t = (Throw e, t') -> bind m k t = (Throw e, t').
Proof. intro H; unfold bind; rewrite H; reflexivity. Qed.

(** ** One turn of the loop of [withRetry] *)

Section Loop.
Context {A : Type}.
Variable fn : M A.
Variables maxRetries delay : Z.

Lemma for_loop_returns (fuel : nat) (i : Z) (t t' : trace) (a : A) :
  i < maxRetries ->
  fn t = (Normal a, t') ->
  for_loop fn maxRetries delay (S fuel) i t = (Normal (Some a), t').
Proof.
  intros Hi Hfn. cbn [for_loop].
  apply Z.ltb_lt in Hi; rewrite Hi.
  unfold try_catch, bind; rewrite Hfn; reflexivity.
Qed.

Lemma for_loop_retries (fuel : nat) (i : Z) (t t' : trace) (e : js_error) :
  i < maxRetries - 1 ->
  fn t = (Throw e, t') ->
  for_loop fn maxRetries delay (S fuel) i t
  = for_loop fn maxRetries delay fuel (i + 1) (t' ++ [ESleep (delay * 2 ^ i)]).
Proof.
  intros Hi Hfn. cbn [for_loop].
  assert (Hlt : (i <? maxRetries) = true) by (apply Z.ltb_lt; lia).
  assert (Hne : (i =? maxRetries - 1) = false) by (apply Z.eqb_neq; lia).
  rewrite Hlt. unfold try_catch at 1. unfold bind at 1. rewrite Hfn, Hne.
  reflexivity.
Qed.

Lemma for_loop_gives_up (fuel : nat) (i : Z) (t t' : trace) (e : js_error) :
  i = maxRetries - 1 ->
  fn t = (Throw e, t') ->
  for_loop fn maxRetries delay (S fuel) i t = (Throw e, t').
Proof.
  intros Hi Hfn. cbn [for_loop].
  assert (Hlt : (i <? maxRetries) = true) by (apply Z.ltb_lt; lia).
  assert (Heq : (i =? maxRetries - 1) = true) by (apply Z.eqb_eq; lia).
  rewrite Hlt. unfold try_catch at 1. unfold bind at 1. rewrite Hfn, Heq.
  reflexivity.
Qed.

Lemma for_loop_skipped (fuel : nat) (i : Z) (t : trace) :
  maxRetries <= i ->
  for_loop fn maxRetries delay fuel i t = (Normal None, t).
Proof.
  intro Hi.
  assert (Hlt : (i <? maxRetries) = false) by (apply Z.ltb_ge; lia).
  destruct fuel; cbn [for_loop]; rewrite Hlt; reflexivity.
Qed.

(** The fuel is never what ends the loop: from turn [i] on there are
    [maxRetries - i] turns at most, and any fuel above that changes nothing. *)
Lemma for_loop_enough_fuel (fuel : nat) :
  forall (i : Z) (t : trace),
    (Z.to_nat (maxRetries - i) <= fuel)%nat ->
    for_loop fn maxRetries delay fuel i t
    = for_loop fn maxRetries delay (Z.to_nat (maxRetries - i)) i t.
Proof.
  induction fuel as [|fuel IH]; intros i t Hfuel.
  - replace (Z.to_nat (maxRetries - i)) with O by lia. reflexivity.
  - destruct (Z.ltb_spec i maxRetries) as [Hlt|Hge].
    + replace (Z.to_nat (maxRetries - i))
        with (S (Z.to_nat (maxRetries - (i + 1)))) by lia.
      cbn [for_loop]. destruct (i <? maxRetries); [|reflexivity].
      unfold try_catch. unfold bind at 1 3.
      destruct (fn t) as [[a|e] t']; [reflexivity|].
      destruct (i =? maxRetries - 1); [reflexivity|].
      unfold bind. destruct (setTimeout (delay * 2 ^ i) t') as [[[]|e'] t''];
        [|reflexivity].
      apply IH. lia.
    + rewrite !for_loop_skipped by lia. reflexivity.
Qed.

(** So the fuel [withRetry] starts with is as good as any larger one. *)
Lemma withRetry_fuel (fuel : nat) (t : trace) :
  (Z.to_nat maxRetries <= fuel)%nat ->
  for_loop fn maxRetries delay fuel 0 t = withRetry fn maxRetries delay t.
Proof.
  intro Hfuel. unfold withRetry.
  rewrite for_loop_enough_fuel by (rewrite Z.sub_0_r; exact Hfuel).
  rewrite Z.sub_0_r. reflexivity.
Qed.

End Loop.

(** ** The loop on an operation observed from outside *)

Section Observed.
Context {A : Type}.
Variable c : call.
Variable behaviour : nat -> completion A.
Variables maxRetries delay : Z.

Lemma for_loop_flaky (k : nat) :
  forall (fuel : nat) (i : Z) (t : trace) (r : A),
    (k < fuel)%nat ->
    i + Z.of_nat k < maxRetries ->
    (forall j, (j < k)%nat -> exists e, behaviour (invocations t + j)%nat = Throw e) ->
    behaviour (invocations t + k)%nat = Normal r ->
    for_loop (invoke c behaviour) maxRetries delay fuel i t
    = (Normal (Some r), (t ++ retry_trace c delay i k)%list).
Proof.
  induction k as [|k IH]; intros fuel i t r Hfuel Hi Hfail Hok;
    (destruct fuel as [|fuel]; [lia|]).
  - apply for_loop_returns; [lia|].
    unfold invoke. rewrite Nat.add_0_r in Hok. rewrite Hok. reflexivity.
  - destruct (Hfail O) as [e He]; [lia|]. rewrite Nat.add_0_r in He.
    rewrite (for_loop_retries _ _ _ _ _ _ (t ++ [EInvoke c]) e);
      [|lia|unfold invoke; rewrite He; reflexivity].
    rewrite (IH fuel (i + 1) _ r).
    + rewrite <- !app_assoc. reflexivity.
    + lia.
    + lia.
    + intros j Hj. rewrite !invocations_app. cbn [invocations].
      replace (invocations t + 1 + 0 + j)%nat with (invocations t + S j)%nat by lia.
      apply Hfail; lia.
    + rewrite !invocations_app. cbn [invocations].
      replace (invocations t + 1 + 0 + k)%nat with (invocations t + S k)%nat by lia.
      exact Hok.
Qed.

Lemma for_loop_hopeless (errors : nat -> js_error) (n : nat) :
  forall (fuel : nat) (i : Z) (t : trace),
    (n < fuel)%nat ->
    i + Z.of_nat n = maxRetries - 1 ->
    (forall j, (j <= n)%nat -> behaviour (invocations t + j)%nat = Throw (errors j)) ->
    for_loop (invoke c behaviour) maxRetries delay fuel i t
    = (Throw (errors n), (t ++ retry_trace c delay i n)%list).
Proof.
  induction n as [|n IH] in errors |- *; intros fuel i t Hfuel Hi Hfail;
    (destruct fuel as [|fuel]; [lia|]);
    pose proof (Hfail O ltac:(lia)) as He; rewrite Nat.add_0_r in He.
  - apply for_loop_gives_up; [lia|].
    unfold invoke. rewrite He. reflexivity.
  - rewrite (for_loop_retries _ _ _ _ _ _ (t ++ [EInvoke c]) (errors O));
      [|lia|unfold invoke; rewrite He; reflexivity].
    rewrite (IH (fun j => errors (S j)) fuel (i + 1)).
    + rewrite <- !app_assoc. reflexivity.
    + lia.
    + lia.
    + intros j Hj. rewrite !invocations_app. cbn [invocations].
      replace (invocations t + 1 + 0 + j)%nat with (invocations t + S j)%nat by lia.
      apply Hfail; lia.
Qed.

End Observed.

(** ** The stages of the relay *)

Lemma for_loop_sent {A : Type} (fn : M A) (maxRetries delay : Z) :
  (forall t, sent (snd (fn t)) = sent t) ->
  forall fuel i t, sent (snd (for_loop fn maxRetries delay fuel i t)) = sent t.
Proof.
  intro Hfn. induction fuel as [|fuel IH]; intros i t; cbn [for_loop];
    destruct (i <? maxRetries); try reflexivity.
  unfold try_catch at 1. unfold bind at 1.
  pose proof (Hfn t) as Ht. destruct (fn t) as [[a|e] t']; cbn [snd] in Ht.
  - exact Ht.
  - destruct (i =? maxRetries - 1); [exact Ht|].
    unfold bind, setTimeout, emit. rewrite IH, sent_app, Ht. cbn [sent].
    apply app_nil_r.
Qed.

Lemma fetch_stage_sent (upstream : upstream_model) (req : fetch_request) (t : trace) :
  sent (snd (withRetry_default (fetch upstream req) t)) = sent t.
Proof.
  unfold withRetry_default, withRetry. apply for_loop_sent.
  intro t0. unfold fetch, invoke. cbn [snd]. rewrite sent_app. apply app_nil_r.
Qed.

Lemma fetch_resolves (upstream : upstream_model) (req : fetch_request)
  (k : nat) (resp : response) (t : trace) :
  answers_after upstream (invocations t) req k resp ->
  withRetry_default (fetch upstream req) t
  = (Normal (Some resp), t ++ retry_trace (Fetch req) 1000 0 k).
Proof.
  intros (Hk & Hfail & Hok).
  unfold withRetry_default, withRetry, fetch.
  apply (for_loop_flaky (Fetch req) (fun n => upstream n req));
    [simpl; lia|lia|exact Hfail|exact Hok].
Qed.

Lemma fetch_rejected (upstream : upstream_model) (req : fetch_request)
  (errors : nat -> js_error) (t : trace) :
  (forall j, (j < 3)%nat -> upstream (invocations t + j)%nat req = Throw (errors j)) ->
  withRetry_default (fetch upstream req) t
  = (Throw (errors 2%nat), t ++ retry_trace (Fetch req) 1000 0 2).
Proof.
  intro Hfail.
  unfold withRetry_default, withRetry, fetch.
  apply (for_loop_hopeless (Fetch req) (fun n => upstream n req));
    [simpl; lia|lia|].
  intros j Hj. apply Hfail. lia.
Qed.

Lemma checked_json_ok (prefix : string) (resp : response) (t : trace) :
  ok resp = true ->
  checked_json prefix (Some resp) t = (json resp, t).
Proof.
  intro Hok. unfold checked_json. rewrite Hok. reflexivity.
Qed.

Lemma checked_json_not_ok (prefix : string) (resp : response)
  (err err_error msg : value) (text : string) (t : trace) :
  ok resp = false ->
  json resp = Normal err ->
  get err "error" = Normal err_error ->
  get err_error "message" = Normal msg ->
  ToString msg = Normal text ->
  checked_json prefix (Some resp) t
  = (Throw (Error (prefix ++ text)%string), t).
Proof.
  intros Hok Hjson Herr Hmsg Htext. unfold checked_json. rewrite Hok. cbn [negb].
  unfold bind, lift. rewrite Hjson, Herr, Hmsg, Htext. reflexivity.
Qed.

(** An error status always ends in a throw, whatever the body is. *)
Lemma checked_json_error_status (prefix : string) (resp : response) :
  ok resp = false ->
  exists e, forall t, checked_json prefix (Some resp) t = (Throw e, t).
Proof.
  intro Hok. unfold checked_json. rewrite Hok. cbn [negb].
  unfold bind, lift, throw.
  destruct (json resp) as [err|e]; [|exists e; reflexivity].
  destruct (get err "error") as [err_error|e]; [|exists e; reflexivity].
  destruct (get err_error "message") as [msg|e]; [|exists e; reflexivity].
  destruct (ToString msg) as [text|e]; eexists; reflexivity.
Qed.

Lemma checked_json_throws (prefix : string) (resp : response) (e : js_error)
  (t : trace) :
  json resp = Throw e ->
  checked_json prefix (Some resp) t = (Throw e, t).
Proof.
  intro Hjson. unfold checked_json.
  destruct (negb (ok resp)); unfold bind, lift; rewrite Hjson; reflexivity.
Qed.

Lemma checked_json_pure (prefix : string) (returned : option response) (t : trace) :
  snd (checked_json prefix returned t) = t.
Proof.
  unfold checked_json. destruct returned as [resp|]; [|reflexivity].
  destruct (negb (ok resp)).
  - unfold bind, lift, throw.
    destruct (json resp) as [err|e]; [|reflexivity].
    destruct (get err "error") as [err_error|e]; [|reflexivity].
    destruct (get err_error "message") as [msg|e]; [|reflexivity].
    destruct (ToString msg); reflexivity.
  - reflexivity.
Qed.

(** The first attempt that is answered is the only one. *)
Lemma answers_after_unique (upstream : upstream_model) (first : nat)
  (req : fetch_request) (k k' : nat) (resp resp' : response) :
  answers_after upstream first req k resp ->
  answers_after upstream first req k' resp' ->
  k = k' /\ resp = resp'.
Proof.
  intros (Hk & Hfail & Hok) (Hk' & Hfail' & Hok').
  destruct (Nat.lt_trichotomy k k') as [Hlt|[Heq|Hgt]].
  - destruct (Hfail' k Hlt) as [e He]. congruence.
  - subst k'. split; congruence.
  - destruct (Hfail k' Hgt) as [e He]. congruence.
Qed.

Lemma rejected_thrice_errors (upstream : upstream_model) (first : nat)
  (req : fetch_request) (last : js_error) :
  rejected_thrice upstream first req last ->
  exists errors,
    errors 2%nat = last
    /\ forall j, (j < 3)%nat -> upstream (first + j)%nat req = Throw (errors j).
Proof.
  intros (Hall & Hlast).
  destruct (Hall 0%nat) as [e0 E0]; [lia|].
  destruct (Hall 1%nat) as [e1 E1]; [lia|].
  exists (fun j => match j with O => e0 | S O => e1 | _ => last end).
  split; [reflexivity|].
  intros j Hj. destruct j as [|[|[|j]]]; [exact E0|exact E1|exact Hlast|lia].
Qed.

Lemma rejected_not_answered (upstream : upstream_model) (first : nat)
  (req : fetch_request) (last : js_error) (k : nat) (resp : response) :
  rejected_thrice upstream first req last ->
  answers_after upstream first req k resp -> False.
Proof.
  intros (Hall & _) (Hk & _ & Hok).
  destruct (Hall k Hk) as [e He]. congruence.
Qed.

(** A retried fetch is answered at one of its three attempts, or rejected at
    all of them. *)
Lemma fetch_stage_cases (upstream : upstream_model) (first : nat)
  (req : fetch_request) :
  (exists k resp, answers_after upstream first req k resp)
  \/ (exists last, rejected_thrice upstream first req last).
Proof.
  destruct (upstream (first + 0)%nat req) as [r0|e0] eqn:E0.
  { left. exists 0%nat, r0.
    split; [lia|split; [intros i Hi; lia|exact E0]]. }
  destruct (upstream (first + 1)%nat req) as [r1|e1] eqn:E1.
  { left. exists 1%nat, r1. split; [lia|split; [|exact E1]].
    intros i Hi. assert (i = 0%nat) as -> by lia. exists e0. exact E0. }
  destruct (upstream (first + 2)%nat req) as [r2|e2] eqn:E2.
  { left. exists 2%nat, r2. split; [lia|split; [|exact E2]].
    intros i Hi. destruct i as [|[|i]]; [exists e0; exact E0|exists e1; exact E1|lia]. }
  right. exists e2. split; [|exact E2].
  intros i Hi.
  destruct i as [|[|[|i]]];
    [exists e0; exact E0|exists e1; exact E1|exists e2; exact E2|lia].
Qed.

Lemma fetch_rejected_thrice (upstream : upstream_model) (req : fetch_request)
  (last : js_error) (t : trace) :
  rejected_thrice upstream (invocations t) req last ->
  withRetry_default (fetch upstream req) t
  = (Throw last, t ++ retry_trace (Fetch req) 1000 0 2).
Proof.
  intro Hrej. destruct (rejected_thrice_errors _ _ _ _ Hrej) as (errors & <- & Hall).
  apply fetch_rejected. exact Hall.
Qed.

Lemma stage1_idea_spec (geminiResult : value) (t : trace) :
  stage1_idea geminiResult t
  = (Normal (idea_of geminiResult), t ++ stage1_log geminiResult).
Proof.
  unfold stage1_idea, idea_of, stage1_log.
  destruct (parse_idea geminiResult fallback_idea) as [[[]|e] vars]; cbn.
  - rewrite app_nil_r; reflexivity.
  - reflexivity.
Qed.

Lemma invocations_stage1_log (geminiResult : value) :
  invocations (stage1_log geminiResult) = O.
Proof.
  unfold stage1_log.
  destruct (fst (parse_idea geminiResult fallback_idea)); reflexivity.
Qed.

Lemma sent_stage1_log (geminiResult : value) : sent (stage1_log geminiResult) = [].
Proof.
  unfold stage1_log.
  destruct (fst (parse_idea geminiResult fallback_idea)); reflexivity.
Qed.

Lemma fetches_stage1_log (geminiResult : value) : fetches (stage1_log geminiResult) = [].
Proof.
  unfold stage1_log.
  destruct (fst (parse_idea geminiResult fallback_idea)); reflexivity.
Qed.

Lemma sleeps_stage1_log (geminiResult : value) : sleeps (stage1_log geminiResult) = [].
Proof.
  unfold stage1_log.
  destruct (fst (parse_idea geminiResult fallback_idea)); reflexivity.
Qed.

Lemma invocations_after_stage1 (c : call) (k1 : nat) (geminiResult : value) :
  invocations (retry_trace c 1000 0 k1 ++ stage1_log geminiResult) = S k1.
Proof.
  rewrite invocations_app, invocations_retry_trace, invocations_stage1_log. lia.
Qed.

Lemma generate_idea_ok (upstream : upstream_model) (API_KEY : string)
  (payload : value) (k : nat) (resp : response) (geminiResult : value) (t : trace) :
  answers_after upstream (invocations t)
    (post_json (GEMINI_API_URL API_KEY) payload) k resp ->
  ok resp = true ->
  json resp = Normal geminiResult ->
  generate_idea upstream API_KEY payload t
  = (Normal (idea_of geminiResult),
     t ++ retry_trace (Fetch (post_json (GEMINI_API_URL API_KEY) payload)) 1000 0 k
       ++ stage1_log geminiResult).
Proof.
  intros Hans Hok Hjson. unfold generate_idea.
  rewrite (bind_normal _ _ _ _ _ (fetch_resolves _ _ _ _ _ Hans)).
  rewrite (bind_normal _ _ _ (t ++ retry_trace (Fetch (post_json (GEMINI_API_URL API_KEY) payload)) 1000 0 k) geminiResult).
  - rewrite stage1_idea_spec, <- app_assoc. reflexivity.
  - rewrite checked_json_ok by exact Hok. rewrite Hjson. reflexivity.
Qed.

Lemma generate_idea_throws (upstream : upstream_model) (API_KEY : string)
  (payload : value) (k : nat) (resp : response) (e : js_error) (t : trace) :
  answers_after upstream (invocations t)
    (post_json (GEMINI_API_URL API_KEY) payload) k resp ->
  (forall t', checked_json "Gemini API Error: " (Some resp) t' = (Throw e, t')) ->
  generate_idea upstream API_KEY payload t
  = (Throw e,
     t ++ retry_trace (Fetch (post_json (GEMINI_API_URL API_KEY) payload)) 1000 0 k).
Proof.
  intros Hans Hthrow. unfold generate_idea.
  rewrite (bind_normal _ _ _ _ _ (fetch_resolves _ _ _ _ _ Hans)).
  apply bind_throw. apply Hthrow.
Qed.

Lemma generate_idea_rejected (upstream : upstream_model) (API_KEY : string)
  (payload : value) (errors : nat -> js_error) (t : trace) :
  (forall j, (j < 3)%nat ->
     upstream (invocations t + j)%nat (post_json (GEMINI_API_URL API_KEY) payload)
     = Throw (errors j)) ->
  generate_idea upstream API_KEY payload t
  = (Throw (errors 2%nat),
     t ++ retry_trace (Fetch (post_json (GEMINI_API_URL API_KEY) payload)) 1000 0 2).
Proof.
  intro Hfail. unfold generate_idea.
  apply bind_throw. apply fetch_rejected. exact Hfail.
Qed.

(** ** Stage 2 *)

Lemma respond_throws (vars : idea) (r2 : response) (e : js_error) :
  (forall t, checked_json "Imagen API Error: " (Some r2) t = (Throw e, t)) ->
  forall t, respond vars (Some r2) t = (Throw e, t).
Proof.
  intros Hthrow t. unfold respond. apply bind_throw. apply Hthrow.
Qed.

(** A success status and a JSON body: the image data decides. *)
Lemma respond_answered (vars : idea) (r2 : response)
  (imagenResult base64Data : value) (t : trace) :
  ok r2 = true ->
  json r2 = Normal imagenResult ->
  prediction_bytes imagenResult = Normal base64Data ->
  respond vars (Some r2) t
  = if truthy base64Data then
      match ToString base64Data with
      | Normal data =>
          (Normal tt,
           t ++ [ESend 200
                   (fusion_result (generatedName vars) (generatedTranslation vars)
                      ("data:image/png;base64," ++ data)%string)])
      | Throw e => (Throw e, t)
      end
    else (Throw (Error "Image generation failed to return data."), t).
Proof.
  intros Hok Hjson Hbytes. unfold respond.
  rewrite (bind_normal _ _ _ t imagenResult)
    by (rewrite checked_json_ok by exact Hok; rewrite Hjson; reflexivity).
  unfold bind, lift. rewrite Hbytes. unfold js_not.
  destruct (truthy base64Data); cbn [negb]; [|reflexivity].
  unfold image_url. destruct (ToString base64Data) as [data|e]; reflexivity.
Qed.

(** What lines 78 to 95 come to: a throw that leaves the world as it was, or
    the whole result, sent for a success status, a JSON body and truthy data
    that has a text. *)
Lemma respond_cases (vars : idea) (returned : option response) (t : trace) :
  (exists e, respond vars returned t = (Throw e, t))
  \/ (exists r2 imagenResult base64Data data,
        returned = Some r2 /\ ok r2 = true /\ json r2 = Normal imagenResult
        /\ prediction_bytes imagenResult = Normal base64Data
        /\ truthy base64Data = true /\ ToString base64Data = Normal data
        /\ respond vars returned t
           = (Normal tt,
              t ++ [ESend 200
                      (fusion_result (generatedName vars) (generatedTranslation vars)
                         ("data:image/png;base64," ++ data)%string)])).
Proof.
  destruct returned as [r2|]; [|left; eexists; reflexivity].
  destruct (ok r2) eqn:Hok.
  - destruct (json r2) as [imagenResult|e] eqn:Hjson.
    + destruct (prediction_bytes imagenResult) as [base64Data|e] eqn:Hbytes.
      * rewrite (respond_answered vars r2 _ _ t Hok Hjson Hbytes).
        destruct (truthy base64Data) eqn:Hdata; [|left; eexists; reflexivity].
        destruct (ToString base64Data) as [data|e] eqn:Htext;
          [|left; eexists; reflexivity].
        right. exists r2, imagenResult, base64Data, data. conjuncts.
      * left. exists e. unfold respond.
        rewrite (bind_normal _ _ _ t imagenResult)
          by (rewrite checked_json_ok by exact Hok; rewrite Hjson; reflexivity).
        unfold bind, lift. rewrite Hbytes. reflexivity.
    + left. exists e. apply respond_throws. intro t'.
      apply checked_json_throws. exact Hjson.
  - destruct (checked_json_error_status "Imagen API Error: " r2 Hok) as [e He].
    left. exists e. apply respond_throws. exact He.
Qed.

Lemma generate_image_no_text (upstream : upstream_model) (API_KEY : string)
  (vars : idea) (e : js_error) (t : trace) :
  ToString (finalImagePrompt vars) = Throw e ->
  generate_image upstream API_KEY vars t = (Throw e, t).
Proof.
  intro Htext. unfold generate_image, bind, lift, imagenPayload.
  rewrite Htext. reflexivity.
Qed.

Lemma generate_image_starts (upstream : upstream_model) (API_KEY : string)
  (vars : idea) (text : string) (t : trace) :
  ToString (finalImagePrompt vars) = Normal text ->
  generate_image upstream API_KEY vars t
  = bind (withRetry_default (fetch upstream (imagen_request API_KEY text)))
      (respond vars) t.
Proof.
  intro Htext. unfold generate_image, imagenPayload. rewrite Htext.
  reflexivity.
Qed.

Lemma generate_image_resolved (upstream : upstream_model) (API_KEY : string)
  (vars : idea) (text : string) (k : nat) (r2 : response) (t : trace) :
  ToString (finalImagePrompt vars) = Normal text ->
  answers_after upstream (invocations t) (imagen_request API_KEY text) k r2 ->
  generate_image upstream API_KEY vars t
  = respond vars (Some r2)
      (t ++ retry_trace (Fetch (imagen_request API_KEY text)) 1000 0 k).
Proof.
  intros Htext Hans. rewrite (generate_image_starts _ _ _ _ _ Htext).
  apply bind_normal. apply fetch_resolves. exact Hans.
Qed.

Lemma generate_image_rejected (upstream : upstream_model) (API_KEY : string)
  (vars : idea) (text : string) (last : js_error) (t : trace) :
  ToString (finalImagePrompt vars) = Normal text ->
  rejected_thrice upstream (invocations t) (imagen_request API_KEY text) last ->
  generate_image upstream API_KEY vars t
  = (Throw last, t ++ retry_trace (Fetch (imagen_request API_KEY text)) 1000 0 2).
Proof.
  intros Htext Hrej. rewrite (generate_image_starts _ _ _ _ _ Htext).
  apply bind_throw. apply fetch_rejected_thrice. exact Hrej.
Qed.

(** ** The handler *)

(** The way into the outer [try]. *)
Lemma handler_enters (upstream : upstream_model) (API_KEY : string)
  (req : request) (t : trace) :
  reaches_relay API_KEY req ->
  handler upstream (Some API_KEY) req t
  = try_catch (relay upstream API_KEY (member "geminiPayload" (body req)))
      (fun e => emit (EError e) ;;; send 500 (error_body (message_or_default e))) t.
Proof.
  intros (Hmethod & Hkey & Hbody). unfold handler.
  rewrite Hmethod. cbn [String.eqb Ascii.eqb Bool.eqb negb].
  destruct API_KEY as [|a key]; [congruence|].
  unfold destructure_geminiPayload.
  destruct (body req); try discriminate Hbody; reflexivity.
Qed.

Lemma handler_catches (upstream : upstream_model) (API_KEY : string)
  (req : request) (t t' : trace) (e : js_error) :
  reaches_relay API_KEY req ->
  relay upstream API_KEY (member "geminiPayload" (body req)) t = (Throw e, t') ->
  handler upstream (Some API_KEY) req t = (Normal tt, t' ++ caught e).
Proof.
  intros Hreach Hrelay. rewrite handler_enters by exact Hreach.
  unfold try_catch. rewrite Hrelay.
  unfold bind, send, emit, caught. rewrite <- app_assoc. reflexivity.
Qed.

Lemma handler_passes (upstream : upstream_model) (API_KEY : string)
  (req : request) (t t' : trace) :
  reaches_relay API_KEY req ->
  relay upstream API_KEY (member "geminiPayload" (body req)) t = (Normal tt, t') ->
  handler upstream (Some API_KEY) req t = (Normal tt, t').
Proof.
  intros Hreach Hrelay. rewrite handler_enters by exact Hreach.
  unfold try_catch. rewrite Hrelay. reflexivity.
Qed.

(** Stage 1 throws once its fetch is answered. *)
Lemma handler_stage1_throws (upstream : upstream_model) (API_KEY : string)
  (req : request) (k : nat) (resp : response) (e : js_error) :
  reaches_relay API_KEY req ->
  answers_after upstream 0 (gemini_request API_KEY req) k resp ->
  (forall t, checked_json "Gemini API Error: " (Some resp) t = (Throw e, t)) ->
  handler upstream (Some API_KEY) req []
  = (Normal tt,
     retry_trace (Fetch (gemini_request API_KEY req)) 1000 0 k ++ caught e).
Proof.
  intros Hreach Hans Hthrow.
  apply handler_catches; [exact Hreach|].
  unfold relay. apply bind_throw.
  apply (generate_idea_throws upstream API_KEY _ k resp e []); assumption.
Qed.

Lemma handler_stage1_rejected (upstream : upstream_model) (API_KEY : string)
  (req : request) (last : js_error) :
  reaches_relay API_KEY req ->
  rejected_thrice upstream 0 (gemini_request API_KEY req) last ->
  handler upstream (Some API_KEY) req []
  = (Normal tt,
     retry_trace (Fetch (gemini_request API_KEY req)) 1000 0 2 ++ caught last).
Proof.
  intros Hreach Hrej.
  destruct (rejected_thrice_errors _ _ _ _ Hrej) as (errors & <- & Hall).
  apply handler_catches; [exact Hreach|].
  unfold relay. apply bind_throw.
  apply (generate_idea_rejected upstream API_KEY _ errors []). exact Hall.
Qed.

(** Past stage 1, the handler is stage 2 inside the outer [try]. *)
Lemma handler_after_stage1 (upstream : upstream_model) (API_KEY : string)
  (req : request) (k1 : nat) (geminiResult : value) :
  reaches_relay API_KEY req ->
  stage1_succeeds upstream API_KEY req k1 geminiResult ->
  handler upstream (Some API_KEY) req []
  = match generate_image upstream API_KEY (idea_of geminiResult)
            (retry_trace (Fetch (gemini_request API_KEY req)) 1000 0 k1
             ++ stage1_log geminiResult) with
    | (Normal _, t') => (Normal tt, t')
    | (Throw e, t') => (Normal tt, t' ++ caught e)
    end.
Proof.
  intros Hreach (r1 & H1 & Hok1 & Hjson1).
  pose proof (generate_idea_ok upstream API_KEY _ k1 r1 geminiResult [] H1 Hok1 Hjson1)
    as Hidea.
  fold (gemini_request API_KEY req) in Hidea. cbn [app] in Hidea.
  destruct (generate_image upstream API_KEY (idea_of geminiResult)
              (retry_trace (Fetch (gemini_request API_KEY req)) 1000 0 k1
               ++ stage1_log geminiResult)) as [[[]|e] t'] eqn:Himage.
  - apply handler_passes; [exact Hreach|].
    unfold relay. rewrite (bind_normal _ _ _ _ _ Hidea). exact Himage.
  - apply handler_catches; [exact Hreach|].
    unfold relay. rewrite (bind_normal _ _ _ _ _ Hidea). exact Himage.
Qed.

(** Stage 2 answered: lines 78 to 95 decide. *)
Lemma handler_stage2_answered (upstream : upstream_model) (API_KEY : string)
  (req : request) (k1 k2 : nat) (geminiResult : value) (text : string)
  (r2 : response) :
  reaches_relay API_KEY req ->
  stage1_succeeds upstream API_KEY req k1 geminiResult ->
  ToString (finalImagePrompt (idea_of geminiResult)) = Normal text ->
  answers_after upstream (S k1) (imagen_request API_KEY text) k2 r2 ->
  handler upstream (Some API_KEY) req []
  = match respond (idea_of geminiResult) (Some r2)
            (retry_trace (Fetch (gemini_request API_KEY req)) 1000 0 k1
             ++ stage1_log geminiResult
             ++ retry_trace (Fetch (imagen_request API_KEY text)) 1000 0 k2) with
    | (Normal _, t') => (Normal tt, t')
    | (Throw e, t') => (Normal tt, t' ++ caught e)
    end.
Proof.
  intros Hreach Hstage1 Htext H2.
  rewrite (handler_after_stage1 _ _ _ _ _ Hreach Hstage1).
  rewrite <- (invocations_after_stage1 (Fetch (gemini_request API_KEY req)) k1
                geminiResult) in H2.
  rewrite (generate_image_resolved _ _ _ _ _ _ _ Htext H2).
  rewrite <- app_assoc. reflexivity.
Qed.

Lemma sent_both_answered (c1 c2 : call) (k1 k2 : nat)
  (geminiResult : value) (last : trace) :
  sent (retry_trace c1 1000 0 k1 ++ stage1_log geminiResult
        ++ retry_trace c2 1000 0 k2 ++ last) = sent last.
Proof.
  rewrite !sent_app, !sent_retry_trace, sent_stage1_log. reflexivity.
Qed.

Lemma fetches_both_answered (req1 req2 : fetch_request) (k1 k2 : nat)
  (geminiResult : value) (last : trace) :
  fetches last = [] ->
  fetches (retry_trace (Fetch req1) 1000 0 k1 ++ stage1_log geminiResult
           ++ retry_trace (Fetch req2) 1000 0 k2 ++ last)
  = repeat req1 (k1 + 1) ++ repeat req2 (k2 + 1).
Proof.
  intro Hlast.
  rewrite !fetches_app, !fetches_retry_trace, fetches_stage1_log, Hlast.
  cbn [app]. rewrite app_nil_r.
  replace (k1 + 1)%nat with (S k1) by lia.
  replace (k2 + 1)%nat with (S k2) by lia. reflexivity.
Qed.

(** Both stages succeed: the whole result is sent, and nothing else. *)
Lemma handler_whole (upstream : upstream_model) (API_KEY : string)
  (req : request) (name translation : value) (imageUrl : string) :
  reaches_relay API_KEY req ->
  both_stages_succeed upstream API_KEY req name translation imageUrl ->
  fst (handler upstream (Some API_KEY) req []) = Normal tt
  /\ sent (snd (handler upstream (Some API_KEY) req []))
     = [(200, fusion_result name translation imageUrl)].
Proof.
  intros Hreach
    (k1 & geminiResult & text & k2 & r2 & imagenResult & base64Data & data
     & Hstage1 & Htext & H2 & Hok2 & Hjson2 & Hbytes & Hdata & Hurl
     & -> & -> & ->).
  rewrite (handler_stage2_answered _ _ _ _ _ _ _ _ Hreach Hstage1 Htext H2).
  rewrite (respond_answered _ _ _ _ _ Hok2 Hjson2 Hbytes), Hdata, Hurl.
  cbn [fst snd]. split; [reflexivity|].
  rewrite <- !app_assoc. apply sent_both_answered.
Qed.

(** A parse failure leaves the three variables as they were: the first
    assignment is reached only when nothing can throw any more. *)
Lemma parse_failure_keeps_the_variables (geminiResult : value) (vars : idea)
  (e : js_error) :
  fst (parse_idea geminiResult vars) = Throw e ->
  snd (parse_idea geminiResult vars) = vars.
Proof.
  unfold parse_idea.
  destruct (candidate_text geminiResult) as [jsonText|e1]; [|reflexivity].
  destruct (JSON_parse jsonText) as [parsedJson|e1]; [|reflexivity].
  destruct parsedJson; cbn; try discriminate; reflexivity.
Qed.

(** A text that is absent or is not JSON makes the inner [try] throw. *)
Lemma unusable_text_throws (geminiResult : value) :
  text_unusable geminiResult ->
  exists e, fst (parse_idea geminiResult fallback_idea) = Throw e.
Proof.
  unfold text_unusable, parse_idea.
  destruct (candidate_text geminiResult) as [jsonText|e1];
    [|intros _; exists e1; reflexivity].
  intros [Hnull|[e He]].
  - destruct jsonText; try discriminate Hnull.
    + unfold JSON_parse. cbn [ToString].
      destruct (parse_json_text "undefined") as [parsed|] eqn:Hparse;
        [vm_compute in Hparse; discriminate Hparse|].
      eexists; reflexivity.
    + unfold JSON_parse. cbn [ToString].
      assert (Hparse : parse_json_text "null" = Some VNull) by reflexivity.
      rewrite Hparse. eexists; reflexivity.
  - rewrite He. exists e. reflexivity.
Qed.

Lemma idea_of_unusable_text (geminiResult : value) :
  text_unusable geminiResult -> idea_of geminiResult = fallback_idea.
Proof.
  intro Hbad. destruct (unusable_text_throws _ Hbad) as [e He].
  unfold idea_of. apply (parse_failure_keeps_the_variables _ _ e He).
Qed.

Lemma gattociclo_parses :
  parse_json_text gattociclo_text
  = Some (VObj [("italianName", VStr "Gattociclo");
                ("englishTranslation", VStr "Cat-cycle");
                ("imagePrompt", VStr "a bicycle with a cat's head")]).
Proof. vm_compute. reflexivity. Qed.

(** C3. An operation that fails exactly [k] times and then succeeds, [k]
    below [maxRetries]: [withRetry] returns the successful result; the
    operation has been invoked [k + 1] times; and the pauses taken are
    [delay * 2^0], ..., [delay * 2^(k-1)], the [i]-th of them right after the
    [i]-th failed attempt (the trace interleaves them so). *)
Theorem withRetry_succeeds_after_k_failures :
  forall (A : Type) (c : call) (behaviour : nat -> completion A)
         (maxRetries delay : Z) (k : nat) (r : A) (t : trace),
    Z.of_nat k < maxRetries ->
    (forall i, (i < k)%nat ->
               exists e, behaviour (invocations t + i)%nat = Throw e) ->
    behaviour (invocations t + k)%nat = Normal r ->
    withRetry (invoke c behaviour) maxRetries delay t
    = (Normal (Some r), (t ++ retry_trace c delay 0 k)%list)
    /\ invocations (retry_trace c delay 0 k) = (k + 1)%nat
    /\ sleeps (retry_trace c delay 0 k)
       = map (fun i => delay * 2 ^ Z.of_nat i) (seq 0 k).
Proof.
  intros A c behaviour maxRetries delay k r t Hk Hfail Hok.
  split; [|split].
  - unfold withRetry. apply for_loop_flaky; [lia|lia|exact Hfail|exact Hok].
  - rewrite invocations_retry_trace. lia.
  - rewrite sleeps_retry_trace. apply map_ext; intro j. reflexivity.
Qed.

(** C9. With [maxRetries <= 0] the loop body never runs: [withRetry]
    completes normally with [undefined] and the world is as it was, whatever
    [fn] is: [fn] has not been invoked. *)
Theorem withRetry_nonpositive_cap_skips :
  forall (A : Type) (fn : M A) (maxRetries delay : Z) (t : trace),
    maxRetries <= 0 ->
    withRetry fn maxRetries delay t = (Normal None, t)
    /\ invocations (snd (withRetry fn maxRetries delay t)) = invocations t.
Proof.
  intros A fn maxRetries delay t Hcap.
  assert (Hrun : withRetry fn maxRetries delay t = (Normal None, t)).
  { unfold withRetry. apply for_loop_skipped. exact Hcap. }
  rewrite Hrun. split; reflexivity.
Qed.

(** ** What every run has in common *)

Lemma or_else_truthy (a b : value) : truthy b = true -> truthy (or_else a b) = true.
Proof.
  intro Hb. unfold or_else. destruct (truthy a) eqn:Ha; [exact Ha|exact Hb].
Qed.

Lemma idea_of_truthy (geminiResult : value) :
  truthy (generatedName (idea_of geminiResult)) = true
  /\ truthy (generatedTranslation (idea_of geminiResult)) = true
  /\ truthy (finalImagePrompt (idea_of geminiResult)) = true.
Proof.
  unfold idea_of, parse_idea.
  destruct (candidate_text geminiResult) as [jsonText|e]; [|repeat split].
  destruct (JSON_parse jsonText) as [parsedJson|e]; [|repeat split].
  destruct (get parsedJson "italianName") as [italianName|e]; [|repeat split].
  destruct (get parsedJson "englishTranslation") as [englishTranslation|e];
    [|repeat split; apply or_else_truthy; reflexivity].
  destruct (get parsedJson "imagePrompt") as [imagePrompt|e];
    repeat split; apply or_else_truthy; reflexivity.
Qed.

Lemma message_or_default_nonempty (e : js_error) :
  message_or_default e <> ""%string.
Proof.
  unfold message_or_default.
  destruct (String.eqb (err_message e) "") eqn:H; [discriminate|].
  apply String.eqb_neq. exact H.
Qed.

(** One retried fetch, whatever the upstream does: one to three calls. *)
Lemma fetch_stage_shape (upstream : upstream_model) (req : fetch_request)
  (t : trace) :
  exists k, (k <= 2)%nat
    /\ snd (withRetry_default (fetch upstream req) t)
       = t ++ retry_trace (Fetch req) 1000 0 k.
Proof.
  destruct (fetch_stage_cases upstream (invocations t) req)
    as [(k & resp & Hans)|(last & Hrej)].
  - exists k. split; [destruct Hans as (Hk & _); lia|].
    rewrite (fetch_resolves _ _ _ _ _ Hans). reflexivity.
  - exists 2%nat. split; [lia|].
    rewrite (fetch_rejected_thrice _ _ _ _ Hrej). reflexivity.
Qed.

(** A reached relay: every run is a throw caught by the outer [try], with
    nothing sent before it, or the whole result of two stages that
    succeeded. *)
Lemma handler_cases (upstream : upstream_model) (API_KEY : string)
  (req : request) :
  reaches_relay API_KEY req ->
  (exists e t',
      sent t' = []
      /\ handler upstream (Some API_KEY) req [] = (Normal tt, t' ++ caught e))
  \/ (exists name translation imageUrl,
        both_stages_succeed upstream API_KEY req name translation imageUrl
        /\ fst (handler upstream (Some API_KEY) req []) = Normal tt
        /\ sent (snd (handler upstream (Some API_KEY) req []))
           = [(200, fusion_result name translation imageUrl)]).
Proof.
  intro Hreach.
  destruct (fetch_stage_cases upstream 0 (gemini_request API_KEY req))
    as [(k1 & r1 & H1)|(last & Hrej)].
  2:{ left. exists last, (retry_trace (Fetch (gemini_request API_KEY req)) 1000 0 2).
      split; [apply sent_retry_trace|].
      apply handler_stage1_rejected; assumption. }
  assert (Hthrows : forall e,
    (forall t, checked_json "Gemini API Error: " (Some r1) t = (Throw e, t)) ->
    exists e0 t',
      sent t' = []
      /\ handler upstream (Some API_KEY) req [] = (Normal tt, t' ++ caught e0)).
  { intros e He. exists e, (retry_trace (Fetch (gemini_request API_KEY req)) 1000 0 k1).
    split; [apply sent_retry_trace|].
    apply (handler_stage1_throws _ _ _ _ r1); assumption. }
  destruct (ok r1) eqn:Hok1.
  2:{ left. destruct (checked_json_error_status "Gemini API Error: " r1 Hok1)
        as [e He]. apply (Hthrows e He). }
  destruct (json r1) as [geminiResult|e] eqn:Hjson1.
  2:{ left. apply (Hthrows e). intro t. apply checked_json_throws. exact Hjson1. }
  assert (Hstage1 : stage1_succeeds upstream API_KEY req k1 geminiResult)
    by (exists r1; conjuncts).
  destruct (ToString (finalImagePrompt (idea_of geminiResult))) as [text|e] eqn:Htext.
  2:{ left. exists e, (retry_trace (Fetch (gemini_request API_KEY req)) 1000 0 k1
                       ++ stage1_log geminiResult).
      split; [rewrite sent_app, sent_retry_trace, sent_stage1_log; reflexivity|].
      rewrite (handler_after_stage1 _ _ _ _ _ Hreach Hstage1).
      rewrite (generate_image_no_text _ _ _ _ _ Htext). reflexivity. }
  destruct (fetch_stage_cases upstream (S k1) (imagen_request API_KEY text))
    as [(k2 & r2 & H2)|(last & Hrej)].
  2:{ left. exists last, (retry_trace (Fetch (gemini_request API_KEY req)) 1000 0 k1
                          ++ stage1_log geminiResult
                          ++ retry_trace (Fetch (imagen_request API_KEY text)) 1000 0 2).
      split; [rewrite <- (app_nil_r (retry_trace (Fetch (imagen_request API_KEY text)) 1000 0 2));
              apply sent_both_answered|].
      rewrite (handler_after_stage1 _ _ _ _ _ Hreach Hstage1).
      rewrite <- (invocations_after_stage1 (Fetch (gemini_request API_KEY req)) k1
                    geminiResult) in Hrej.
      rewrite (generate_image_rejected _ _ _ _ _ _ Htext Hrej).
      rewrite <- !app_assoc. reflexivity. }
  rewrite (handler_stage2_answered _ _ _ _ _ _ _ _ Hreach Hstage1 Htext H2).
  destruct (respond_cases (idea_of geminiResult) (Some r2)
              (retry_trace (Fetch (gemini_request API_KEY req)) 1000 0 k1
               ++ stage1_log geminiResult
               ++ retry_trace (Fetch (imagen_request API_KEY text)) 1000 0 k2))
    as [(e & ->)|(r2' & imagenResult & base64Data & data & Hsome & Hok2 & Hjson2
                  & Hbytes & Hdata & Hurl & ->)].
  - left. exists e, (retry_trace (Fetch (gemini_request API_KEY req)) 1000 0 k1
                     ++ stage1_log geminiResult
                     ++ retry_trace (Fetch (imagen_request API_KEY text)) 1000 0 k2).
    split; [|reflexivity].
    rewrite <- (app_nil_r (retry_trace (Fetch (imagen_request API_KEY text)) 1000 0 k2)).
    apply sent_both_answered.
  - injection Hsome as <-. right.
    exists (generatedName (idea_of geminiResult)),
           (generatedTranslation (idea_of geminiResult)),
           ("data:image/png;base64," ++ data)%string.
    split; [|split; [reflexivity|]].
    + exists k1, geminiResult, text, k2, r2, imagenResult, base64Data, data.
      conjuncts.
    + cbn [snd]. rewrite <- !app_assoc. apply sent_both_answered.
Qed.

Lemma sent_caught (t' : trace) (e : js_error) :
  sent t' = [] ->
  sent (t' ++ caught e) = [(500, error_body (message_or_default e))].
Proof. intro H. rewrite sent_app, H. reflexivity. Qed.

(** ** The relay against its specification *)


(** C2, as the code has it.  When the first candidate's first text part is
    absent or is not valid JSON, the three variables keep their fallbacks,
    the name being ["Il Creato Senza Nome"], the translation
    ["The Unnamed Creation"]; stage 2 is issued, one to three times, with the
    fallback prompt; and when it returns image data the response is 200 with
    that name and that translation. *)
Theorem unusable_text_falls_back :
  forall (upstream : upstream_model) (API_KEY : string) (req : request)
         (k1 : nat) (geminiResult : value),
    reaches_relay API_KEY req ->
    stage1_succeeds upstream API_KEY req k1 geminiResult ->
    text_unusable geminiResult ->
    idea_of geminiResult
    = mkIdea (VStr "Il Creato Senza Nome") (VStr "The Unnamed Creation")
        (VStr "A surreal hybrid creature, vibrant colors, baroque illustration, octane render.")
    /\ (exists b,
          (1 <= b <= 3)%nat
          /\ fetches (snd (handler upstream (Some API_KEY) req []))
             = repeat (gemini_request API_KEY req) (k1 + 1)
               ++ repeat
                    (imagen_request API_KEY
                       "A surreal hybrid creature, vibrant colors, baroque illustration, octane render.")
                    b)
    /\ (forall (k2 : nat) (r2 : response) (imagenResult base64Data : value)
               (data : string),
          answers_after upstream (S k1)
            (imagen_request API_KEY
               "A surreal hybrid creature, vibrant colors, baroque illustration, octane render.")
            k2 r2 ->
          ok r2 = true ->
          json r2 = Normal imagenResult ->
          prediction_bytes imagenResult = Normal base64Data ->
          truthy base64Data = true ->
          ToString base64Data = Normal data ->
          fst (handler upstream (Some API_KEY) req []) = Normal tt
          /\ sent (snd (handler upstream (Some API_KEY) req []))
             = [(200,
                 fusion_result (VStr "Il Creato Senza Nome")
                   (VStr "The Unnamed Creation")
                   ("data:image/png;base64," ++ data)%string)]).
Proof.
  intros upstream API_KEY req k1 geminiResult Hreach Hstage1 Hbad.
  pose proof (idea_of_unusable_text _ Hbad) as Hidea.
  assert (Htext : ToString (finalImagePrompt (idea_of geminiResult))
                  = Normal "A surreal hybrid creature, vibrant colors, baroque illustration, octane render."%string)
    by (rewrite Hidea; reflexivity).
  split; [exact Hidea|split].
  - rewrite (handler_after_stage1 _ _ _ _ _ Hreach Hstage1).
    rewrite (generate_image_starts _ _ _ _ _ Htext).
    unfold bind at 1.
    destruct (fetch_stage_shape upstream
                (imagen_request API_KEY
                   "A surreal hybrid creature, vibrant colors, baroque illustration, octane render.")
                (retry_trace (Fetch (gemini_request API_KEY req)) 1000 0 k1
                 ++ stage1_log geminiResult))
      as (k2 & Hk2 & Hshape).
    destruct (withRetry_default _ _) as [[returned|e] t1]; cbn [snd] in Hshape;
      subst t1.
    + exists (S k2). split; [lia|].
      destruct (respond_cases (idea_of geminiResult) returned
                  ((retry_trace (Fetch (gemini_request API_KEY req)) 1000 0 k1
                    ++ stage1_log geminiResult)
                   ++ retry_trace
                        (Fetch (imagen_request API_KEY
                           "A surreal hybrid creature, vibrant colors, baroque illustration, octane render."))
                        1000 0 k2))
        as [(e & ->)|(r2 & im & d & data & _ & _ & _ & _ & _ & _ & ->)];
        cbn [snd]; rewrite !fetches_app, !fetches_retry_trace, fetches_stage1_log;
        cbn [caught fetches app]; rewrite !app_nil_r;
        replace (k1 + 1)%nat with (S k1) by lia; reflexivity.
    + exists (S k2). split; [lia|]. cbn [snd].
      rewrite !fetches_app, !fetches_retry_trace, fetches_stage1_log.
      cbn [caught fetches app]. rewrite !app_nil_r.
      replace (k1 + 1)%nat with (S k1) by lia. reflexivity.
  - intros k2 r2 imagenResult base64Data data H2 Hok2 Hjson2 Hbytes Hdata Hurl.
    pose proof (handler_whole upstream API_KEY req
                  (generatedName (idea_of geminiResult))
                  (generatedTranslation (idea_of geminiResult))
                  ("data:image/png;base64," ++ data)%string Hreach) as Hwhole.
    rewrite Hidea in Hwhole. apply Hwhole.
    exists k1, geminiResult,
      "A surreal hybrid creature, vibrant colors, baroque illustration, octane render."%string,
      k2, r2, imagenResult, base64Data, data.
    rewrite Hidea. conjuncts.
Qed.

(** C5. The worked example: stage 1 answers with the text
    [{"italianName":"Gattociclo","englishTranslation":"Cat-cycle",
      "imagePrompt":"a bicycle with a cat's head"}] and stage 2 with
    [{"predictions":[{"bytesBase64Encoded":"AAAA"}]}]; the relay responds
    once, with status 200 and exactly
    [{ name: "Gattociclo", translation: "Cat-cycle",
       imageUrl: "data:image/png;base64,AAAA" }]. *)
Theorem gattociclo_example :
  forall (upstream : upstream_model) (API_KEY : string) (req : request)
         (k1 k2 : nat) (r1 r2 : response) (geminiResult : value),
    reaches_relay API_KEY req ->
    answers_after upstream 0 (gemini_request API_KEY req) k1 r1 ->
    ok r1 = true ->
    json r1 = Normal geminiResult ->
    candidate_text geminiResult = Normal (VStr gattociclo_text) ->
    answers_after upstream (S k1)
      (imagen_request API_KEY "a bicycle with a cat's head") k2 r2 ->
    ok r2 = true ->
    json r2
    = Normal (VObj [("predictions",
                     VArr [VObj [("bytesBase64Encoded", VStr "AAAA")]])]) ->
    fst (handler upstream (Some API_KEY) req []) = Normal tt
    /\ sent (snd (handler upstream (Some API_KEY) req []))
       = [(200,
           VObj [("name", VStr "Gattociclo");
                 ("translation", VStr "Cat-cycle");
                 ("imageUrl", VStr "data:image/png;base64,AAAA")])].
Proof.
  intros upstream API_KEY req k1 k2 r1 r2 geminiResult
         Hreach H1 Hok1 Hjson1 Htext H2 Hok2 Hjson2.
  assert (Hidea : idea_of geminiResult
                  = mkIdea (VStr "Gattociclo") (VStr "Cat-cycle")
                      (VStr "a bicycle with a cat's head")).
  { unfold idea_of, parse_idea. rewrite Htext.
    unfold JSON_parse. cbn [ToString]. rewrite gattociclo_parses. reflexivity. }
  pose proof (handler_whole upstream API_KEY req (VStr "Gattociclo")
                (VStr "Cat-cycle") "data:image/png;base64,AAAA" Hreach) as Hwhole.
  apply Hwhole.
  exists k1, geminiResult, "a bicycle with a cat's head"%string, k2, r2,
    (VObj [("predictions", VArr [VObj [("bytesBase64Encoded", VStr "AAAA")]])]),
    (VStr "AAAA"), "AAAA"%string.
  rewrite Hidea. conjuncts.
  exists r1. conjuncts.
Qed.

(** C6, as the code has it.  Stage 2 answers with a status from 200 to 299
    but carries no image data.  Whatever stage 1 produced, parsed idea or
    fallbacks, the handler sends nothing but one response of status 500, and
    never an image.  Its message is ["Image generation failed to return
    data."] when the body is a JSON value other than [null] (the chain
    [imagenResult.predictions?.[0]?.bytesBase64Encoded] is then [undefined]
    or another falsy value); but for a body that is [null] it is the message
    of the [TypeError] of line 84, and for a body that is not JSON it is the
    message of the parser. *)
Theorem missing_image_data_is_fatal :
  forall (upstream : upstream_model) (API_KEY : string) (req : request)
         (k1 k2 : nat) (geminiResult : value) (text : string) (r2 : response),
    reaches_relay API_KEY req ->
    stage1_succeeds upstream API_KEY req k1 geminiResult ->
    ToString (finalImagePrompt (idea_of geminiResult)) = Normal text ->
    answers_after upstream (S k1) (imagen_request API_KEY text) k2 r2 ->
    ok r2 = true ->
    (forall imagenResult base64Data,
        json r2 = Normal imagenResult ->
        prediction_bytes imagenResult = Normal base64Data ->
        truthy base64Data = false) ->
    fst (handler upstream (Some API_KEY) req []) = Normal tt
    /\ (exists msg,
          sent (snd (handler upstream (Some API_KEY) req []))
          = [(500, error_body msg)])
    /\ (forall imagenResult,
          json r2 = Normal imagenResult ->
          is_nullish imagenResult = false ->
          sent (snd (handler upstream (Some API_KEY) req []))
          = [(500, error_body "Image generation failed to return data.")])
    /\ (json r2 = Normal VNull ->
        sent (snd (handler upstream (Some API_KEY) req []))
        = [(500,
            error_body
              (message_or_default (TypeError (cannot_read true "predictions"))))])
    /\ (forall e,
          json r2 = Throw e ->
          sent (snd (handler upstream (Some API_KEY) req []))
          = [(500, error_body (message_or_default e))]).
Proof.
  intros upstream API_KEY req k1 k2 geminiResult text r2
         Hreach Hstage1 Htext H2 Hok2 Hnodata.
  rewrite (handler_stage2_answered _ _ _ _ _ _ _ _ Hreach Hstage1 Htext H2).
  set (t2 := retry_trace (Fetch (gemini_request API_KEY req)) 1000 0 k1
             ++ stage1_log geminiResult
             ++ retry_trace (Fetch (imagen_request API_KEY text)) 1000 0 k2).
  assert (Hsent2 : sent t2 = []).
  { unfold t2.
    rewrite <- (app_nil_r (retry_trace (Fetch (imagen_request API_KEY text)) 1000 0 k2)).
    apply sent_both_answered. }
  assert (Hthrow : forall e,
    respond (idea_of geminiResult) (Some r2) t2 = (Throw e, t2) ->
    fst (match respond (idea_of geminiResult) (Some r2) t2 with
         | (Normal _, t') => (Normal tt, t')
         | (Throw e0, t') => (Normal tt, t' ++ caught e0)
         end) = Normal tt
    /\ sent (snd (match respond (idea_of geminiResult) (Some r2) t2 with
                  | (Normal _, t') => (Normal tt, t')
                  | (Throw e0, t') => (Normal tt, t' ++ caught e0)
                  end))
       = [(500, error_body (message_or_default e))]).
  { intros e ->. cbn [fst snd]. split; [reflexivity|].
    apply sent_caught. exact Hsent2. }
  assert (Hrun : exists e,
    respond (idea_of geminiResult) (Some r2) t2 = (Throw e, t2)
    /\ (forall imagenResult,
          json r2 = Normal imagenResult -> is_nullish imagenResult = false ->
          e = Error "Image generation failed to return data.")
    /\ (json r2 = Normal VNull -> e = TypeError (cannot_read true "predictions"))
    /\ (forall e', json r2 = Throw e' -> e = e')).
  { destruct (json r2) as [imagenResult|e'] eqn:Hjson2.
    - destruct (prediction_bytes imagenResult) as [base64Data|e'] eqn:Hbytes.
      + exists (Error "Image generation failed to return data.").
        rewrite (respond_answered _ _ _ _ t2 Hok2 Hjson2 Hbytes).
        rewrite (Hnodata _ _ eq_refl Hbytes).
        repeat split; try reflexivity; try discriminate.
        intros Hnull. injection Hnull as ->. discriminate Hbytes.
      + exists e'. split.
        * unfold respond.
          rewrite (bind_normal _ _ _ t2 imagenResult)
            by (rewrite checked_json_ok by exact Hok2; rewrite Hjson2; reflexivity).
          unfold bind, lift. rewrite Hbytes. reflexivity.
        * repeat split; try discriminate.
          -- intros im Him Hnn. injection Him as <-.
             destruct imagenResult; try discriminate Hnn; discriminate Hbytes.
          -- intros Hnull. injection Hnull as ->.
             cbn in Hbytes. injection Hbytes as <-. reflexivity.
    - exists e'. split.
      + apply respond_throws. intro t. apply checked_json_throws. exact Hjson2.
      + repeat split; try discriminate. intros e0 He0. congruence. }
  destruct Hrun as (e & Hrun & Hvalue & Hnull & Hnotjson).
  destruct (Hthrow e Hrun) as (Hfst & Hsent).
  split; [exact Hfst|split; [|split; [|split]]].
  - exists (message_or_default e). exact Hsent.
  - intros imagenResult Hjson Hnn. rewrite Hsent, (Hvalue _ Hjson Hnn). reflexivity.
  - intro Hjson. rewrite Hsent, (Hnull Hjson). reflexivity.
  - intros e' Hjson. rewrite Hsent, (Hnotjson _ Hjson). reflexivity.
Qed.

(** C7, as the code has it.  With the credential absent from the
    environment, or empty, no outbound call is issued; a POST is answered
    with status 500 and ["API key not configured."], and any other method
    with status 405, the method being looked at first. *)
Theorem missing_key_short_circuits :
  forall (upstream : upstream_model) (GOOGLE_API_KEY : option string)
         (req : request),
    GOOGLE_API_KEY = None \/ GOOGLE_API_KEY = Some ""%string ->
    handler upstream GOOGLE_API_KEY req []
    = (Normal tt,
       [if String.eqb (method req) "POST"
        then ESend 500 (error_body "API key not configured.")
        else ESend 405 (error_body "Method Not Allowed")])
    /\ fetches (snd (handler upstream GOOGLE_API_KEY req [])) = [].
Proof.
  intros upstream GOOGLE_API_KEY req Hkey.
  assert (Hrun :
    handler upstream GOOGLE_API_KEY req []
    = (Normal tt,
       [if String.eqb (method req) "POST"
        then ESend 500 (error_body "API key not configured.")
        else ESend 405 (error_body "Method Not Allowed")])).
  { unfold handler.
    destruct (String.eqb (method req) "POST"); cbn [negb];
      [destruct Hkey as [-> | ->]|]; reflexivity. }
  rewrite Hrun. split; [reflexivity|].
  cbn [snd]. destruct (String.eqb (method req) "POST"); reflexivity.
Qed.

(** C8.  Every invocation ends in one of three ways: the body of the request
    cannot be destructured and the handler throws before the outer [try],
    having sent nothing and called nothing; or exactly one response was sent
    and it is an error, status 405 or 500 with a body [{ error: message }];
    or exactly one response was sent and it is the whole result, status 200
    with the name and the translation that stage 1 left, both truthy, and
    the data URI of the image data that stage 2 returned: both stages have
    succeeded.  Conversely the whole result is sent whenever both stages
    succeed.  Every failure of an upstream call, be it a fetch rejected at
    all three attempts or an answer with an error status, in stage 1 or in
    stage 2, is answered with status 500 and [{ error: message }].  And a
    parse failure in stage 1 is not an error: the inner [try] leaves the
    fallbacks, and the answer is decided by stage 2 exactly as after a
    successful parse. *)
Theorem handler_is_all_or_nothing :
  forall (upstream : upstream_model) (GOOGLE_API_KEY : option string)
         (req : request),
    ((is_nullish (body req) = true
      /\ exists e, handler upstream GOOGLE_API_KEY req [] = (Throw e, []))
     \/ (exists code msg,
           fst (handler upstream GOOGLE_API_KEY req []) = Normal tt
           /\ sent (snd (handler upstream GOOGLE_API_KEY req []))
              = [(code, error_body msg)]
           /\ (code = 405 \/ code = 500))
     \/ (exists API_KEY name translation imageUrl,
           GOOGLE_API_KEY = Some API_KEY
           /\ fst (handler upstream GOOGLE_API_KEY req []) = Normal tt
           /\ sent (snd (handler upstream GOOGLE_API_KEY req []))
              = [(200, fusion_result name translation imageUrl)]
           /\ both_stages_succeed upstream API_KEY req name translation imageUrl
           /\ truthy name = true /\ truthy translation = true))
    /\ (forall (API_KEY : string),
          GOOGLE_API_KEY = Some API_KEY ->
          reaches_relay API_KEY req ->
          (forall name translation imageUrl,
              both_stages_succeed upstream API_KEY req name translation imageUrl ->
              fst (handler upstream GOOGLE_API_KEY req []) = Normal tt
              /\ sent (snd (handler upstream GOOGLE_API_KEY req []))
                 = [(200, fusion_result name translation imageUrl)])
          /\ (stage_fails upstream 0 (gemini_request API_KEY req) ->
              fst (handler upstream GOOGLE_API_KEY req []) = Normal tt
              /\ exists msg,
                   sent (snd (handler upstream GOOGLE_API_KEY req []))
                   = [(500, error_body msg)])
          /\ (forall k1 geminiResult text,
                stage1_succeeds upstream API_KEY req k1 geminiResult ->
                ToString (finalImagePrompt (idea_of geminiResult)) = Normal text ->
                stage_fails upstream (S k1) (imagen_request API_KEY text) ->
                fst (handler upstream GOOGLE_API_KEY req []) = Normal tt
                /\ exists msg,
                     sent (snd (handler upstream GOOGLE_API_KEY req []))
                     = [(500, error_body msg)])
          /\ (forall k1 geminiResult e,
                stage1_succeeds upstream API_KEY req k1 geminiResult ->
                fst (parse_idea geminiResult fallback_idea) = Throw e ->
                idea_of geminiResult = fallback_idea
                /\ handler upstream GOOGLE_API_KEY req []
                   = match generate_image upstream API_KEY fallback_idea
                             (retry_trace (Fetch (gemini_request API_KEY req)) 1000 0 k1
                              ++ [EWarn "Failed to parse Gemini JSON, using fallback."])
                     with
                     | (Normal _, t') => (Normal tt, t')
                     | (Throw e', t') => (Normal tt, t' ++ caught e')
                     end)).
Proof.
  intros upstream GOOGLE_API_KEY req. split.
  - destruct (String.eqb (method req) "POST") eqn:Hmethod.
    + destruct GOOGLE_API_KEY as [[|a key]|].
      * right; left. exists 500, "API key not configured."%string.
        unfold handler. rewrite Hmethod. cbn. auto.
      * destruct (is_nullish (body req)) eqn:Hbody.
        -- left. split; [reflexivity|].
           unfold handler. rewrite Hmethod. cbn [negb].
           unfold destructure_geminiPayload, bind, lift.
           destruct (body req); try discriminate Hbody; eexists; reflexivity.
        -- assert (Hreach : reaches_relay (String a key) req).
           { repeat split; [apply String.eqb_eq; exact Hmethod|discriminate|exact Hbody]. }
           destruct (handler_cases upstream (String a key) req Hreach)
             as [(e & t' & Hsent & Hrun)
                |(name & translation & imageUrl & Hboth & Hfst & Hsent)].
           ++ right; left. exists 500, (message_or_default e).
              rewrite Hrun. cbn [fst snd].
              split; [reflexivity|split; [apply sent_caught; exact Hsent|auto]].
           ++ right; right. exists (String a key), name, translation, imageUrl.
              repeat split; try assumption;
                destruct Hboth as (k1 & geminiResult & text & k2 & r2 & im & d & data
                                   & _ & _ & _ & _ & _ & _ & _ & _ & -> & -> & _);
                apply idea_of_truthy.
      * right; left. exists 500, "API key not configured."%string.
        unfold handler. rewrite Hmethod. cbn. auto.
    + right; left. exists 405, "Method Not Allowed"%string.
      unfold handler. rewrite Hmethod. cbn. auto.
  - intros API_KEY -> Hreach. split; [|split; [|split]].
    + intros name translation imageUrl Hboth.
      apply handler_whole; assumption.
    + intros [(last & Hrej)|(k & resp & Hans & Hok)].
      * rewrite (handler_stage1_rejected _ _ _ _ Hreach Hrej). cbn [fst snd].
        split; [reflexivity|]. eexists. apply sent_caught. apply sent_retry_trace.
      * destruct (checked_json_error_status "Gemini API Error: " resp Hok) as [e He].
        rewrite (handler_stage1_throws _ _ _ _ _ _ Hreach Hans He). cbn [fst snd].
        split; [reflexivity|]. eexists. apply sent_caught. apply sent_retry_trace.
    + intros k1 geminiResult text Hstage1 Htext
             [(last & Hrej)|(k2 & r2 & H2 & Hok2)].
      * rewrite (handler_after_stage1 _ _ _ _ _ Hreach Hstage1).
        rewrite <- (invocations_after_stage1 (Fetch (gemini_request API_KEY req)) k1
                      geminiResult) in Hrej.
        rewrite (generate_image_rejected _ _ _ _ _ _ Htext Hrej). cbn [fst snd].
        split; [reflexivity|]. eexists. apply sent_caught.
        rewrite <- app_assoc.
        rewrite <- (app_nil_r (retry_trace (Fetch (imagen_request API_KEY text)) 1000 0 2)).
        apply sent_both_answered.
      * rewrite (handler_stage2_answered _ _ _ _ _ _ _ _ Hreach Hstage1 Htext H2).
        destruct (checked_json_error_status "Imagen API Error: " r2 Hok2) as [e He].
        rewrite (respond_throws _ _ _ He). cbn [fst snd].
        split; [reflexivity|]. eexists. apply sent_caught.
        rewrite <- (app_nil_r (retry_trace (Fetch (imagen_request API_KEY text)) 1000 0 k2)).
        apply sent_both_answered.
    + intros k1 geminiResult e Hstage1 Hparse.
      assert (Hidea : idea_of geminiResult = fallback_idea)
        by (apply (parse_failure_keeps_the_variables _ _ e Hparse)).
      split; [exact Hidea|].
      rewrite (handler_after_stage1 _ _ _ _ _ Hreach Hstage1).
      unfold stage1_log. rewrite Hparse, Hidea. reflexivity.
Qed.

(** C10, as the code has it.  When the text parses as JSON, each of the
    three variables is the parsed field if that is truthy and its own
    fallback otherwise, independently of the other two (a parsed [null] has
    no field at all).  So after stage 1 the three variables are always
    truthy; one that is a string is not empty; but a parsed field that is
    truthy without being a string is kept as it is. *)
Theorem fallback_is_per_field :
  forall (geminiResult : value),
    (forall (jsonText parsedJson : value),
        candidate_text geminiResult = Normal jsonText ->
        JSON_parse jsonText = Normal parsedJson ->
        idea_of geminiResult
        = mkIdea
            (or_else (member "italianName" parsedJson)
               (VStr "Il Creato Senza Nome"))
            (or_else (member "englishTranslation" parsedJson)
               (VStr "The Unnamed Creation"))
            (or_else (member "imagePrompt" parsedJson)
               (VStr "A surreal hybrid creature, vibrant colors, baroque illustration, octane render.")))
    /\ truthy (generatedName (idea_of geminiResult)) = true
    /\ truthy (generatedTranslation (idea_of geminiResult)) = true
    /\ truthy (finalImagePrompt (idea_of geminiResult)) = true
    /\ (forall s : string,
          generatedName (idea_of geminiResult) = VStr s
          \/ generatedTranslation (idea_of geminiResult) = VStr s
          \/ finalImagePrompt (idea_of geminiResult) = VStr s ->
          s <> ""%string).
Proof.
  intro geminiResult.
  destruct (idea_of_truthy geminiResult) as (Hname & Htranslation & Hprompt).
  split; [|repeat split; try assumption].
  - intros jsonText parsedJson Htext Hparse.
    unfold idea_of, parse_idea. rewrite Htext, Hparse.
    destruct parsedJson; reflexivity.
  - intros s [H|[H|H]] ->; rewrite H in *; discriminate.
Qed.

(** C4.  An operation that fails at every attempt, the cap [maxRetries]
    allowing at least one, is invoked exactly [maxRetries] times, with a
    pause after each attempt but the last, and [withRetry] throws the error
    of the last attempt.  In the relay, where the cap is 3: when the fetch of
    either stage is rejected three times the handler has issued exactly three
    calls for it and answers with status 500 and the message of the last
    rejection (the generic message if that one is empty). *)
Theorem withRetry_exhausts_the_cap :
  (forall (A : Type) (c : call) (behaviour : nat -> completion A)
          (errors : nat -> js_error) (maxRetries delay : Z) (t : trace),
      1 <= maxRetries ->
      (forall i, (i < Z.to_nat maxRetries)%nat ->
                 behaviour (invocations t + i)%nat = Throw (errors i)) ->
      withRetry (invoke c behaviour) maxRetries delay t
      = (Throw (errors (Z.to_nat maxRetries - 1)%nat),
         t ++ retry_trace c delay 0 (Z.to_nat maxRetries - 1))
      /\ invocations (retry_trace c delay 0 (Z.to_nat maxRetries - 1))
         = Z.to_nat maxRetries)
  /\ (forall (upstream : upstream_model) (API_KEY : string) (req : request)
             (errors : nat -> js_error),
        reaches_relay API_KEY req ->
        (forall i, (i < 3)%nat ->
                   upstream i (gemini_request API_KEY req) = Throw (errors i)) ->
        handler upstream (Some API_KEY) req []
        = (Normal tt,
           retry_trace (Fetch (gemini_request API_KEY req)) 1000 0 2
           ++ caught (errors 2%nat))
        /\ fetches (snd (handler upstream (Some API_KEY) req []))
           = repeat (gemini_request API_KEY req) 3
        /\ sent (snd (handler upstream (Some API_KEY) req []))
           = [(500, error_body (message_or_default (errors 2%nat)))])
  /\ (forall (upstream : upstream_model) (API_KEY : string) (req : request)
             (k1 : nat) (r1 : response) (geminiResult : value) (text : string)
             (errors : nat -> js_error),
        reaches_relay API_KEY req ->
        answers_after upstream 0 (gemini_request API_KEY req) k1 r1 ->
        ok r1 = true ->
        json r1 = Normal geminiResult ->
        ToString (finalImagePrompt (idea_of geminiResult)) = Normal text ->
        (forall i, (i < 3)%nat ->
                   upstream (S k1 + i)%nat (imagen_request API_KEY text)
                   = Throw (errors i)) ->
        fetches (snd (handler upstream (Some API_KEY) req []))
        = repeat (gemini_request API_KEY req) (k1 + 1)
          ++ repeat (imagen_request API_KEY text) 3
        /\ sent (snd (handler upstream (Some API_KEY) req []))
           = [(500, error_body (message_or_default (errors 2%nat)))]).
Proof.
  split; [|split].
  - intros A c behaviour errors maxRetries delay t Hcap Hfail. split.
    + unfold withRetry.
      apply for_loop_hopeless; [lia|lia|].
      intros j Hj. apply Hfail. lia.
    + rewrite invocations_retry_trace. lia.
  - intros upstream API_KEY req errors Hreach Hfail.
    assert (Hrun :
      handler upstream (Some API_KEY) req []
      = (Normal tt,
         retry_trace (Fetch (gemini_request API_KEY req)) 1000 0 2
         ++ caught (errors 2%nat))).
    { apply handler_catches; [exact Hreach|].
      unfold relay. apply bind_throw.
      apply (generate_idea_rejected upstream API_KEY _ errors []). exact Hfail. }
    rewrite Hrun. cbn [snd]. split; [reflexivity|split].
    + rewrite fetches_app, fetches_retry_trace. reflexivity.
    + apply sent_caught. apply sent_retry_trace.
  - intros upstream API_KEY req k1 r1 geminiResult text errors
           Hreach H1 Hok1 Hjson1 Htext Hfail.
    assert (Hstage1 : stage1_succeeds upstream API_KEY req k1 geminiResult)
      by (exists r1; conjuncts).
    assert (Hrej : rejected_thrice upstream
                     (invocations
                        (retry_trace (Fetch (gemini_request API_KEY req)) 1000 0 k1
                         ++ stage1_log geminiResult))
                     (imagen_request API_KEY text) (errors 2%nat)).
    { rewrite invocations_after_stage1. split.
      - intros i Hi. exists (errors i). apply Hfail. exact Hi.
      - apply Hfail. lia. }
    rewrite (handler_after_stage1 _ _ _ _ _ Hreach Hstage1).
    rewrite (generate_image_rejected _ _ _ _ _ _ Htext Hrej).
    cbn [snd]. split.
    + rewrite <- !app_assoc.
      rewrite (fetches_both_answered _ _ k1 2 geminiResult (caught (errors 2%nat)));
        reflexivity.
    + apply sent_caught. rewrite <- app_assoc.
      rewrite <- (app_nil_r (retry_trace (Fetch (imagen_request API_KEY text)) 1000 0 2)).
      apply sent_both_answered.
Qed.

(** ** Further properties of the relay *)

(** X1. Any method but POST is answered with status 405 and nothing else
    happens: no outbound call, no pause, no log. *)
Theorem other_methods_are_405 :
  forall (upstream : upstream_model) (GOOGLE_API_KEY : option string)
         (req : request),
    method req <> "POST"%string ->
    handler upstream GOOGLE_API_KEY req []
    = (Normal tt, [ESend 405 (error_body "Method Not Allowed")]).
Proof.
  intros upstream GOOGLE_API_KEY req Hmethod. unfold handler.
  apply String.eqb_neq in Hmethod. rewrite Hmethod. reflexivity.
Qed.

(** X2. With the default cap and delay, a fetch that is rejected at every
    attempt costs two pauses, of 1000 and 2000 milliseconds: the third
    rejection is thrown without a pause. *)
Theorem default_policy_pauses_twice :
  forall (upstream : upstream_model) (req : fetch_request)
         (errors : nat -> js_error) (t : trace),
    (forall j, (j < 3)%nat ->
               upstream (invocations t + j)%nat req = Throw (errors j)) ->
    fst (withRetry_default (fetch upstream req) t) = Throw (errors 2%nat)
    /\ sleeps (snd (withRetry_default (fetch upstream req) t))
       = sleeps t ++ [1000; 2000].
Proof.
  intros upstream req errors t Hfail.
  rewrite (fetch_rejected upstream req errors t Hfail). cbn [fst snd].
  split; [reflexivity|]. rewrite sleeps_app. reflexivity.
Qed.

(** X3. A stage-2 response with a status outside 200 to 299 is not retried
    either.  Whatever its body is, the handler issues no further call and
    answers at once with status 500 and the message of the error [e] that
    lines 79 and 80 throw; when the body has the form
    [{ error: { message } }] and the message has a text, the response
    carries ["Imagen API Error: "] followed by that text. *)
Theorem stage2_error_status_is_not_retried :
  forall (upstream : upstream_model) (API_KEY : string) (req : request)
         (k1 k2 : nat) (geminiResult : value) (text : string) (r2 : response),
    reaches_relay API_KEY req ->
    stage1_succeeds upstream API_KEY req k1 geminiResult ->
    ToString (finalImagePrompt (idea_of geminiResult)) = Normal text ->
    answers_after upstream (S k1) (imagen_request API_KEY text) k2 r2 ->
    ok r2 = false ->
    exists e,
      fst (handler upstream (Some API_KEY) req []) = Normal tt
      /\ fetches (snd (handler upstream (Some API_KEY) req []))
         = repeat (gemini_request API_KEY req) (k1 + 1)
           ++ repeat (imagen_request API_KEY text) (k2 + 1)
      /\ sent (snd (handler upstream (Some API_KEY) req []))
         = [(500, error_body (message_or_default e))]
      /\ (forall (err err_error msg : value) (upstream_text : string),
            json r2 = Normal err ->
            get err "error" = Normal err_error ->
            get err_error "message" = Normal msg ->
            ToString msg = Normal upstream_text ->
            e = Error ("Imagen API Error: " ++ upstream_text)%string
            /\ message_or_default e
               = ("Imagen API Error: " ++ upstream_text)%string).
Proof.
  intros upstream API_KEY req k1 k2 geminiResult text r2
         Hreach Hstage1 Htext H2 Hok2.
  destruct (checked_json_error_status "Imagen API Error: " r2 Hok2) as [e He].
  exists e.
  rewrite (handler_stage2_answered _ _ _ _ _ _ _ _ Hreach Hstage1 Htext H2).
  rewrite (respond_throws _ _ _ He). cbn [fst snd].
  split; [reflexivity|split; [|split]].
  - rewrite <- !app_assoc. apply fetches_both_answered. reflexivity.
  - apply sent_caught.
    rewrite <- (app_nil_r (retry_trace (Fetch (imagen_request API_KEY text)) 1000 0 k2)).
    apply sent_both_answered.
  - intros err err_error msg upstream_text Hjson Herr Hmsg Hmsgtext.
    pose proof (checked_json_not_ok "Imagen API Error: " r2 err err_error msg
                  upstream_text [] Hok2 Hjson Herr Hmsg Hmsgtext) as Hrun.
    rewrite (He []) in Hrun. injection Hrun as ->. split; reflexivity.
Qed.

(** ** The colours of the page *)

Lemma every_char_spec (P : ascii -> bool) :
  every_char P = true -> forall c, P c = true.
Proof.
  unfold every_char. intros H c. rewrite forallb_forall in H.
  rewrite <- (ascii_nat_embedding c). apply H.
  apply in_seq. pose proof (nat_ascii_bounded c). lia.
Qed.

Lemma all_pairs_checked :
  every_char (fun a => every_char (fun b => pair_check a b)) = true.
Proof. vm_compute. reflexivity. Qed.

Lemma all_channels_checked : forallb hex2_check (seq 0 256) = true.
Proof. vm_compute. reflexivity. Qed.

Lemma option_Z_is_spec (o : option Z) (v : Z) : option_Z_is o v = true -> o = Some v.
Proof.
  destruct o as [w|]; cbn; [|discriminate].
  intro H. apply Z.eqb_eq in H. congruence.
Qed.

(** Two hexadecimal digits: no dot fails on them, they denote a channel
    between 0 and 255, and both calls of [parseInt] read that channel. *)
Lemma hex_pair_facts (a b : ascii) (v : Z) :
  hex_pair_value a b = Some v ->
  is_line_terminator a = false /\ is_line_terminator b = false
  /\ 0 <= v <= 255
  /\ parseInt (String a (String b "")) (Some 16) = Some v
  /\ parseInt ("0x" ++ String a "" ++ String b "")%string None = Some v.
Proof.
  intro Hv.
  pose proof (every_char_spec _ (every_char_spec _ all_pairs_checked a) b) as H.
  unfold pair_check in H. rewrite Hv in H.
  repeat (apply andb_prop in H; destruct H as [H ?]).
  repeat split;
    try (apply negb_true_iff; assumption);
    try (apply Z.leb_le; assumption);
    apply option_Z_is_spec; assumption.
Qed.

(** The two digits of a channel, read back. *)
Lemma hex2_digits (v : Z) :
  0 <= v <= 255 ->
  exists a b, hex2 v = String a (String b "") /\ hex_pair_value a b = Some v.
Proof.
  intro Hv.
  pose proof all_channels_checked as H. rewrite forallb_forall in H.
  specialize (H (Z.to_nat v)). unfold hex2_check in H.
  rewrite Z2Nat.id in H by lia.
  assert (Hin : In (Z.to_nat v) (seq 0 256)) by (apply in_seq; lia).
  specialize (H Hin).
  destruct (hex2 v) as [|a [|b [|c rest]]]; try discriminate H.
  exists a, b. split; [reflexivity|]. apply option_Z_is_spec. exact H.
Qed.

Lemma append_empty_r (s : string) : (s ++ "")%string = s.
Proof. induction s as [|c s IH]; cbn; [reflexivity|rewrite IH; reflexivity]. Qed.

Lemma clamp_range (x : Z) : 0 <= clamp x <= 255.
Proof. unfold clamp. lia. Qed.

Lemma adjust_pair_hex (amount : Z) (a b : ascii) (v : Z) :
  hex_pair_value a b = Some v ->
  adjust_pair amount a b = hex2 (clamp (v + amount)).
Proof.
  intro Hv. destruct (hex_pair_facts a b v Hv) as (_ & _ & _ & Hparse & _).
  unfold adjust_pair, hex2. rewrite Hparse. reflexivity.
Qed.

Lemma adjustColor_six_digits (h1 h2 h3 h4 h5 h6 : ascii) (r g b amount : Z) :
  hex_pair_value h1 h2 = Some r ->
  hex_pair_value h3 h4 = Some g ->
  hex_pair_value h5 h6 = Some b ->
  adjustColor
    (String "#" (String h1 (String h2 (String h3 (String h4 (String h5 (String h6 "")))))))
    amount
  = color_of (clamp (r + amount)) (clamp (g + amount)) (clamp (b + amount)).
Proof.
  intros Hr Hg Hb.
  destruct (hex_pair_facts _ _ _ Hr) as (L1 & L2 & _).
  destruct (hex_pair_facts _ _ _ Hg) as (L3 & L4 & _).
  destruct (hex_pair_facts _ _ _ Hb) as (L5 & L6 & _).
  unfold adjustColor, color_of. cbn [String.eqb Ascii.eqb Bool.eqb strip_hash].
  cbn [replace_pairs]. rewrite L1, L2, L3, L4, L5, L6. cbn [orb].
  rewrite (adjust_pair_hex amount _ _ _ Hr), (adjust_pair_hex amount _ _ _ Hg),
    (adjust_pair_hex amount _ _ _ Hb).
  rewrite append_empty_r. reflexivity.
Qed.

(** A colour of three channels is a colour of six digits. *)
Lemma color_of_digits (r g b : Z) :
  0 <= r <= 255 -> 0 <= g <= 255 -> 0 <= b <= 255 ->
  exists h1 h2 h3 h4 h5 h6,
    color_of r g b
    = String "#" (String h1 (String h2 (String h3 (String h4 (String h5 (String h6 ""))))))
    /\ hex_pair_value h1 h2 = Some r
    /\ hex_pair_value h3 h4 = Some g
    /\ hex_pair_value h5 h6 = Some b.
Proof.
  intros Hr Hg Hb.
  destruct (hex2_digits r Hr) as (h1 & h2 & E1 & V1).
  destruct (hex2_digits g Hg) as (h3 & h4 & E2 & V2).
  destruct (hex2_digits b Hb) as (h5 & h6 & E3 & V3).
  exists h1, h2, h3, h4, h5, h6. unfold color_of. rewrite E1, E2, E3.
  repeat split; assumption.
Qed.

(** X4. A colour written [#] and six hexadecimal digits, in either case: each
    channel is moved by [amount] and kept between 0 and 255, and the result
    is again [#] and six digits, in lower case. *)
Theorem adjustColor_clamps_each_channel :
  forall (h1 h2 h3 h4 h5 h6 : ascii) (r g b amount : Z),
    hex_pair_value h1 h2 = Some r ->
    hex_pair_value h3 h4 = Some g ->
    hex_pair_value h5 h6 = Some b ->
    adjustColor
      (String "#" (String h1 (String h2 (String h3 (String h4 (String h5 (String h6 "")))))))
      amount
    = color_of (clamp (r + amount)) (clamp (g + amount)) (clamp (b + amount))
    /\ exists k1 k2 k3 k4 k5 k6,
         color_of (clamp (r + amount)) (clamp (g + amount)) (clamp (b + amount))
         = String "#" (String k1 (String k2 (String k3 (String k4 (String k5 (String k6 ""))))))
         /\ hex_pair_value k1 k2 = Some (clamp (r + amount))
         /\ hex_pair_value k3 k4 = Some (clamp (g + amount))
         /\ hex_pair_value k5 k6 = Some (clamp (b + amount)).
Proof.
  intros h1 h2 h3 h4 h5 h6 r g b amount Hr Hg Hb. split.
  - apply adjustColor_six_digits; assumption.
  - apply color_of_digits; apply clamp_range.
Qed.

(** X5. Two adjustments in the same direction add up: darkening (or
    lightening) a six-digit colour by [a1] and then by [a2] gives what one
    adjustment by [a1 + a2] gives. *)
Theorem adjustColor_same_direction_adds_up :
  forall (h1 h2 h3 h4 h5 h6 : ascii) (r g b a1 a2 : Z),
    hex_pair_value h1 h2 = Some r ->
    hex_pair_value h3 h4 = Some g ->
    hex_pair_value h5 h6 = Some b ->
    (0 <= a1 /\ 0 <= a2) \/ (a1 <= 0 /\ a2 <= 0) ->
    adjustColor
      (adjustColor
         (String "#" (String h1 (String h2 (String h3 (String h4 (String h5 (String h6 "")))))))
         a1)
      a2
    = adjustColor
        (String "#" (String h1 (String h2 (String h3 (String h4 (String h5 (String h6 "")))))))
        (a1 + a2).
Proof.
  intros h1 h2 h3 h4 h5 h6 r g b a1 a2 Hr Hg Hb Hdir.
  destruct (hex_pair_facts _ _ _ Hr) as (_ & _ & Rr & _).
  destruct (hex_pair_facts _ _ _ Hg) as (_ & _ & Rg & _).
  destruct (hex_pair_facts _ _ _ Hb) as (_ & _ & Rb & _).
  rewrite (adjustColor_six_digits _ _ _ _ _ _ r g b a1 Hr Hg Hb).
  rewrite (adjustColor_six_digits _ _ _ _ _ _ r g b (a1 + a2) Hr Hg Hb).
  destruct (color_of_digits (clamp (r + a1)) (clamp (g + a1)) (clamp (b + a1))
              (clamp_range _) (clamp_range _) (clamp_range _))
    as (k1 & k2 & k3 & k4 & k5 & k6 & -> & Kr & Kg & Kb).
  rewrite (adjustColor_six_digits _ _ _ _ _ _ _ _ _ a2 Kr Kg Kb).
  f_equal; unfold clamp; lia.
Qed.

Lemma length_append (s u : string) :
  String.length (s ++ u)%string = (String.length s + String.length u)%nat.
Proof. induction s as [|c s IH]; cbn; [reflexivity|rewrite IH; reflexivity]. Qed.

Lemma adjust_pair_length (amount : Z) (a b : ascii) :
  String.length (adjust_pair amount a b) = 2%nat.
Proof.
  unfold adjust_pair.
  destruct (parseInt (String a (String b "")) (Some 16)) as [n|]; [|reflexivity].
  unfold toString16. destruct (clamp (n + amount) <? 16); reflexivity.
Qed.

Lemma replace_pairs_step (f : ascii -> ascii -> string) (a b : ascii)
  (rest : string) :
  replace_pairs f (String a (String b rest))
  = if is_line_terminator a || is_line_terminator b
    then String a (replace_pairs f (String b rest))
    else (f a b ++ replace_pairs f rest)%string.
Proof. reflexivity. Qed.

Lemma replace_pairs_length (f : ascii -> ascii -> string) :
  (forall a b, String.length (f a b) = 2%nat) ->
  forall s, String.length (replace_pairs f s) = String.length s.
Proof.
  intro Hf.
  assert (H : forall s,
             String.length (replace_pairs f s) = String.length s
             /\ forall c, String.length (replace_pairs f (String c s))
                          = String.length (String c s)).
  { induction s as [|b rest [IH1 IH2]]; [split; [reflexivity|intro c; reflexivity]|].
    split; [apply IH2|].
    intro a. rewrite replace_pairs_step.
    destruct (is_line_terminator a || is_line_terminator b).
    - change (String.length (String a (replace_pairs f (String b rest))))
        with (S (String.length (replace_pairs f (String b rest)))).
      rewrite IH2. reflexivity.
    - rewrite length_append, Hf, IH1. reflexivity. }
  intro s. apply H.
Qed.

(** X6. Whatever follows the [#], digits or not, the adjusted colour has the
    length of the colour it was given: every pair of characters is replaced
    by exactly two, and a character left over stays. *)
Theorem adjustColor_keeps_the_length :
  forall (rest : string) (amount : Z),
    String.length (adjustColor (String "#" rest) amount)
    = String.length (String "#" rest).
Proof.
  intros rest amount. unfold adjustColor.
  cbn [String.eqb strip_hash Ascii.eqb Bool.eqb append String.length].
  rewrite replace_pairs_length by apply adjust_pair_length. reflexivity.
Qed.

(** X7. A three-digit colour is not adjusted channel by channel: its first
    two digits are moved as if they were one channel, and its third digit is
    left as it is. *)
Theorem adjustColor_on_three_digits :
  forall (x y z : ascii) (v amount : Z),
    hex_pair_value x y = Some v ->
    adjustColor (String "#" (String x (String y (String z "")))) amount
    = ("#" ++ hex2 (clamp (v + amount)) ++ String z "")%string.
Proof.
  intros x y z v amount Hv.
  destruct (hex_pair_facts _ _ _ Hv) as (L1 & L2 & _).
  unfold adjustColor. cbn [String.eqb Ascii.eqb Bool.eqb strip_hash].
  cbn [replace_pairs]. rewrite L1, L2. cbn [orb].
  rewrite (adjust_pair_hex amount _ _ _ Hv). reflexivity.
Qed.

Lemma hexToRgba_six_digits (c0 h1 h2 h3 h4 h5 h6 : ascii) (r g b : Z)
  (alpha : number) :
  hex_pair_value h1 h2 = Some r ->
  hex_pair_value h3 h4 = Some g ->
  hex_pair_value h5 h6 = Some b ->
  hexToRgba
    (String c0 (String h1 (String h2 (String h3 (String h4 (String h5 (String h6 "")))))))
    alpha
  = rgba (Some r) (Some g) (Some b) alpha.
Proof.
  intros Hr Hg Hb.
  destruct (hex_pair_facts _ _ _ Hr) as (_ & _ & _ & _ & Pr).
  destruct (hex_pair_facts _ _ _ Hg) as (_ & _ & _ & _ & Pg).
  destruct (hex_pair_facts _ _ _ Hb) as (_ & _ & _ & _ & Pb).
  unfold hexToRgba, char_at.
  cbn [String.eqb String.length Nat.eqb String.get].
  rewrite Pr, Pg, Pb. reflexivity.
Qed.

(** X8. A colour of seven characters whose last six are hexadecimal digits
    is written [rgba(r,g,b,alpha)] with the three channels the digits
    denote, in decimal; the first character is not looked at. *)
Theorem hexToRgba_reads_six_digits :
  forall (c0 h1 h2 h3 h4 h5 h6 : ascii) (r g b : Z) (alpha : number),
    hex_pair_value h1 h2 = Some r ->
    hex_pair_value h3 h4 = Some g ->
    hex_pair_value h5 h6 = Some b ->
    hexToRgba
      (String c0 (String h1 (String h2 (String h3 (String h4 (String h5 (String h6 "")))))))
      alpha
    = ("rgba(" ++ show_integer (Some r) ++ "," ++ show_integer (Some g) ++ ","
       ++ show_integer (Some b) ++ "," ++ number_to_string alpha ++ ")")%string
    /\ 0 <= r <= 255 /\ 0 <= g <= 255 /\ 0 <= b <= 255.
Proof.
  intros c0 h1 h2 h3 h4 h5 h6 r g b alpha Hr Hg Hb.
  destruct (hex_pair_facts _ _ _ Hr) as (_ & _ & Rr & _).
  destruct (hex_pair_facts _ _ _ Hg) as (_ & _ & Rg & _).
  destruct (hex_pair_facts _ _ _ Hb) as (_ & _ & Rb & _).
  split; [|repeat split; lia].
  apply hexToRgba_six_digits; assumption.
Qed.

(** X9. The short form agrees with the long one: for any three characters
    [x], [y], [z], the colour [#xyz] is written as the colour [#xxyyzz] is;
    when they are hexadecimal digits each channel is the digit doubled. *)
Theorem hexToRgba_short_form_is_doubled :
  forall (c0 x y z : ascii) (alpha : number),
    hexToRgba (String c0 (String x (String y (String z "")))) alpha
    = hexToRgba
        (String c0 (String x (String x (String y (String y (String z (String z "")))))))
        alpha
    /\ forall r g b,
         hex_pair_value x x = Some r ->
         hex_pair_value y y = Some g ->
         hex_pair_value z z = Some b ->
         hexToRgba (String c0 (String x (String y (String z "")))) alpha
         = rgba (Some r) (Some g) (Some b) alpha.
Proof.
  intros c0 x y z alpha.
  assert (Hsame :
    hexToRgba (String c0 (String x (String y (String z "")))) alpha
    = hexToRgba
        (String c0 (String x (String x (String y (String y (String z (String z "")))))))
        alpha) by reflexivity.
  split; [exact Hsame|].
  intros r g b Hr Hg Hb. rewrite Hsame.
  apply hexToRgba_six_digits; assumption.
Qed.

(** X10. The two helpers compose: the [rgba] writing of an adjusted
    six-digit colour has the channels moved by [amount] and kept between 0
    and 255. *)
Theorem hexToRgba_of_adjusted_colour :
  forall (h1 h2 h3 h4 h5 h6 : ascii) (r g b amount : Z) (alpha : number),
    hex_pair_value h1 h2 = Some r ->
    hex_pair_value h3 h4 = Some g ->
    hex_pair_value h5 h6 = Some b ->
    hexToRgba
      (adjustColor
         (String "#" (String h1 (String h2 (String h3 (String h4 (String h5 (String h6 "")))))))
         amount)
      alpha
    = rgba (Some (clamp (r + amount))) (Some (clamp (g + amount)))
        (Some (clamp (b + amount))) alpha.
Proof.
  intros h1 h2 h3 h4 h5 h6 r g b amount alpha Hr Hg Hb.
  rewrite (adjustColor_six_digits _ _ _ _ _ _ r g b amount Hr Hg Hb).
  destruct (color_of_digits (clamp (r + amount)) (clamp (g + amount))
              (clamp (b + amount)) (clamp_range _) (clamp_range _) (clamp_range _))
    as (k1 & k2 & k3 & k4 & k5 & k6 & -> & Kr & Kg & Kb).
  apply hexToRgba_six_digits; assumption.
Qed.

(** ** Reading back a data URL *)

Lemma split_comma_free (s : string) : comma_free s -> split_comma s = [s].
Proof.
  induction s as [|c s IH]; intro H; [reflexivity|].
  cbn [split_comma].
  assert (Hc : Ascii.eqb c "," = false).
  { apply Ascii.eqb_neq. apply H. left. reflexivity. }
  rewrite Hc, IH; [reflexivity|].
  intros d Hd. apply H. right. exact Hd.
Qed.

Lemma split_comma_header (header rest : string) :
  comma_free header ->
  split_comma (header ++ "," ++ rest)%string = header :: split_comma rest.
Proof.
  induction header as [|c header IH]; intro H; [reflexivity|].
  cbn [append split_comma].
  assert (Hc : Ascii.eqb c "," = false).
  { apply Ascii.eqb_neq. apply H. left. reflexivity. }
  rewrite Hc. cbn [append] in IH. rewrite IH; [reflexivity|].
  intros d Hd. apply H. right. exact Hd.
Qed.

(** X11. From a data URL, a header without comma, a comma, and a payload
    without comma, [fileToBase64] resolves with the payload exactly; from a
    text without any comma it resolves with [undefined]. *)
Theorem fileToBase64_gives_the_payload :
  forall (header payload : string),
    comma_free header ->
    comma_free payload ->
    base64_of_data_url (header ++ "," ++ payload)%string = Some payload
    /\ base64_of_data_url payload = None.
Proof.
  intros header payload Hh Hp. unfold base64_of_data_url. split.
  - rewrite split_comma_header by exact Hh.
    rewrite split_comma_free by exact Hp. reflexivity.
  - rewrite split_comma_free by exact Hp. reflexivity.
Qed.

(** ** The page and the relay together *)

Lemma truthy_or_else (a b : value) :
  truthy (or_else a b) = truthy a || truthy b.
Proof. unfold or_else. destruct (truthy a) eqn:Ha; [exact Ha|reflexivity]. Qed.

Lemma truthy_and_then (a b : value) :
  truthy (and_then a b) = truthy a && truthy b.
Proof. unfold and_then. destruct (truthy a) eqn:Ha; [reflexivity|exact Ha]. Qed.

(** X12. In random mode the word of concept 2 never reaches the model, and
    with an image neither does the word of concept 1.  So when concept 2
    alone has a word, which enables ``Merge with Random'', the request asks
    for a hybrid of ``a mystery object'' whatever that word is. *)
Theorem random_mode_drops_words :
  forall (st : page_state) (w2 : string),
    geminiPayload (setInput2 w2 st) true = geminiPayload st true
    /\ (truthy (or_else (image1Base64 st) (image2Base64 st)) = true ->
        forall w1,
          geminiPayload (setInput1 w1 (setInput2 w2 st)) true
          = geminiPayload st true)
    /\ (input1 st = ""%string ->
        truthy (or_else (image1Base64 st) (image2Base64 st)) = false ->
        isLoading st = false ->
        random_disabled (setInput2 w2 st) = negb (truthy (VStr w2))
        /\ request_parts st true
           = [text_part "Generate an Italian-sounding merged name, its English translation, and a visual description for an artistic hybrid of a **a mystery object** and a **randomly chosen, dramatically different object**."]).
Proof.
  intros st w2. split; [reflexivity|split].
  - intros Himage w1. unfold geminiPayload, request_parts, setInput1, setInput2.
    cbn [input1 image1Base64 image2Base64]. rewrite Himage. reflexivity.
  - intros Hword Himage Hloading. split.
    + unfold random_disabled, isReadyForRandom, isReadyToGenerate,
        concept1, concept2, setInput2.
      cbn [input1 input2 image1Base64 image2Base64 isLoading].
      rewrite truthy_or_else in Himage. apply orb_false_elim in Himage.
      destruct Himage as [H1 H2].
      rewrite truthy_and_then, !truthy_or_else, H1, H2, Hword, Hloading.
      cbn [truthy String.eqb negb orb andb].
      destruct (String.eqb w2 ""); reflexivity.
    + unfold request_parts. rewrite Himage, Hword. reflexivity.
Qed.

(** X13. The two generating buttons are never enabled together, and no
    enabled button leads to the refusal ``Please provide at least one word
    or image'': an enabled Fuse or Merge with Random finds an input, and
    Re-Roll asks with [isReroll] set. *)
Theorem buttons_are_never_refused :
  forall (st : page_state),
    (fuse_disabled st = false -> random_disabled st = true)
    /\ (fuse_disabled st = false ->
        fst (generateFusion_start st false) = Proceeds)
    /\ (random_disabled st = false ->
        fst (generateFusion_start st false) = Proceeds)
    /\ (reroll_disabled st = false ->
        fst (generateFusion_start st true) = Proceeds).
Proof.
  intro st.
  unfold fuse_disabled, random_disabled, reroll_disabled, generateFusion_start,
    isReadyToGenerate, isReadyForRandom.
  rewrite truthy_and_then, !truthy_or_else.
  destruct (isLoading st), (truthy (concept1 st)), (truthy (concept2 st)),
    (truthy (resultImage st)); cbn; repeat split; intros; congruence.
Qed.

(** What the handler has sent when it returns: nothing, one error with a
    message that is not empty, or one whole result with a truthy name and a
    truthy translation. *)
Lemma handler_sent_cases (upstream : upstream_model)
  (GOOGLE_API_KEY : option string) (req : request) :
  sent (snd (handler upstream GOOGLE_API_KEY req [])) = []
  \/ (exists code msg,
        (code = 405 \/ code = 500) /\ msg <> ""%string
        /\ sent (snd (handler upstream GOOGLE_API_KEY req []))
           = [(code, error_body msg)])
  \/ (exists name translation imageUrl,
        truthy name = true /\ truthy translation = true
        /\ sent (snd (handler upstream GOOGLE_API_KEY req []))
           = [(200, fusion_result name translation imageUrl)]).
Proof.
  destruct (String.eqb (method req) "POST") eqn:Hmethod.
  - destruct GOOGLE_API_KEY as [[|a key]|].
    + right; left. exists 500, "API key not configured."%string.
      unfold handler. rewrite Hmethod. cbn.
      repeat split; [right; reflexivity|discriminate].
    + destruct (is_nullish (body req)) eqn:Hbody.
      * left. unfold handler. rewrite Hmethod. cbn [negb].
        unfold destructure_geminiPayload, bind, lift.
        destruct (body req); try discriminate Hbody; reflexivity.
      * assert (Hreach : reaches_relay (String a key) req).
        { repeat split; [apply String.eqb_eq; exact Hmethod|discriminate|exact Hbody]. }
        destruct (handler_cases upstream (String a key) req Hreach)
          as [(e & t' & Hsent & Hrun)
             |(name & translation & imageUrl & Hboth & Hfst & Hsent)].
        -- right; left. exists 500, (message_or_default e).
           rewrite Hrun. cbn [snd].
           split; [right; reflexivity|split; [apply message_or_default_nonempty|]].
           apply sent_caught. exact Hsent.
        -- right; right. exists name, translation, imageUrl.
           destruct Hboth as (k1 & geminiResult & text & k2 & r2 & im & d & data
                              & _ & _ & _ & _ & _ & _ & _ & _ & -> & -> & _).
           destruct (idea_of_truthy geminiResult) as (Hn & Ht & _).
           conjuncts.
    + right; left. exists 500, "API key not configured."%string.
      unfold handler. rewrite Hmethod. cbn.
      repeat split; [right; reflexivity|discriminate].
  - right; left. exists 405, "Method Not Allowed"%string.
    unfold handler. rewrite Hmethod. cbn.
    repeat split; [left; reflexivity|discriminate].
Qed.

(** The two bodies of the handler on their way to the page. *)
Lemma wire_error_body (msg : string) : wire (error_body msg) = error_body msg.
Proof. reflexivity. Qed.

Lemma wire_fusion_result (name translation : value) (imageUrl : string) :
  truthy name = true ->
  truthy translation = true ->
  wire (fusion_result name translation imageUrl)
  = fusion_result (wire name) (wire translation) imageUrl.
Proof.
  intros Hname Htranslation.
  destruct name; try discriminate Hname;
    destruct translation; try discriminate Htranslation; reflexivity.
Qed.

(** X14. The page reads back what the handler sent.  A whole result gives
    the page the name and the translation of the body, as [JSON.stringify]
    and [JSON.parse] pass them on (a string as it is), and the image URL of
    the body.  An error gives the message of the handler, which is never
    empty: the page shows ``A server error occurred: '' followed by it, and
    its own text for an unknown error is never used for an answer of the
    handler. *)
Theorem page_reads_what_the_handler_sent :
  forall (upstream : upstream_model) (GOOGLE_API_KEY : option string)
         (req : request) (code : Z) (body : value),
    sent (snd (handler upstream GOOGLE_API_KEY req [])) = [(code, body)] ->
    (exists name translation imageUrl,
        code = 200
        /\ body = fusion_result name translation imageUrl
        /\ read_response (Normal (delivered code body))
           = Normal (wire name, wire translation, VStr imageUrl)
        /\ (forall s, name = VStr s -> wire name = VStr s)
        /\ (forall s, translation = VStr s -> wire translation = VStr s))
    \/ (exists msg,
          (code = 405 \/ code = 500)
          /\ msg <> ""%string
          /\ body = error_body msg
          /\ read_response (Normal (delivered code body)) = Throw (Error msg)
          /\ error_text (Error msg)
             = ("A server error occurred: " ++ msg
                ++ ". Please check your Vercel logs.")%string).
Proof.
  intros upstream GOOGLE_API_KEY req code body Hsent.
  destruct (handler_sent_cases upstream GOOGLE_API_KEY req)
    as [H|[(code' & msg & Hcode & Hmsg & H)
          |(name & translation & imageUrl & Hname & Htranslation & H)]];
    rewrite Hsent in H; [discriminate| |].
  - right. injection H as -> ->. exists msg.
    repeat split; [exact Hcode|exact Hmsg|].
    unfold read_response, delivered. rewrite wire_error_body. cbn [json].
    assert (Hok : ok (mkResponse code' (Normal (error_body msg))) = false)
      by (destruct Hcode as [-> | ->]; reflexivity).
    rewrite Hok. cbn [negb].
    unfold error_body, get, own_property. cbn [find_member String.eqb Ascii.eqb Bool.eqb].
    unfold or_else. cbn [truthy].
    apply String.eqb_neq in Hmsg. rewrite Hmsg. reflexivity.
  - left. injection H as -> ->. exists name, translation, imageUrl.
    split; [reflexivity|split; [reflexivity|split; [|split]]].
    + unfold read_response, delivered.
      rewrite (wire_fusion_result _ _ _ Hname Htranslation). reflexivity.
    + intros s ->. reflexivity.
    + intros s ->. reflexivity.
Qed.

(** ** More on the relay *)

(** X15. The fallback covers the text of the idea only.  When the body of
    the stage-1 response is not JSON, whatever its status, the handler
    answers 500 with the message of the parser (the generic message if that
    is empty) and never calls the image service. *)
Theorem stage1_body_not_json_is_fatal :
  forall (upstream : upstream_model) (API_KEY : string) (req : request)
         (k : nat) (resp : response) (e : js_error),
    reaches_relay API_KEY req ->
    answers_after upstream 0 (gemini_request API_KEY req) k resp ->
    json resp = Throw e ->
    fetches (snd (handler upstream (Some API_KEY) req []))
    = repeat (gemini_request API_KEY req) (k + 1)
    /\ sent (snd (handler upstream (Some API_KEY) req []))
       = [(500, error_body (message_or_default e))].
Proof.
  intros upstream API_KEY req k resp e Hreach Hans Hjson.
  rewrite (handler_stage1_throws upstream API_KEY req k resp e Hreach Hans).
  2:{ intro t. apply checked_json_throws. exact Hjson. }
  cbn [snd]. split.
  - rewrite fetches_app, fetches_retry_trace. cbn [caught fetches].
    rewrite app_nil_r. replace (k + 1)%nat with (S k) by lia. reflexivity.
  - rewrite sent_app, sent_retry_trace. reflexivity.
Qed.

(** X16. An error status whose body does not have the form
    [{ error: { message } }] loses the upstream status: when reading
    [err.error.message] throws, because the body is [null] or [err.error] is
    missing or [null], the handler answers 500 with the message of that
    [TypeError], without the prefix ["Gemini API Error: "]. *)
Theorem stage1_error_without_message_is_a_type_error :
  forall (upstream : upstream_model) (API_KEY : string) (req : request)
         (k : nat) (resp : response) (err : value) (e : js_error),
    reaches_relay API_KEY req ->
    answers_after upstream 0 (gemini_request API_KEY req) k resp ->
    ok resp = false ->
    json resp = Normal err ->
    (get err "error" = Throw e
     \/ exists err_error,
          get err "error" = Normal err_error
          /\ get err_error "message" = Throw e) ->
    err_name e = "TypeError"%string
    /\ sent (snd (handler upstream (Some API_KEY) req []))
       = [(500, error_body (message_or_default e))].
Proof.
  intros upstream API_KEY req k resp err e Hreach Hans Hok Hjson Hshape.
  split.
  - destruct Hshape as [H|(err_error & _ & H)];
      [destruct err|destruct err_error]; cbn in H; try discriminate H;
      injection H as <-; reflexivity.
  - rewrite (handler_stage1_throws upstream API_KEY req k resp e Hreach Hans).
    2:{ intro t. unfold checked_json. rewrite Hok. cbn [negb].
        unfold bind, lift. rewrite Hjson.
        destruct Hshape as [H|(err_error & H1 & H2)].
        - rewrite H. reflexivity.
        - rewrite H1, H2. reflexivity. }
    cbn [snd]. rewrite sent_app, sent_retry_trace. reflexivity.
Qed.

(** What one retried fetch costs: at most three calls, all of the same
    request, and at most 3000 milliseconds of pauses. *)
Lemma retry_trace_cost (req : fetch_request) (k : nat) :
  (k <= 2)%nat ->
  fetches (retry_trace (Fetch req) 1000 0 k) = repeat req (S k)
  /\ 0 <= total (sleeps (retry_trace (Fetch req) 1000 0 k)) <= 3000.
Proof.
  intro Hk. split; [apply fetches_retry_trace|].
  destruct k as [|[|[|k]]]; cbn; lia.
Qed.

Lemma total_app (l m : list Z) : total (l ++ m) = total l + total m.
Proof.
  unfold total. induction l as [|x l IH]; cbn [app fold_right]; [reflexivity|].
  rewrite IH. lia.
Qed.

Lemma generate_idea_shape (upstream : upstream_model) (API_KEY : string)
  (payload : value) (t : trace) :
  exists k log,
    (k <= 2)%nat /\ fetches log = [] /\ sleeps log = []
    /\ snd (generate_idea upstream API_KEY payload t)
       = t ++ retry_trace (Fetch (post_json (GEMINI_API_URL API_KEY) payload)) 1000 0 k
           ++ log.
Proof.
  unfold generate_idea. unfold bind at 1.
  destruct (fetch_stage_shape upstream (post_json (GEMINI_API_URL API_KEY) payload) t)
    as (k & Hk & Hshape).
  destruct (withRetry_default _ t) as [[returned|e] t1]; cbn [snd] in Hshape;
    subst t1.
  - unfold bind.
    pose proof (checked_json_pure "Gemini API Error: " returned
                  (t ++ retry_trace (Fetch (post_json (GEMINI_API_URL API_KEY) payload)) 1000 0 k))
      as Hpure.
    destruct (checked_json _ returned _) as [[geminiResult|e] t2];
      cbn [snd] in Hpure; subst t2.
    + exists k, (stage1_log geminiResult).
      rewrite stage1_idea_spec, fetches_stage1_log, sleeps_stage1_log, <- app_assoc.
      repeat split; [exact Hk].
    + exists k, []. rewrite app_nil_r. repeat split; [exact Hk].
  - exists k, []. rewrite app_nil_r. repeat split; [exact Hk].
Qed.

Lemma respond_shape (vars : idea) (returned : option response) (t : trace) :
  exists log,
    fetches log = [] /\ sleeps log = []
    /\ snd (respond vars returned t) = t ++ log.
Proof.
  destruct (respond_cases vars returned t)
    as [(e & ->)|(r2 & im & d & data & _ & _ & _ & _ & _ & _ & ->)].
  - exists []. rewrite app_nil_r. repeat split.
  - exists [ESend 200
              (fusion_result (generatedName vars) (generatedTranslation vars)
                 ("data:image/png;base64," ++ data)%string)].
    repeat split.
Qed.

(** Stage 2 issues no call at all, or one to three calls of one request. *)
Lemma generate_image_shape (upstream : upstream_model) (API_KEY : string)
  (vars : idea) (t : trace) :
  exists b text log,
    (b <= 3)%nat
    /\ 0 <= total (sleeps log) <= 3000
    /\ snd (generate_image upstream API_KEY vars t)
       = t ++ log
    /\ fetches (snd (generate_image upstream API_KEY vars t))
       = fetches t ++ repeat (imagen_request API_KEY text) b.
Proof.
  destruct (ToString (finalImagePrompt vars)) as [text|e] eqn:Htext.
  - rewrite (generate_image_starts _ _ _ _ _ Htext). unfold bind at 1 2.
    destruct (fetch_stage_shape upstream (imagen_request API_KEY text) t)
      as (k & Hk & Hshape).
    destruct (retry_trace_cost (imagen_request API_KEY text) k Hk) as (Hf & Hs).
    destruct (withRetry_default _ t) as [[returned|e] t1]; cbn [snd] in Hshape;
      subst t1.
    + destruct (respond_shape vars returned
                  (t ++ retry_trace (Fetch (imagen_request API_KEY text)) 1000 0 k))
        as (log & Hlog1 & Hlog2 & ->).
      exists (S k), text,
        (retry_trace (Fetch (imagen_request API_KEY text)) 1000 0 k ++ log).
      rewrite !fetches_app, !sleeps_app, !total_app, Hf, Hlog1, Hlog2.
      cbn [total fold_right]. rewrite <- !app_assoc, !app_nil_r.
      repeat split; lia.
    + exists (S k), text,
        (retry_trace (Fetch (imagen_request API_KEY text)) 1000 0 k).
      cbn [snd]. rewrite !fetches_app, Hf.
      repeat split; lia.
  - rewrite (generate_image_no_text _ _ _ _ _ Htext). cbn [snd].
    exists 0%nat, ""%string, []. rewrite !app_nil_r.
    repeat split; cbn; lia.
Qed.

Lemma relay_cost (upstream : upstream_model) (API_KEY : string) (payload : value) :
  exists a b prompt,
    (1 <= a <= 3)%nat /\ (b <= 3)%nat
    /\ fetches (snd (relay upstream API_KEY payload []))
       = repeat (post_json (GEMINI_API_URL API_KEY) payload) a
         ++ repeat (imagen_request API_KEY prompt) b
    /\ 0 <= total (sleeps (snd (relay upstream API_KEY payload []))) <= 6000.
Proof.
  unfold relay, bind.
  destruct (generate_idea_shape upstream API_KEY payload [])
    as (k1 & log1 & Hk1 & F1 & S1 & Hshape1).
  destruct (retry_trace_cost (post_json (GEMINI_API_URL API_KEY) payload) k1 Hk1)
    as (Hf1 & Hs1).
  destruct (generate_idea upstream API_KEY payload []) as [[vars|e] t1];
    cbn [snd app] in Hshape1; subst t1.
  - destruct (generate_image_shape upstream API_KEY vars
                (retry_trace (Fetch (post_json (GEMINI_API_URL API_KEY) payload)) 1000 0 k1
                 ++ log1))
      as (b & text & log2 & Hb & S2 & Hshape2 & Hfetches2).
    exists (S k1), b, text.
    rewrite Hfetches2. rewrite Hshape2.
    rewrite !fetches_app, !sleeps_app, !total_app, Hf1, F1, S1.
    cbn [total fold_right app]. rewrite !app_nil_r.
    repeat split; lia.
  - exists (S k1), 0%nat, ""%string. cbn [snd].
    rewrite !fetches_app, !sleeps_app, !total_app, Hf1, F1, S1.
    cbn [total fold_right app repeat]. rewrite !app_nil_r.
    repeat split; lia.
Qed.

(** The cost of a run that reaches the outer [try]. *)
Lemma handler_cost (upstream : upstream_model) (API_KEY : string) (req : request) :
  reaches_relay API_KEY req ->
  exists a b prompt,
    (1 <= a <= 3)%nat /\ (b <= 3)%nat
    /\ fetches (snd (handler upstream (Some API_KEY) req []))
       = repeat (gemini_request API_KEY req) a
         ++ repeat (imagen_request API_KEY prompt) b
    /\ 0 <= total (sleeps (snd (handler upstream (Some API_KEY) req []))) <= 6000.
Proof.
  intro Hreach.
  destruct (relay_cost upstream API_KEY (member "geminiPayload" (body req)))
    as (a & b & prompt & Ha & Hb & Hf & Hs).
  exists a, b, prompt.
  destruct (relay upstream API_KEY (member "geminiPayload" (body req)) [])
    as [[[]|e] t'] eqn:Hrelay; cbn [snd] in Hf, Hs.
  - rewrite (handler_passes _ _ _ _ _ Hreach Hrelay). cbn [snd].
    repeat split; try lia; exact Hf.
  - rewrite (handler_catches _ _ _ _ _ _ Hreach Hrelay). cbn [snd].
    rewrite fetches_app, sleeps_app, total_app.
    cbn [caught fetches sleeps total fold_right].
    rewrite app_nil_r. repeat split; try lia; exact Hf.
Qed.

(** X17. Whatever the upstream services do, one invocation costs at most
    three calls of the text service followed by at most three calls of the
    image service, none of the second without one of the first, and at most
    6000 milliseconds of pauses. *)
Theorem handler_effort_is_bounded :
  forall (upstream : upstream_model) (API_KEY : string) (req : request),
  exists a b prompt,
    (a <= 3)%nat /\ (b <= 3)%nat /\ (a = 0%nat -> b = 0%nat)
    /\ fetches (snd (handler upstream (Some API_KEY) req []))
       = repeat (gemini_request API_KEY req) a
         ++ repeat (imagen_request API_KEY prompt) b
    /\ 0 <= total (sleeps (snd (handler upstream (Some API_KEY) req []))) <= 6000.
Proof.
  intros upstream API_KEY req.
  destruct (String.eqb (method req) "POST") eqn:Hmethod.
  - destruct API_KEY as [|c key].
    + exists 0%nat, 0%nat, ""%string. unfold handler. rewrite Hmethod. cbn.
      repeat split; lia.
    + destruct (is_nullish (body req)) eqn:Hbody.
      * exists 0%nat, 0%nat, ""%string. unfold handler. rewrite Hmethod.
        cbn [negb]. unfold destructure_geminiPayload, bind, lift.
        destruct (body req); try discriminate Hbody; cbn; repeat split; lia.
      * assert (Hreach : reaches_relay (String c key) req).
        { repeat split; [apply String.eqb_eq; exact Hmethod|discriminate|exact Hbody]. }
        destruct (handler_cost upstream (String c key) req Hreach)
          as (a & b & prompt & Ha & Hb & Hf & Hs).
        exists a, b, prompt. repeat split; try lia; exact Hf.
  - exists 0%nat, 0%nat, ""%string. unfold handler. rewrite Hmethod. cbn.
    repeat split; lia.
Qed.

(** ** The handlers of the inputs *)

(** X18. Each handler keeps the word and the image of its concept apart, on
    either card, and leaves the other card alone: after a text change the
    concept has not both a word and an image, and an accepted file (of at
    most 2 * 1024 * 1024 bytes) clears the word and the image before it is
    read.  But not across a read in progress: a word typed before the read
    ends stays when the image arrives, and then both inputs of the card are
    disabled; Clear Inputs enables them again. *)
Theorem word_and_image_apart_except_across_a_read :
  forall (c : card) (st : page_state),
    (forall text,
        truthy (VStr (card_input c (card_text_change c text st)))
        && truthy (card_image c (card_text_change c text st))
        = false)
    /\ (forall size,
          size <= 2 * 1024 * 1024 ->
          card_image_change c (Some size) st
          = (card_setInput c "" (card_setImage c VNull (setError VNull st)), true)
          /\ card_input c (fst (card_image_change c (Some size) st)) = ""%string
          /\ card_image c (fst (card_image_change c (Some size) st)) = VNull)
    /\ (forall size text data,
          size <= 2 * 1024 * 1024 ->
          text <> ""%string ->
          data <> ""%string ->
          text_input_disabled
            (fst (card_image_change c (Some size) st))
            (card_image c (fst (card_image_change c (Some size) st)))
          = isLoading st
          /\ card_input c
               (card_read_done c (Some data)
                  (card_text_change c text
                     (fst (card_image_change c (Some size) st))))
             = text
          /\ card_image c
               (card_read_done c (Some data)
                  (card_text_change c text
                     (fst (card_image_change c (Some size) st))))
             = VStr data
          /\ text_input_disabled st (VStr data) = true
          /\ file_input_disabled st text = true)
    /\ (forall (other : card) text file resolved,
          other <> c ->
          card_input other (card_text_change c text st) = card_input other st
          /\ card_image other (card_text_change c text st) = card_image other st
          /\ card_input other (fst (card_image_change c file st))
             = card_input other st
          /\ card_image other (fst (card_image_change c file st))
             = card_image other st
          /\ card_input other (card_read_done c resolved st) = card_input other st
          /\ card_image other (card_read_done c resolved st) = card_image other st)
    /\ text_input_disabled (handleClearInputs st)
         (card_image c (handleClearInputs st)) = isLoading st
    /\ file_input_disabled (handleClearInputs st)
         (card_input c (handleClearInputs st)) = isLoading st.
Proof.
  intros c st. split; [|split; [|split; [|split]]].
  - intro text. unfold card_text_change, handleTextChange.
    destruct c; destruct (truthy (VStr text)) eqn:Htext;
      cbn [card_input card_image card_setInput card_setImage input1 input2
             image1Base64 image2Base64 setInput1 setInput2 setImage1Base64
             setImage2Base64 truthy];
      try apply andb_false_r;
      cbn [truthy] in Htext; rewrite Htext; reflexivity.
  - intros size Hsize. unfold card_image_change, handleImageChange.
    assert (H : (2 * 1024 * 1024 <? size) = false) by (apply Z.ltb_ge; exact Hsize).
    rewrite H. destruct c; repeat split.
  - intros size text data Hsize Htext Hdata.
    assert (H : (2 * 1024 * 1024 <? size) = false) by (apply Z.ltb_ge; exact Hsize).
    apply String.eqb_neq in Htext. apply String.eqb_neq in Hdata.
    unfold card_image_change, card_text_change, card_read_done,
      handleImageChange, handleTextChange, read_done, text_input_disabled,
      file_input_disabled.
    rewrite H. cbn [fst truthy]. rewrite Htext, Hdata. cbn [negb].
    destruct c; cbn; repeat split; try apply orb_true_r; apply orb_false_r.
  - intros other text file resolved Hother.
    unfold card_text_change, card_image_change, card_read_done,
      handleTextChange, handleImageChange, read_done.
    destruct c, other; try congruence;
      destruct (truthy (VStr text));
      destruct file as [size|]; try destruct (2 * 1024 * 1024 <? size);
      repeat split.
  - unfold text_input_disabled, file_input_disabled, handleClearInputs.
    destruct c; cbn; split; apply orb_false_r.
Qed.

(** X19. A request of the page, with the key configured, is always
    answered, exactly once, the handler returning normally; and the text
    service is called at least once, each time with the payload the page
    built, unchanged. *)
Theorem page_request_is_answered_once :
  forall (upstream : upstream_model) (API_KEY : string) (st : page_state)
         (useRandom : bool),
    API_KEY <> ""%string ->
    fst (handler upstream (Some API_KEY) (page_request st useRandom) []) = Normal tt
    /\ (exists code body,
          sent (snd (handler upstream (Some API_KEY) (page_request st useRandom) []))
          = [(code, body)])
    /\ (exists a b prompt,
          (1 <= a <= 3)%nat /\ (b <= 3)%nat
          /\ fetches (snd (handler upstream (Some API_KEY)
                             (page_request st useRandom) []))
             = repeat (post_json (GEMINI_API_URL API_KEY) (geminiPayload st useRandom)) a
               ++ repeat (imagen_request API_KEY prompt) b).
Proof.
  intros upstream API_KEY st useRandom Hkey.
  assert (Hreach : reaches_relay API_KEY (page_request st useRandom))
    by (repeat split; exact Hkey).
  split; [|split].
  - destruct (handler_cases upstream API_KEY _ Hreach)
      as [(e & t' & _ & ->)|(name & translation & imageUrl & _ & Hfst & _)];
      [reflexivity|exact Hfst].
  - destruct (handler_cases upstream API_KEY _ Hreach)
      as [(e & t' & Hsent & ->)|(name & translation & imageUrl & _ & _ & Hsent)].
    + eexists _, _. cbn [snd]. apply sent_caught. exact Hsent.
    + eexists _, _. exact Hsent.
  - destruct (handler_cost upstream API_KEY _ Hreach)
      as (a & b & prompt & Ha & Hb & Hf & _).
    exists a, b, prompt. repeat split; try lia. exact Hf.
Qed.

(** X21. The request of the page reaches the handler as the page built it:
    with images that are strings, as [fileToBase64] resolves them, or that
    are [null] or [undefined], the body [{ geminiPayload }] written by
    [JSON.stringify] and read back is the body again. *)
Theorem page_request_survives_the_wire :
  forall (st : page_state) (useRandom : bool),
    (image1Base64 st = VNull \/ image1Base64 st = VUndefined
     \/ exists data, image1Base64 st = VStr data) ->
    (image2Base64 st = VNull \/ image2Base64 st = VUndefined
     \/ exists data, image2Base64 st = VStr data) ->
    wire (body (page_request st useRandom)) = body (page_request st useRandom).
Proof.
  intros st useRandom H1 H2.
  destruct st as [word1 word2 image1 image2 name translation image loading err].
  cbn [image1Base64 image2Base64] in H1, H2.
  unfold page_request, geminiPayload, request_parts, or_string, or_else.
  cbn [body input1 input2 image1Base64 image2Base64].
  destruct H1 as [->|[->|[data1 ->]]]; destruct H2 as [->|[->|[data2 ->]]];
    destruct useRandom; cbn [truthy negb];
    repeat match goal with
           | |- context [String.eqb ?s ""] =>
               let H := fresh "Hempty" in
               destruct (String.eqb s "") eqn:H; cbn [truthy negb]; try rewrite H
           end;
    cbn [negb]; reflexivity.
Qed.

(** ** The history *)

Section HistoryOrder.
Context {A : Type}.
Variable millis : A -> option Z.

Let later_or_same (a b : A) : Prop := sort_key millis b <= sort_key millis a.

Lemma insert_sorted_permutation (x : A) (l : list A) :
  Permutation (insert_sorted (newest_first millis) x l) (x :: l).
Proof.
  induction l as [|y ys IH]; cbn [insert_sorted]; [reflexivity|].
  destruct (newest_first millis x y <=? 0); [reflexivity|].
  rewrite IH. apply perm_swap.
Qed.

Lemma insert_sorted_keeps_order (x : A) (l : list A) :
  StronglySorted later_or_same l ->
  StronglySorted later_or_same (insert_sorted (newest_first millis) x l).
Proof.
  induction 1 as [|y ys Hsorted IH Hall]; cbn [insert_sorted].
  - constructor; constructor.
  - destruct (Z.leb_spec (newest_first millis x y) 0) as [Hle|Hgt];
      unfold newest_first in *.
    + constructor; [constructor; assumption|].
      constructor; [unfold later_or_same; lia|].
      eapply Forall_impl; [|exact Hall].
      unfold later_or_same. intros z Hz. lia.
    + constructor; [exact IH|].
      apply Forall_forall. intros z Hz.
      apply (Permutation_in _ (insert_sorted_permutation x ys)) in Hz.
      destruct Hz as [<-|Hz]; [unfold later_or_same; lia|].
      exact (proj1 (Forall_forall _ _) Hall z Hz).
Qed.

Lemma insert_sorted_filter (k : Z) (x : A) (l : list A) :
  filter (fun item => sort_key millis item =? k)
    (insert_sorted (newest_first millis) x l)
  = filter (fun item => sort_key millis item =? k) (x :: l).
Proof.
  induction l as [|y ys IH]; cbn [insert_sorted]; [reflexivity|].
  destruct (Z.leb_spec (newest_first millis x y) 0) as [Hle|Hgt];
    [reflexivity|].
  unfold newest_first in Hgt.
  cbn [filter] in *. rewrite IH.
  destruct (Z.eqb_spec (sort_key millis x) k) as [Hx|Hx];
    destruct (Z.eqb_spec (sort_key millis y) k) as [Hy|Hy];
    try reflexivity.
  lia.
Qed.

(** X20. The history is shown newest first: the sorted list has the items of
    the snapshot, each as often; no item comes before one with a later
    timestamp, an item without timestamp counting as time 0; and items of
    one and the same time keep the order of the snapshot. *)
Theorem history_is_newest_first :
  forall (items : list A),
    Permutation (newHistory millis items) items
    /\ StronglySorted
         (fun a b => sort_key millis b <= sort_key millis a)
         (newHistory millis items)
    /\ forall k,
         filter (fun item => sort_key millis item =? k) (newHistory millis items)
         = filter (fun item => sort_key millis item =? k) items.
Proof.
  intro items. unfold newHistory, array_sort.
  induction items as [|x items (IHperm & IHsorted & IHstable)];
    cbn [fold_right].
  - repeat split; [constructor|constructor].
  - split; [|split].
    + rewrite insert_sorted_permutation. constructor. exact IHperm.
    + apply insert_sorted_keeps_order. exact IHsorted.
    + intro k. rewrite insert_sorted_filter. cbn [filter].
      rewrite IHstable. reflexivity.
Qed.

End HistoryOrder.

End Properties.


(** * The properties at work

    Each general statement above that has premises is applied here to a
    concrete world, and each sentence of the specification that the code does
    not follow is refuted on one. *)

Import Examples.
#[local] Existing Instance literal_engine.

Lemma reaches_relay_example : reaches_relay "k" (post a_payload).
Proof. repeat split; [discriminate]. Qed.

(** A stage 1 answered at once with the body [geminiResult]. *)
Lemma stage1_succeeds_example (geminiResult : value)
  (rest : list (completion response)) :
  stage1_succeeds (scripted (Normal (mkResponse 200 (Normal geminiResult)) :: rest))
    "k" (post a_payload) 0 geminiResult.
Proof.
  exists (mkResponse 200 (Normal geminiResult)).
  split; [|split; reflexivity].
  split; [lia|split]; [intros i Hi; lia|reflexivity].
Qed.



(** C2 refuted as stated: the text is not JSON and the image arrives; the
    name in the result is the Italian fallback, not ["Unnamed Creation"]. *)
Lemma fallback_name_is_italian :
  parse_json_text "not json" = None
  /\ sent (snd (handler
                  (scripted [Normal (gemini_says (VStr "not json"));
                             Normal (imagen_says four_As)])
                  (Some "k"%string) (post a_payload) []))
     = [(200,
         fusion_result (VStr "Il Creato Senza Nome") (VStr "The Unnamed Creation")
           "data:image/png;base64,AAAA")]
  /\ VStr "Il Creato Senza Nome" <> VStr "Unnamed Creation".
Proof. repeat split. discriminate. Qed.

(** The body of the stage-1 response is [null]: there is no candidate to
    read a text from, and the fallbacks are used. *)
Lemma unusable_text_witness :
  idea_of VNull
  = mkIdea (VStr "Il Creato Senza Nome") (VStr "The Unnamed Creation")
      (VStr "A surreal hybrid creature, vibrant colors, baroque illustration, octane render.")
  /\ fst (handler
            (scripted [Normal (mkResponse 200 (Normal VNull)); Throw (Error "reset");
                       Normal (imagen_says four_As)])
            (Some "k"%string) (post a_payload) []) = Normal tt
  /\ sent (snd (handler
                  (scripted [Normal (mkResponse 200 (Normal VNull));
                             Throw (Error "reset");
                             Normal (imagen_says four_As)])
                  (Some "k"%string) (post a_payload) []))
     = [(200,
         fusion_result (VStr "Il Creato Senza Nome") (VStr "The Unnamed Creation")
           ("data:image/png;base64," ++ "AAAA")%string)].
Proof.
  destruct (unusable_text_falls_back
              (scripted [Normal (mkResponse 200 (Normal VNull)); Throw (Error "reset");
                         Normal (imagen_says four_As)])
              "k" (post a_payload) 0 VNull)
    as (Hidea & _ & Hresult).
  - exact reaches_relay_example.
  - apply stage1_succeeds_example.
  - exact I.
  - split; [exact Hidea|].
    apply (Hresult 1%nat (imagen_says four_As)
             (VObj [("predictions", VArr [four_As])]) (VStr "AAAA") "AAAA"%string).
    + split; [lia|split].
      * intros i Hi. exists (Error "reset").
        destruct i as [|i]; [reflexivity|lia].
      * reflexivity.
    + reflexivity.
    + reflexivity.
    + reflexivity.
    + reflexivity.
    + reflexivity.
Defined.

Lemma withRetry_succeeds_witness :
  withRetry (invoke (Operation "op") (flaky 2 7)) 3 1000 []
  = (Normal (Some 7%nat), [] ++ retry_trace (Operation "op") 1000 0 2)
  /\ invocations (retry_trace (Operation "op") 1000 0 2) = (2 + 1)%nat
  /\ sleeps (retry_trace (Operation "op") 1000 0 2)
     = map (fun i => 1000 * 2 ^ Z.of_nat i) (seq 0 2).
Proof.
  apply (withRetry_succeeds_after_k_failures
           nat (Operation "op") (flaky 2 7) 3 1000 2 7%nat []).
  - lia.
  - intros i Hi. exists (Error "transient").
    destruct i as [|[|i]]; [reflexivity|reflexivity|lia].
  - reflexivity.
Defined.

Lemma withRetry_exhausts_witness :
  (withRetry (invoke (Operation "op") hopeless) 3 1000 []
   = (Throw (nth_failure 2), [] ++ retry_trace (Operation "op") 1000 0 2)
   /\ invocations (retry_trace (Operation "op") 1000 0 2) = 3%nat)
  /\ (handler down (Some "k"%string) (post a_payload) []
      = (Normal tt,
         retry_trace (Fetch (gemini_request "k" (post a_payload))) 1000 0 2
         ++ caught (nth_failure 2))
      /\ fetches (snd (handler down (Some "k"%string) (post a_payload) []))
         = repeat (gemini_request "k" (post a_payload)) 3
      /\ sent (snd (handler down (Some "k"%string) (post a_payload) []))
         = [(500, error_body "2")])
  /\ (fetches (snd (handler (scripted [Normal gemini_says_nothing])
                      (Some "k"%string) (post a_payload) []))
      = repeat (gemini_request "k" (post a_payload)) 1
        ++ repeat
             (imagen_request "k"
                "A surreal hybrid creature, vibrant colors, baroque illustration, octane render.")
             3
      /\ sent (snd (handler (scripted [Normal gemini_says_nothing])
                      (Some "k"%string) (post a_payload) []))
         = [(500, error_body "fetch failed")]).
Proof.
  destruct withRetry_exhausts_the_cap as (Hloop & Hstage1 & Hstage2).
  split; [|split].
  - apply (Hloop nat (Operation "op") hopeless nth_failure 3 1000 []).
    + lia.
    + intros i Hi. reflexivity.
  - apply (Hstage1 down "k"%string (post a_payload) nth_failure).
    + exact reaches_relay_example.
    + intros i Hi. reflexivity.
  - apply (Hstage2 (scripted [Normal gemini_says_nothing]) "k"%string
             (post a_payload) 0%nat gemini_says_nothing (VObj [])
             "A surreal hybrid creature, vibrant colors, baroque illustration, octane render."%string
             (fun _ => TypeError "fetch failed")).
    + exact reaches_relay_example.
    + split; [lia|split].
      * intros i Hi. lia.
      * reflexivity.
    + reflexivity.
    + reflexivity.
    + reflexivity.
    + intros i Hi.
      destruct i as [|[|[|i]]]; [reflexivity|reflexivity|reflexivity|lia].
Defined.

Lemma gattociclo_witness :
  fst (handler
         (scripted [Normal (gemini_says (VStr gattociclo_text));
                    Normal (imagen_says four_As)])
         (Some "k"%string) (post a_payload) []) = Normal tt
  /\ sent (snd (handler
                  (scripted [Normal (gemini_says (VStr gattociclo_text));
                             Normal (imagen_says four_As)])
                  (Some "k"%string) (post a_payload) []))
     = [(200,
         VObj [("name", VStr "Gattociclo");
               ("translation", VStr "Cat-cycle");
               ("imageUrl", VStr "data:image/png;base64,AAAA")])].
Proof.
  apply (gattociclo_example
           (scripted [Normal (gemini_says (VStr gattociclo_text));
                      Normal (imagen_says four_As)])
           "k" (post a_payload) 0 0
           (gemini_says (VStr gattociclo_text)) (imagen_says four_As)
           (VObj [("candidates",
                   VArr [VObj [("content",
                                VObj [("parts",
                                       VArr [VObj [("text", VStr gattociclo_text)]])])]])])).
  - exact reaches_relay_example.
  - split; [lia|split]; [intros i Hi; lia|reflexivity].
  - reflexivity.
  - reflexivity.
  - reflexivity.
  - split; [lia|split]; [intros i Hi; lia|reflexivity].
  - reflexivity.
  - reflexivity.
Defined.

(** C6 refuted as stated: stage 2 answers with status 200 and the body
    [null], which has no [bytesBase64Encoded]; the operation fails, but with
    the message of a [TypeError], not with the no-data error. *)
Lemma null_image_body_is_a_type_error :
  ok (mkResponse 200 (Normal VNull)) = true
  /\ (forall base64Data, prediction_bytes VNull <> Normal base64Data)
  /\ sent (snd (handler
                  (scripted [Normal (gemini_says (VStr gattociclo_text));
                             Normal (mkResponse 200 (Normal VNull))])
                  (Some "k"%string) (post a_payload) []))
     = [(500, error_body "Cannot read properties of null (reading 'predictions')")]
  /\ error_body "Cannot read properties of null (reading 'predictions')"
     <> error_body "Image generation failed to return data.".
Proof.
  split; [reflexivity|split; [discriminate|split; [reflexivity|discriminate]]].
Qed.

Lemma missing_image_data_witness :
  fst (handler
         (scripted [Normal (gemini_says (VStr gattociclo_text));
                    Normal (imagen_says (VObj []))])
         (Some "k"%string) (post a_payload) []) = Normal tt
  /\ sent (snd (handler
                  (scripted [Normal (gemini_says (VStr gattociclo_text));
                             Normal (imagen_says (VObj []))])
                  (Some "k"%string) (post a_payload) []))
     = [(500, error_body "Image generation failed to return data.")].
Proof.
  destruct (missing_image_data_is_fatal
              (scripted [Normal (gemini_says (VStr gattociclo_text));
                         Normal (imagen_says (VObj []))])
              "k" (post a_payload) 0 0
              (VObj [("candidates",
                      VArr [VObj [("content",
                                   VObj [("parts",
                                          VArr [VObj [("text", VStr gattociclo_text)]])])]])])
              "a bicycle with a cat's head" (imagen_says (VObj [])))
    as (Hfst & _ & Hvalue & _).
  - exact reaches_relay_example.
  - apply stage1_succeeds_example.
  - reflexivity.
  - split; [lia|split]; [intros i Hi; lia|reflexivity].
  - reflexivity.
  - intros imagenResult base64Data Hjson Hbytes.
    injection Hjson as <-. injection Hbytes as <-. reflexivity.
  - split; [exact Hfst|].
    apply (Hvalue (VObj [("predictions", VArr [VObj []])])); reflexivity.
Defined.

(** C7 refuted as stated: no credential, and the answer to a GET is ``method
    not allowed'', not a configuration error. *)
Lemma get_without_key_is_405 :
  handler down None (mkRequest "GET" a_payload) []
  = (Normal tt, [ESend 405 (error_body "Method Not Allowed")])
  /\ error_body "Method Not Allowed" <> error_body "API key not configured.".
Proof. split; [reflexivity|discriminate]. Qed.

Lemma missing_key_witness :
  handler down None (post a_payload) []
  = (Normal tt,
     [if String.eqb (method (post a_payload)) "POST"
      then ESend 500 (error_body "API key not configured.")
      else ESend 405 (error_body "Method Not Allowed")])
  /\ fetches (snd (handler down None (post a_payload) [])) = [].
Proof.
  apply (missing_key_short_circuits down None (post a_payload)).
  left. reflexivity.
Defined.

(** The text service answers with status 503 and the image service is never
    asked: one response, an error. *)
Lemma all_or_nothing_witness :
  fst (handler (always (Normal (upstream_error 503 "boom"))) (Some "k"%string)
         (post a_payload) []) = Normal tt
  /\ exists msg,
       sent (snd (handler (always (Normal (upstream_error 503 "boom")))
                    (Some "k"%string) (post a_payload) []))
       = [(500, error_body msg)].
Proof.
  destruct (handler_is_all_or_nothing (always (Normal (upstream_error 503 "boom")))
              (Some "k"%string) (post a_payload))
    as (_ & Hparts).
  destruct (Hparts "k"%string eq_refl reaches_relay_example)
    as (_ & Hstage1 & _).
  apply Hstage1. right.
  exists 0%nat, (upstream_error 503 "boom").
  split; [|reflexivity].
  split; [lia|split]; [intros i Hi; lia|reflexivity].
Defined.

Lemma withRetry_nonpositive_witness :
  withRetry (invoke (Operation "op") hopeless) 0 1000 [] = (Normal None, [])
  /\ invocations (snd (withRetry (invoke (Operation "op") hopeless) 0 1000 []))
     = invocations [].
Proof.
  apply (withRetry_nonpositive_cap_skips nat (invoke (Operation "op") hopeless)
           0 1000 []).
  lia.
Defined.

(** C10 refuted as stated: the parsed name is [true]; it is truthy, so it is
    kept, and the name after stage 1 is not a string. *)
Lemma kept_name_is_not_a_string :
  parse_json_text (json_text "{`italianName`:true}")
  = Some (VObj [("italianName", VBool true)])
  /\ stage1_idea
       (VObj [("candidates",
               VArr [VObj [("content",
                            VObj [("parts",
                                   VArr [VObj [("text",
                                                VStr (json_text "{`italianName`:true}"))]])])]])])
       []
     = (Normal
          (mkIdea (VBool true) (VStr "The Unnamed Creation")
             (VStr "A surreal hybrid creature, vibrant colors, baroque illustration, octane render.")),
        [])
  /\ (forall s, VBool true <> VStr s).
Proof. split; [reflexivity|split; [reflexivity|discriminate]]. Qed.

Lemma fallback_per_field_witness :
  idea_of
    (VObj [("candidates",
            VArr [VObj [("content",
                         VObj [("parts",
                                VArr [VObj [("text",
                                             VStr (json_text "{`italianName`:``,`englishTranslation`:`Half`}"))]])])]])])
  = mkIdea
      (or_else (member "italianName"
                  (VObj [("italianName", VStr ""); ("englishTranslation", VStr "Half")]))
         (VStr "Il Creato Senza Nome"))
      (or_else (member "englishTranslation"
                  (VObj [("italianName", VStr ""); ("englishTranslation", VStr "Half")]))
         (VStr "The Unnamed Creation"))
      (or_else (member "imagePrompt"
                  (VObj [("italianName", VStr ""); ("englishTranslation", VStr "Half")]))
         (VStr "A surreal hybrid creature, vibrant colors, baroque illustration, octane render.")).
Proof.
  destruct (fallback_is_per_field
              (VObj [("candidates",
                      VArr [VObj [("content",
                                   VObj [("parts",
                                          VArr [VObj [("text",
                                                       VStr (json_text "{`italianName`:``,`englishTranslation`:`Half`}"))]])])]])]))
    as (Hfields & _).
  apply (Hfields (VStr (json_text "{`italianName`:``,`englishTranslation`:`Half`}"))).
  - reflexivity.
  - reflexivity.
Defined.

Lemma other_methods_witness :
  handler down (Some "k"%string) (mkRequest "PUT" a_payload) []
  = (Normal tt, [ESend 405 (error_body "Method Not Allowed")]).
Proof.
  apply (other_methods_are_405 down (Some "k"%string) (mkRequest "PUT" a_payload)).
  discriminate.
Defined.

Lemma default_policy_witness :
  fst (withRetry_default (fetch down (gemini_request "k" (post a_payload))) [])
  = Throw (nth_failure 2)
  /\ sleeps (snd (withRetry_default
                    (fetch down (gemini_request "k" (post a_payload))) []))
     = sleeps [] ++ [1000; 2000].
Proof.
  apply (default_policy_pauses_twice down (gemini_request "k" (post a_payload))
           nth_failure []).
  intros j Hj. reflexivity.
Defined.

Lemma stage2_error_status_witness :
  fetches (snd (handler
                  (scripted [Normal gemini_says_nothing;
                             Normal (upstream_error 429 "quota")])
                  (Some "k"%string) (post a_payload) []))
  = repeat (gemini_request "k" (post a_payload)) (0 + 1)
    ++ repeat
         (imagen_request "k"
            "A surreal hybrid creature, vibrant colors, baroque illustration, octane render.")
         (0 + 1)
  /\ sent (snd (handler
                  (scripted [Normal gemini_says_nothing;
                             Normal (upstream_error 429 "quota")])
                  (Some "k"%string) (post a_payload) []))
     = [(500, error_body "Imagen API Error: quota")].
Proof.
  destruct (stage2_error_status_is_not_retried
              (scripted [Normal gemini_says_nothing;
                         Normal (upstream_error 429 "quota")])
              "k" (post a_payload) 0 0 (VObj [])
              "A surreal hybrid creature, vibrant colors, baroque illustration, octane render."
              (upstream_error 429 "quota"))
    as (e & _ & Hfetches & Hsent & Hmessage).
  - exact reaches_relay_example.
  - apply stage1_succeeds_example.
  - reflexivity.
  - split; [lia|split]; [intros i Hi; lia|reflexivity].
  - reflexivity.
  - destruct (Hmessage (VObj [("error", VObj [("message", VStr "quota")])])
                (VObj [("message", VStr "quota")]) (VStr "quota") "quota"%string
                eq_refl eq_refl eq_refl eq_refl) as (_ & He).
    rewrite He in Hsent. split; [exact Hfetches|exact Hsent].
Defined.

(** ** The page at work *)

Lemma adjustColor_clamps_witness :
  adjustColor "#4f46e5" (-20)
  = color_of (clamp (79 + -20)) (clamp (70 + -20)) (clamp (229 + -20))
  /\ exists k1 k2 k3 k4 k5 k6,
       color_of (clamp (79 + -20)) (clamp (70 + -20)) (clamp (229 + -20))
       = String "#" (String k1 (String k2 (String k3 (String k4 (String k5 (String k6 ""))))))
       /\ hex_pair_value k1 k2 = Some (clamp (79 + -20))
       /\ hex_pair_value k3 k4 = Some (clamp (70 + -20))
       /\ hex_pair_value k5 k6 = Some (clamp (229 + -20)).
Proof.
  apply (adjustColor_clamps_each_channel "4" "f" "4" "6" "e" "5" 79 70 229 (-20));
    reflexivity.
Defined.

Lemma adjustColor_adds_up_witness :
  adjustColor (adjustColor "#4f46e5" (-20)) (-20) = adjustColor "#4f46e5" (-20 + -20).
Proof.
  apply (adjustColor_same_direction_adds_up "4" "f" "4" "6" "e" "5" 79 70 229
           (-20) (-20)); try reflexivity.
  right. lia.
Defined.

Lemma adjustColor_three_digits_witness :
  adjustColor "#abc" (-20) = ("#" ++ hex2 (clamp (171 + -20)) ++ "c")%string.
Proof.
  apply (adjustColor_on_three_digits "a" "b" "c" 171 (-20)). reflexivity.
Defined.

Lemma hexToRgba_six_digits_witness :
  hexToRgba "#4f46e5" (number_of_literal "0.4")
  = ("rgba(" ++ show_integer (Some 79) ++ "," ++ show_integer (Some 70) ++ ","
     ++ show_integer (Some 229) ++ "," ++ number_to_string (number_of_literal "0.4") ++ ")")%string
  /\ 0 <= 79 <= 255 /\ 0 <= 70 <= 255 /\ 0 <= 229 <= 255.
Proof.
  apply (hexToRgba_reads_six_digits "#" "4" "f" "4" "6" "e" "5" 79 70 229
           (number_of_literal "0.4")); reflexivity.
Defined.

Lemma hexToRgba_short_form_witness :
  hexToRgba "#abc" (number_of_literal "0.4") = rgba (Some 170) (Some 187) (Some 204) (number_of_literal "0.4").
Proof.
  destruct (hexToRgba_short_form_is_doubled "#" "a" "b" "c" (number_of_literal "0.4"))
    as (_ & Hdigits).
  apply (Hdigits 170 187 204); reflexivity.
Defined.

Lemma hexToRgba_of_adjusted_witness :
  hexToRgba (adjustColor "#4f46e5" (-20)) (number_of_literal "0.2")
  = rgba (Some (clamp (79 + -20))) (Some (clamp (70 + -20)))
      (Some (clamp (229 + -20))) (number_of_literal "0.2").
Proof.
  apply (hexToRgba_of_adjusted_colour "4" "f" "4" "6" "e" "5" 79 70 229 (-20)
           (number_of_literal "0.2")); reflexivity.
Defined.

Lemma fileToBase64_witness :
  base64_of_data_url ("data:image/png;base64" ++ "," ++ "AAAA")%string = Some "AAAA"%string
  /\ base64_of_data_url "AAAA" = None.
Proof.
  apply (fileToBase64_gives_the_payload "data:image/png;base64" "AAAA");
    intros c Hc; cbn in Hc;
    repeat (destruct Hc as [<-|Hc]; [discriminate|]); destruct Hc.
Defined.

Lemma random_mode_witness :
  random_disabled (setInput2 "cat" initial_page) = negb (truthy (VStr "cat"))
  /\ request_parts initial_page true
     = [text_part "Generate an Italian-sounding merged name, its English translation, and a visual description for an artistic hybrid of a **a mystery object** and a **randomly chosen, dramatically different object**."].
Proof.
  destruct (random_mode_drops_words initial_page "cat") as (_ & _ & Hmystery).
  apply Hmystery; reflexivity.
Defined.

Lemma buttons_witness :
  random_disabled (setInput2 "bicycle" (setInput1 "cat" initial_page)) = true
  /\ fst (generateFusion_start (setInput2 "bicycle" (setInput1 "cat" initial_page))
            false)
     = Proceeds.
Proof.
  destruct (buttons_are_never_refused
              (setInput2 "bicycle" (setInput1 "cat" initial_page)))
    as (Hexclusive & Hfuse & _ & _).
  split; [apply Hexclusive|apply Hfuse]; reflexivity.
Defined.

Lemma page_reads_witness :
  (exists name translation imageUrl,
      500 = 200
      /\ error_body "2" = fusion_result name translation imageUrl
      /\ read_response (Normal (delivered 500 (error_body "2")))
         = Normal (wire name, wire translation, VStr imageUrl)
      /\ (forall s, name = VStr s -> wire name = VStr s)
      /\ (forall s, translation = VStr s -> wire translation = VStr s))
  \/ (exists msg,
        (500 = 405 \/ 500 = 500)
        /\ msg <> ""%string
        /\ error_body "2" = error_body msg
        /\ read_response (Normal (delivered 500 (error_body "2"))) = Throw (Error msg)
        /\ error_text (Error msg)
           = ("A server error occurred: " ++ msg
              ++ ". Please check your Vercel logs.")%string).
Proof.
  apply (page_reads_what_the_handler_sent down (Some "k"%string) (post a_payload)
           500 (error_body "2")).
  reflexivity.
Defined.

Lemma stage1_body_not_json_witness :
  fetches (snd (handler (scripted [Normal html_answer]) (Some "k"%string)
                  (post a_payload) []))
  = repeat (gemini_request "k" (post a_payload)) (0 + 1)
  /\ sent (snd (handler (scripted [Normal html_answer]) (Some "k"%string)
                  (post a_payload) []))
     = [(500,
         error_body
           (message_or_default
              (SyntaxError "Unexpected token < in JSON at position 0")))].
Proof.
  apply (stage1_body_not_json_is_fatal (scripted [Normal html_answer]) "k"
           (post a_payload) 0 html_answer
           (SyntaxError "Unexpected token < in JSON at position 0")).
  - exact reaches_relay_example.
  - split; [lia|split]; [intros i Hi; lia|reflexivity].
  - reflexivity.
Defined.

Lemma stage1_error_without_message_witness :
  err_name (TypeError (cannot_read false "message")) = "TypeError"%string
  /\ sent (snd (handler (scripted [Normal (mkResponse 500 (Normal (VObj [])))])
                  (Some "k"%string) (post a_payload) []))
     = [(500,
         error_body (message_or_default (TypeError (cannot_read false "message"))))].
Proof.
  apply (stage1_error_without_message_is_a_type_error
           (scripted [Normal (mkResponse 500 (Normal (VObj [])))]) "k"
           (post a_payload) 0 (mkResponse 500 (Normal (VObj []))) (VObj [])
           (TypeError (cannot_read false "message"))).
  - exact reaches_relay_example.
  - split; [lia|split]; [intros i Hi; lia|reflexivity].
  - reflexivity.
  - reflexivity.
  - right. exists VUndefined. split; reflexivity.
Defined.

Lemma word_and_image_witness :
  text_input_disabled
    (fst (card_image_change Concept2 (Some 1024) initial_page))
    (card_image Concept2 (fst (card_image_change Concept2 (Some 1024) initial_page)))
  = isLoading initial_page
  /\ card_input Concept2
       (card_read_done Concept2 (Some "AAAA"%string)
          (card_text_change Concept2 "cat"
             (fst (card_image_change Concept2 (Some 1024) initial_page))))
     = "cat"%string
  /\ card_image Concept2
       (card_read_done Concept2 (Some "AAAA"%string)
          (card_text_change Concept2 "cat"
             (fst (card_image_change Concept2 (Some 1024) initial_page))))
     = VStr "AAAA"
  /\ text_input_disabled initial_page (VStr "AAAA") = true
  /\ file_input_disabled initial_page "cat" = true.
Proof.
  destruct (word_and_image_apart_except_across_a_read Concept2 initial_page)
    as (_ & _ & Hrace & _).
  apply (Hrace 1024 "cat"%string "AAAA"%string); [lia|discriminate|discriminate].
Defined.

Lemma page_request_wire_witness :
  wire (body (page_request (setImage1Base64 (VStr "AAAA") initial_page) true))
  = body (page_request (setImage1Base64 (VStr "AAAA") initial_page) true).
Proof.
  apply (page_request_survives_the_wire
           (setImage1Base64 (VStr "AAAA") initial_page) true).
  - right; right. exists "AAAA"%string. reflexivity.
  - left. reflexivity.
Defined.

Lemma page_request_witness :
  fst (handler down (Some "k"%string) (page_request initial_page true) []) = Normal tt
  /\ (exists code body,
        sent (snd (handler down (Some "k"%string) (page_request initial_page true) []))
        = [(code, body)])
  /\ (exists a b prompt,
        (1 <= a <= 3)%nat /\ (b <= 3)%nat
        /\ fetches (snd (handler down (Some "k"%string)
                           (page_request initial_page true) []))
           = repeat (post_json (GEMINI_API_URL "k") (geminiPayload initial_page true)) a
             ++ repeat (imagen_request "k" prompt) b).
Proof.
  apply (page_request_is_answered_once down "k"%string initial_page true).
  discriminate.
Defined.
